(** * ccc-dashboard: the filtering, aggregation and metric engine of [app.py]

    A shallow embedding of the data-transformation core of the dashboard:
    [filter_data], the two [best_location] helpers, [aggregate_events_for_map],
    the body of [update_all], the marker lookup of [show_event_details] and
    the column handling of [download_csv].

    Conventions.
    - A pandas frame is a list of rows in frame order; a row is a record of
      the columns the code reads.
    - A float cell is [option Q]: [None] is NaN, [Some q] a number.  Sums,
      products and quotients are exact; rounding of binary floats is not
      modelled.
    - A text cell is [cell]: [NaN] or [Str s].  Strings are sequences of
      8-bit characters (the file is read as latin1).
    - A day is a calendar date; series are indexed by the proleptic ordinal
      of the day ([Timestamp.toordinal]). *)

From Stdlib Require Import ZArith QArith Qround Qabs List String Ascii Bool Lia Lqa.
From Stdlib Require Import DecimalString DecimalN DecimalPos Sorted OrderedTypeEx.
Import ListNotations.

Open Scope string_scope.
Open Scope Z_scope.

(* ================================================================== *)
(** * Python and pandas primitives used by the program *)
(* ================================================================== *)

Module Py.

(** [str.isspace] on the code points below 256. *)
Definition is_space (c : ascii) : bool :=
  let n := nat_of_ascii c in
  (((9 <=? n) && (n <=? 13)) || ((28 <=? n) && (n <=? 32))
   || (n =? 133) || (n =? 160))%nat.

Fixpoint lstrip (s : string) : string :=
  match s with
  | EmptyString => EmptyString
  | String c s' => if is_space c then lstrip s' else s
  end.

Fixpoint rstrip (s : string) : string :=
  match s with
  | EmptyString => EmptyString
  | String c s' =>
      match rstrip s' with
      | EmptyString => if is_space c then EmptyString else String c EmptyString
      | t => String c t
      end
  end.

(** [s.strip()] *)
Definition strip (s : string) : string := rstrip (lstrip s).

Definition lower_char (c : ascii) : ascii :=
  let n := nat_of_ascii c in
  if (((65 <=? n) && (n <=? 90))
      || ((192 <=? n) && (n <=? 222) && negb (n =? 215)))%nat
  then ascii_of_nat (n + 32) else c.

(** [s.lower()] *)
Fixpoint lower (s : string) : string :=
  match s with
  | EmptyString => EmptyString
  | String c s' => String (lower_char c) (lower s')
  end.

(** [bool(s)] for a string: non-empty. *)
Definition truthy (s : string) : bool :=
  match s with EmptyString => false | _ => true end.

(** [s.split(sep)] for a one-character separator. *)
Fixpoint split (sep : ascii) (s : string) : list string :=
  match s with
  | EmptyString => [EmptyString]
  | String c s' =>
      if Ascii.eqb c sep then EmptyString :: split sep s'
      else match split sep s' with
           | w :: ws => String c w :: ws
           | [] => [String c EmptyString]
           end
  end.

(** [sub in s] *)
Fixpoint contains (sub s : string) : bool :=
  prefix sub s
  || match s with
     | EmptyString => false
     | String _ s' => contains sub s'
     end.

(** [sep.join(xs)] *)
Definition join (sep : string) (xs : list string) : string := concat sep xs.

(** [str(n)] for a non-negative integer. *)
Definition str_nat (n : N) : string := NilZero.string_of_uint (N.to_uint n).

(** Left padding with zeros to a width, as [%0wd]. *)
Fixpoint zeros (k : nat) : string :=
  match k with O => EmptyString | S k' => String "0" (zeros k') end.

Definition zfill (w : nat) (s : string) : string :=
  zeros (w - String.length s) ++ s.

(** The [,] option of the format mini-language: a comma before every
    group of three digits counted from the right. *)
Fixpoint with_commas (s : string) : string :=
  match s with
  | EmptyString => EmptyString
  | String c s' =>
      String c
        (if ((0 <? String.length s') && (String.length s' mod 3 =? 0))%nat
         then String "," (with_commas s') else with_commas s')
  end.

(** [f"{n:,}"] for a non-negative integer. *)
Definition format_int_commas (n : N) : string := with_commas (str_nat n).

(** Rounding to the nearest integer, ties to even, as the [f] presentation
    type does on the exact value. *)
Definition round_half_even (q : Q) : Z :=
  let f := Qfloor q in
  match Qcompare (q - inject_Z f) (1 # 2) with
  | Lt => f
  | Gt => f + 1
  | Eq => if Z.even f then f else f + 1
  end.

(** [f"{x:.{prec}f}"] and, with [grouping], [f"{x:,.{prec}f}"]; a NaN
    prints as [nan]. *)
Definition format_fixed (grouping : bool) (prec : nat) (x : option Q) : string :=
  match x with
  | None => "nan"
  | Some q =>
      let scale := 10 ^ Z.of_nat prec in
      let n := round_half_even (Qabs q * inject_Z scale) in
      let ip := str_nat (Z.to_N (n / scale)) in
      let fp := zfill prec (str_nat (Z.to_N (n mod scale))) in
      (if Qlt_le_dec q 0 then "-" else "")
      ++ (if grouping then with_commas ip else ip)
      ++ (match prec with O => "" | _ => "." ++ fp end)
  end.

End Py.

(* ================================================================== *)
(** * Calendar dates *)
(* ================================================================== *)

Module Dates.

Record Date := mkDate { year : Z; month : Z; day : Z }.

Definition is_leap (y : Z) : bool :=
  (y mod 4 =? 0) && (negb (y mod 100 =? 0) || (y mod 400 =? 0)).

Definition days_before_year (y : Z) : Z :=
  let y1 := y - 1 in y1 * 365 + y1 / 4 - y1 / 100 + y1 / 400.

Definition days_before_month (y m : Z) : Z :=
  nth (Z.to_nat m)
      [0; 0; 31; 59; 90; 120; 151; 181; 212; 243; 273; 304; 334] 0
  + (if (2 <? m) && is_leap y then 1 else 0).

(** [date.toordinal()]: 0001-01-01 is day 1. *)
Definition toordinal (d : Date) : Z :=
  days_before_year (year d) + days_before_month (year d) (month d) + day d.

(** [str(date)]: [YYYY-MM-DD]. *)
Definition isoformat (d : Date) : string :=
  Py.zfill 4 (Py.str_nat (Z.to_N (year d))) ++ "-"
  ++ Py.zfill 2 (Py.str_nat (Z.to_N (month d))) ++ "-"
  ++ Py.zfill 2 (Py.str_nat (Z.to_N (day d))).

Definition leb (a b : Date) : bool := toordinal a <=? toordinal b.

End Dates.

(* ================================================================== *)
(** * Data model: a row of the loaded frame [df] *)
(* ================================================================== *)

(** A cell of an object (text) column. *)
Inductive cell := NaN | Str (s : string).

(** [str(v)] of a text cell; a NaN prints as [nan]. *)
Definition py_str (c : cell) : string :=
  match c with NaN => "nan" | Str s => s end.

Definition notnull (c : cell) : bool :=
  match c with NaN => false | Str _ => true end.

Definition notna {A} (x : option A) : bool :=
  match x with Some _ => true | None => false end.

Definition isna {A} (x : option A) : bool := negb (notna x).

(** [row.get(col, default)]: [None] when the frame has no such column. *)
Definition get (field : option cell) (default : cell) : cell :=
  match field with Some c => c | None => default end.

(** A row of [df] after the module-level load (lines 18-36): [date] parsed
    with [errors='coerce'], [size_mean] and the five numeric outcome columns
    coerced to numeric-or-NaN.  [location] and [locality] are read only
    through [row.get] and may be absent from the frame; every other column
    below is indexed directly by the code and so is present. *)
Record Row := mkRow {
  title : cell;
  date : option Dates.Date;
  state : cell;
  organizations : cell;
  location : option cell;
  locality : option cell;
  lat : option Q;
  lon : option Q;
  size_mean : option Q;
  participant_injuries : option Q;
  police_injuries : option Q;
  arrests : option Q;
  participant_deaths : option Q;
  police_deaths : option Q;
  property_damage : cell
}.

(** [df['participants_numeric'] = df['size_mean']] (line 21). *)
Definition participants_numeric (r : Row) : option Q := size_mean r.

(** A row of a frame that carries the [location_label] column. *)
Record LRow := mkLRow {
  row :> Row;
  location_label : string
}.

Definition US_POPULATION : Q := 340100000 # 1.

(* ================================================================== *)
(** * [filter_data] *)
(* ================================================================== *)

(** The filter specification: the six arguments of [filter_data].  A date
    bound is [None] when the argument is [None] or empty (falsy); otherwise
    it is the date the picker's ISO string denotes. *)
Record Spec := mkSpec {
  start_date : option Dates.Date;
  end_date : option Dates.Date;
  size_filter : string;
  org_search : option string;
  state_filter : list string;
  any_outcomes_filter : list string
}.

(** Lines 525-526. A comparison with NaT is false. *)
Definition date_mask (sp : Spec) (r : Row) : bool :=
  match start_date sp, end_date sp with
  | Some s, Some e =>
      match date r with
      | Some d => Dates.leb s d && Dates.leb d e
      | None => false
      end
  | _, _ => true
  end.

(** Lines 527-530. *)
Definition size_mask (sp : Spec) (r : Row) : bool :=
  if String.eqb (size_filter sp) "has" then notna (size_mean r)
  else if String.eqb (size_filter sp) "no" then isna (size_mean r)
  else true.

(** Line 532. *)
Definition org_terms (s : string) : list string :=
  map (fun o => Py.lower (Py.strip o))
      (filter (fun o => Py.truthy (Py.strip o)) (Py.split "," s)).

(** Lines 531-535.  The pattern is the alternation of the escaped terms, so
    [str.contains] holds when some term occurs literally; [na=False]. *)
Definition org_mask (sp : Spec) (r : Row) : bool :=
  match org_search sp with
  | None => true
  | Some s =>
      if Py.truthy s then
        match org_terms s with
        | [] => true
        | terms =>
            match organizations r with
            | NaN => false
            | Str o => existsb (fun t => Py.contains t o) terms
            end
        end
      else true
  end.

(** Lines 536-537. *)
Definition state_mask (sp : Spec) (r : Row) : bool :=
  match state_filter sp with
  | [] => true
  | sel =>
      match state r with
      | NaN => false
      | Str s => existsb (String.eqb s) sel
      end
  end.

Section Outcomes.

(** [str(x)] of a float, as [astype(str)] prints the numbers of a numeric
    column. *)
Variable float_repr : Q -> string.

Definition astype_str (x : option Q) : string :=
  match x with None => "nan" | Some q => float_repr q end.

(** [pd.to_numeric(col, errors='coerce').fillna(0) > 0] on a column that
    is already numeric. *)
Definition positive (x : option Q) : bool :=
  match Qcompare (match x with Some q => q | None => 0%Q end) 0%Q with
  | Gt => true
  | _ => false
  end.

Definition not_unspecified (x : option Q) : bool :=
  negb (String.eqb (Py.lower (astype_str x)) "unspecified").

(** One iteration of the loop of lines 540-552; an unknown value adds no
    constraint. *)
Definition outcome_ok (outcome : string) (r : Row) : bool :=
  if String.eqb outcome "arrests_any" then
    notna (arrests r) && not_unspecified (arrests r) && positive (arrests r)
  else if String.eqb outcome "participant_injuries_any" then
    notna (participant_injuries r) && not_unspecified (participant_injuries r)
    && positive (participant_injuries r)
  else if String.eqb outcome "police_injuries_any" then
    notna (police_injuries r) && positive (police_injuries r)
  else if String.eqb outcome "property_damage_any" then
    notnull (property_damage r)
    && negb (String.eqb (Py.strip (py_str (property_damage r))) "")
  else if String.eqb outcome "participant_deaths_any" then
    notna (participant_deaths r) && positive (participant_deaths r)
  else if String.eqb outcome "police_deaths_any" then
    notna (police_deaths r) && positive (police_deaths r)
  else true.

(** The loop: [mask &= ...] once per selected outcome. *)
Definition outcomes_mask (sp : Spec) (r : Row) : bool :=
  fold_left (fun m o => m && outcome_ok o r) (any_outcomes_filter sp) true.

Definition mask (sp : Spec) (r : Row) : bool :=
  date_mask sp r && size_mask sp r && org_mask sp r && state_mask sp r
  && outcomes_mask sp r.

(** [best_location] of [filter_data] (lines 564-573). *)
Definition best_location_filter (r : Row) : string :=
  let loc := Py.strip (py_str (get (location r) (Str ""))) in
  if Py.truthy loc && negb (String.eqb (Py.lower loc) "nan") then loc
  else
    let loc2 := Py.strip (py_str (get (locality r) (Str ""))) in
    if Py.truthy loc2 && negb (String.eqb (Py.lower loc2) "nan") then loc2
    else
      let st := py_str (state r) in
      let dt := match date r with
                | Some d => Dates.isoformat d
                | None => ""
                end in
      st ++ ", " ++ dt.

(** [filter_data]: [df.loc[mask]], then the [location_label] column. *)
Definition filter_data (df : list Row) (sp : Spec) : list LRow :=
  map (fun r => mkLRow r (best_location_filter r)) (filter (mask sp) df).

End Outcomes.

(* ================================================================== *)
(** * Series helpers (pandas reductions, NaN skipped) *)
(* ================================================================== *)

Fixpoint dropna {A} (xs : list (option A)) : list A :=
  match xs with
  | [] => []
  | Some x :: xs' => x :: dropna xs'
  | None :: xs' => dropna xs'
  end.

Fixpoint Qsum (xs : list Q) : Q :=
  match xs with
  | [] => 0%Q
  | x :: xs' => (x + Qsum xs')%Q
  end.

(** [Series.sum()]: NaN skipped, 0 on an empty or all-NaN series. *)
Definition series_sum (xs : list (option Q)) : Q := Qsum (dropna xs).

(** [Series.count()]: the number of non-null values. *)
Definition series_count (xs : list (option Q)) : nat := List.length (dropna xs).

(** [Series.mean()]: NaN on an empty or all-NaN series. *)
Definition series_mean (xs : list (option Q)) : option Q :=
  match dropna xs with
  | [] => None
  | vs => Some (Qsum vs / inject_Z (Z.of_nat (List.length vs)))%Q
  end.

Definition Qmax (a b : Q) : Q := if Qle_bool a b then b else a.

(** [Series.max()]: NaN on an empty or all-NaN series. *)
Definition series_max (xs : list (option Q)) : option Q :=
  match dropna xs with
  | [] => None
  | v :: vs => Some (fold_left Qmax vs v)
  end.

(** The ['first'] aggregation: the first non-null value. *)
Definition first_valid {A} (xs : list (option A)) : option A :=
  match dropna xs with
  | [] => None
  | v :: _ => Some v
  end.

(** [s.isnull().all()] *)
Definition all_null {A} (xs : list (option A)) : bool := forallb isna xs.

(* ================================================================== *)
(** * [aggregate_events_for_map] *)
(* ================================================================== *)

(** [best_location] of [aggregate_events_for_map] (lines 586-595). *)
Definition best_location_map (r : Row) : string :=
  let loc := Py.strip (py_str (get (location r) (Str "Unknown"))) in
  if Py.truthy loc && negb (String.eqb (Py.lower loc) "nan") then loc
  else
    let loc2 := Py.strip (py_str (get (locality r) (Str "Unknown"))) in
    if Py.truthy loc2 && negb (String.eqb (Py.lower loc2) "nan") then loc2
    else
      let st := py_str (state r) in
      let dt := match date r with
                | Some d => Dates.isoformat d
                | None => "Unknown"
                end in
      st ++ ", " ++ dt.

(** Lines 598-599: the label column of [df_map]. *)
Definition map_label (r : Row) : string :=
  let l := best_location_map r in
  if String.eqb l "" then "Unknown" else l.

(** The test of lines 604 and 606: not null, not blank, not the text [nan]. *)
Definition present (c : cell) : bool :=
  notnull c
  && negb (String.eqb (Py.lower (Py.strip (py_str c))) "nan")
  && Py.truthy (Py.strip (py_str c)).

(** Lines 602-609. *)
Definition event_label (r : Row) : string :=
  (if present (title r) then py_str (title r) else "Unknown")
  ++ " ("
  ++ (match date r with Some d => Dates.isoformat d | None => "Unknown" end)
  ++ ")<br>"
  ++ "Org: "
  ++ (if present (organizations r) then py_str (organizations r) else "Unknown").

(** Line 612: [dropna(subset=['lat', 'lon'])]. *)
Definition geolocatable (r : Row) : bool := notna (lat r) && notna (lon r).

(** The sorted distinct keys of a [groupby]. *)
Fixpoint insert_key {K} (cmp : K -> K -> comparison) (k : K) (ks : list K)
  : list K :=
  match ks with
  | [] => [k]
  | k' :: ks' =>
      match cmp k k' with
      | Lt => k :: ks
      | Eq => ks
      | Gt => k' :: insert_key cmp k ks'
      end
  end.

Definition group_keys {K} (cmp : K -> K -> comparison) (keys : list K)
  : list K :=
  fold_right (insert_key cmp) [] keys.

(** [groupby('location_label')]: one group per distinct label, keys in
    sorted order, the rows of a group in frame order. *)
Definition groupby (rows : list LRow) : list (string * list LRow) :=
  map (fun k => (k, filter (fun r => String.eqb (location_label r) k) rows))
      (group_keys String.compare (map location_label rows)).

(** One row of the aggregated frame. *)
Record Cluster := mkCluster {
  c_location_label : string;
  c_lat : option Q;
  c_lon : option Q;
  c_count : nat;
  c_event_list : string;
  c_title : string;
  c_size_mean : option Q;
  c_hover : string;
  c_text : string
}.

(** Line 620: [x.fillna('Unknown').astype(str).replace('', 'Unknown')]. *)
Definition title_text (c : cell) : string :=
  match c with
  | NaN => "Unknown"
  | Str s => if String.eqb s "" then "Unknown" else s
  end.

(** Lines 615-635 for one group. *)
Definition agg_group (g : string * list LRow) : Cluster :=
  let '(label, rows) := g in
  let count := List.length rows in
  let event_list := Py.join "<br><br>" (map (fun r : LRow => event_label r) rows) in
  let sizes := map (fun r : LRow => size_mean r) rows in
  mkCluster
    label
    (first_valid (map (fun r : LRow => lat r) rows))
    (first_valid (map (fun r : LRow => lon r) rows))
    count
    event_list
    (Py.join "; " (map (fun r : LRow => title_text (title r)) rows))
    (if existsb notna sizes then series_mean sizes else None)
    ("<b>" ++ label ++ "</b><br>"
     ++ "Events at this site: " ++ Py.str_nat (N.of_nat count) ++ "<br><br>"
     ++ "<b>Events:</b><br>" ++ event_list)
    label.

(** The frame [df_map] just before the [groupby]: relabelled (the incoming
    [location_label] column is overwritten), rows without coordinates
    dropped. *)
Definition df_map (dff_map : list LRow) : list LRow :=
  filter (fun r : LRow => geolocatable r)
         (map (fun r : LRow => mkLRow r (map_label r)) dff_map).

(** The body of [aggregate_events_for_map] (lines 582-637): what the
    decorated function computes when the cache holds no live entry for its
    argument; [aggregate_events_for_map_memoized] below adds the decorator
    of line 581.  On a frame left empty by the [dropna] the aggregation is
    taken to yield the empty frame. *)
Definition aggregate_events_for_map (dff_map : list LRow) : list Cluster :=
  map agg_group (groupby (df_map dff_map)).

(* ================================================================== *)
(** * Daily resampling *)
(* ================================================================== *)

(** The rows of a frame indexed by [date], as (ordinal, value) pairs; a row
    whose date is NaT falls in no bucket. *)
Fixpoint dated {A} (rows : list (option Dates.Date * A)) : list (Z * A) :=
  match rows with
  | [] => []
  | (Some d, a) :: rows' => (Dates.toordinal d, a) :: dated rows'
  | (None, _) :: rows' => dated rows'
  end.

(** The days [lo], [lo+1], ..., [hi]. *)
Definition day_range (lo hi : Z) : list Z :=
  map (fun i => lo + Z.of_nat i) (seq 0 (Z.to_nat (hi - lo + 1))).

Definition on_day {A} (d : Z) (xs : list (Z * A)) : list A :=
  map snd (filter (fun p => fst p =? d) xs).

(** [set_index('date').resample('D')]: one bucket per calendar day from the
    earliest to the latest date of the frame, empty buckets included. *)
Definition resample {A} (rows : list (option Dates.Date * A))
  : list (Z * list A) :=
  let xs := dated rows in
  match map fst xs with
  | [] => []
  | d :: ds =>
      map (fun day => (day, on_day day xs))
          (day_range (fold_left Z.min ds d) (fold_left Z.max ds d))
  end.

(** [cumsum()] *)
Fixpoint cumsum (acc : nat) (xs : list nat) : list nat :=
  match xs with
  | [] => []
  | x :: xs' => (acc + x)%nat :: cumsum (acc + x)%nat xs'
  end.

(** [rolling(w).sum()] on a series without NaN: NaN until [w] values are
    available. *)
Definition rolling_sum (w : nat) (xs : list Q) : list (option Q) :=
  map (fun i => if (S i <? w)%nat then None
                else Some (Qsum (firstn w (skipn (S i - w) xs))))
      (seq 0 (List.length xs)).

(** [np.polyfit(x, y, 1)] in exact arithmetic: the least-squares slope and
    intercept. *)
Definition polyfit1 (pts : list (Q * Q)) : Q * Q :=
  let n := inject_Z (Z.of_nat (List.length pts)) in
  let sx := Qsum (map fst pts) in
  let sy := Qsum (map snd pts) in
  let sxx := Qsum (map (fun p => fst p * fst p)%Q pts) in
  let sxy := Qsum (map (fun p => fst p * snd p)%Q pts) in
  let slope := ((n * sxy - sx * sy) / (n * sxx - sx * sx))%Q in
  (slope, ((sy - slope * sx) / n)%Q).

(* ================================================================== *)
(** * [update_all] *)
(* ================================================================== *)

Inductive MarkerSize := PerPoint (sizes : list (option Q)) | Fixed (size : Q).

(** A [Scattermapbox] trace: its points are the rows of an aggregated
    frame. *)
Record Trace := mkTrace {
  t_name : string;
  t_points : list Cluster;
  t_size : MarkerSize;
  t_sizeref : Q
}.

(** One row of [dff_momentum]. *)
Record MomentumRow := mkMomentumRow {
  m_day : Z;
  m_sum : Q;
  m_count : nat;
  m_momentum : Q;
  m_alt_momentum : option Q
}.

Inductive Figure :=
| EmptyFig
| MapFig (traces : list Trace)
| MomentumFig (rows : list MomentumRow) (trendline : option (list (Z * Q)))
| DailyFig (counts : list (Z * nat))
| CumulativeFig (totals : list (Z * nat))
| ParticipantsFig (sums : list (Z * Q)).

(** The ten outputs of the callback, in the order of its [Output] list. *)
Record Outputs := mkOutputs {
  fig_map : Figure;
  fig_momentum : Figure;
  fig_daily : Figure;
  kpis : list (string * string);
  filtered_data : list LRow;
  fig_cumulative : Figure;
  fig_daily_participants : Figure;
  no_data_message : option string;
  largest_event_kpi : list string;
  largest_day_kpi : list string
}.

Section Metrics.

Variable dff : list LRow.

Definition sizes : list (option Q) := map (fun r : LRow => size_mean r) dff.

(** [len(dff)] *)
Definition total_events : nat := List.length dff.

Definition total_participants : Q := series_sum sizes.

(** [dff.groupby('date')['size_mean'].sum()]: one sum per distinct
    non-null date, in date order. *)
Definition daily_size_sums : list (Z * Q) :=
  let xs := dated (map (fun r : LRow => (date r, size_mean r)) dff) in
  map (fun d => (d, series_sum (on_day d xs)))
      (group_keys Z.compare (map fst xs)).

(** [.max()] of it: NaN when there is no group. *)
Definition peak_day : option Q :=
  series_max (map (fun p => Some (snd p)) daily_size_sums).

(** [bool(x)] of a float: false only for zero; a NaN is true. *)
Definition float_truthy (x : option Q) : bool :=
  match x with
  | None => true
  | Some q => negb (Qeq_bool q 0)
  end.

(** Line 676. *)
Definition percent_us_pop : option Q :=
  if float_truthy peak_day
  then option_map (fun p => (p / US_POPULATION) * 100)%Q peak_day
  else Some 0%Q.

(** Line 677. *)
Definition mean_size : option Q := series_mean sizes.

(** Lines 678-680. *)
Definition percent_no_size : Q :=
  if (0 <? total_events)%nat
  then (100 * inject_Z (Z.of_nat (List.length (filter isna sizes)))
        / inject_Z (Z.of_nat total_events))%Q
  else 0%Q.

(** Lines 683-684. *)
Definition largest_event : option Q :=
  if negb (all_null sizes) then series_max sizes else Some 0%Q.

Definition largest_day : option Q :=
  if negb (all_null sizes) then peak_day else Some 0%Q.

(** Lines 687-776: the four cards, each a text and its caption. *)
Definition kpi_cards : list (string * string) :=
  [ (Py.format_int_commas (N.of_nat total_events), "Total Events");
    (Py.format_fixed false 4 percent_us_pop ++ "%",
     "Largest Daily Participant Count as % of US population:");
    (Py.format_fixed false 1 (Some percent_no_size) ++ "%",
     "Events Missing Size");
    (Py.format_fixed true 0 mean_size, "Average Participant Count") ].

End Metrics.

Section Figures.

Variable dff : list LRow.

(** Line 779 (the columns exist: [filter_data] adds any that is missing). *)
Definition no_location_data : bool :=
  all_null (map (fun r : LRow => lat r) dff)
  || all_null (map (fun r : LRow => lon r) dff).

Definition NO_LOCATION_MESSAGE : string :=
  "No events with valid location data for the selected filters.".

(** Line 805. *)
Definition sizeref (max_size : option Q) : Q :=
  match max_size with
  | Some m => if Qlt_le_dec 0 m then (2 * m / (50 * 50))%Q else 1%Q
  | None => 1%Q
  end.

(** Lines 795-838, with the clusters computed afresh and the marker
    sizes accepted by the plotting library; [map_figure_of] below gives the
    figure of any aggregated frame and the case in which the trace is
    refused. *)
Definition map_figure : Figure :=
  let agg_map := aggregate_events_for_map dff in
  let has_size := filter (fun c => notna (c_size_mean c)) agg_map in
  let no_size := filter (fun c => isna (c_size_mean c)) agg_map in
  MapFig
    ((match has_size with
      | [] => []
      | _ =>
          let max_size := series_max (map c_size_mean has_size) in
          [mkTrace "Has Size" has_size
                   (PerPoint (map c_size_mean has_size)) (sizeref max_size)]
      end)
     ++
     (match no_size with
      | [] => []
      | _ => [mkTrace "Missing Size" no_size (Fixed 12%Q) 1%Q]
      end)).

(** Lines 858-863. [dropna()] keeps the rows whose date and
    [participants_numeric] are both present. *)
Definition dff_momentum : list MomentumRow :=
  let kept :=
    filter (fun p : option Dates.Date * option Q => notna (fst p) && notna (snd p))
           (map (fun r : LRow => (date r, participants_numeric r)) dff) in
  let buckets := resample kept in
  let sums := map (fun b => series_sum (snd b)) buckets in
  map (fun bx : (Z * list (option Q)) * option Q =>
         let '((d, vs), alt) := bx in
         mkMomentumRow d (series_sum vs) (series_count vs)
           (series_sum vs * inject_Z (Z.of_nat (series_count vs)))%Q alt)
      (combine buckets (rolling_sum 7 sums)).

(** Lines 879-894. The momentum column holds no NaN, so
    [dropna(subset=['momentum'])] keeps every row. *)
Definition trendline : option (list (Z * Q)) :=
  if (1 <? List.length dff_momentum)%nat then
    let trend_df := dff_momentum in
    if (1 <? List.length trend_df)%nat then
      let pts := map (fun m => (inject_Z (m_day m), m_momentum m)) trend_df in
      let '(a, b) := polyfit1 pts in
      Some (map (fun m => (m_day m, (a * inject_Z (m_day m) + b)%Q)) trend_df)
    else None
  else None.

Definition momentum_figure : Figure := MomentumFig dff_momentum trendline.

(** [dff.set_index('date').resample('D').size()] *)
Definition daily_counts : list (Z * nat) :=
  map (fun b : Z * list unit => (fst b, List.length (snd b)))
      (resample (map (fun r : LRow => (date r, tt)) dff)).

(** Lines 930-934. *)
Definition cumulative_counts : list (Z * nat) :=
  combine (map fst daily_counts) (cumsum 0 (map snd daily_counts)).

(** Line 946. *)
Definition daily_participants : list (Z * Q) :=
  map (fun b : Z * list (option Q) => (fst b, series_sum (snd b)))
      (resample (map (fun r : LRow => (date r, size_mean r)) dff)).

(** Lines 902-958: the three date-bucketed figures.  The [date] column is
    datetime-typed by the load, so the dtype test of line 905 passes. *)
Definition daily_figure : Figure :=
  if all_null (map (fun r : LRow => date r) dff) then EmptyFig
  else match daily_counts with [] => EmptyFig | cs => DailyFig cs end.

Definition cumulative_figure : Figure :=
  if all_null (map (fun r : LRow => date r) dff) then EmptyFig
  else match cumulative_counts with [] => EmptyFig | cs => CumulativeFig cs end.

Definition daily_participants_figure : Figure :=
  if all_null (map (fun r : LRow => date r) dff) then EmptyFig
  else match daily_participants with
       | [] => EmptyFig
       | ps => ParticipantsFig ps
       end.

(** The body of [update_all] after the call of [filter_data].  The stored
    frame (the fifth output) is given by its rows; its restriction to
    [store_cols] keeps [location_label]. *)
Definition update_all_body : Outputs :=
  if no_location_data then
    mkOutputs EmptyFig EmptyFig EmptyFig (kpi_cards dff) dff
              EmptyFig EmptyFig (Some NO_LOCATION_MESSAGE) [] []
  else
    mkOutputs map_figure momentum_figure daily_figure (kpi_cards dff) dff
              cumulative_figure daily_participants_figure None
              [Py.format_fixed true 0 (largest_event dff); "Largest Event"]
              [Py.format_fixed true 0 (largest_day dff); "Largest Day"].

End Figures.

Definition update_all (float_repr : Q -> string) (df : list Row) (sp : Spec)
  : Outputs :=
  update_all_body (filter_data float_repr df sp).

(* ================================================================== *)
(** * [show_event_details]: the rows behind a clicked marker *)
(* ================================================================== *)

Inductive Details :=
| NoDetails (message : string)
| EventDetails (events : list LRow).

(** Lines 1033-1045: the stored rows are matched against the marker's text
    (or hover text) on their [location_label].  The rows are those of the
    frame as parsed back from the store with its labels still text;
    [show_event_details_stored] below adds the type inference of the
    parser. *)
Definition show_event_details (stored : list LRow) (point : Cluster) : Details :=
  let label := if Py.truthy (c_text point) then c_text point else c_hover point in
  if negb (Py.truthy label) then
    NoDetails "No details available for this location."
  else
    match filter (fun r => String.eqb (location_label r) label) stored with
    | [] => NoDetails "No event details found for this marker."
    | events => EventDetails events
    end.

(* ================================================================== *)
(** * [download_csv]: the columns of the export *)
(* ================================================================== *)

Module Columns.

Definition has (c : string) (cols : list string) : bool :=
  existsb (String.eqb c) cols.

(** [frame[c] = ...]: an existing column is overwritten in place, a new
    one is appended. *)
Definition assign (c : string) (cols : list string) : list string :=
  if has c cols then cols else cols ++ [c].

(** [frame.drop(columns=[c])] *)
Definition drop (c : string) (cols : list string) : list string :=
  filter (fun x => negb (String.eqb x c)) cols.

(** The columns of [df] after lines 18-36, from the header of the CSV
    file: every assignment there overwrites a column it has just read,
    except [participants_numeric], which is new. *)
Definition df_columns (csv : list string) : list string :=
  assign "participants_numeric" csv.

Definition required_cols : list string :=
  ["lat"; "lon"; "date"; "size_mean"; "participants_numeric"; "title";
   "organizations"].

(** The columns of the frame [filter_data] returns (lines 558-576). *)
Definition filter_data_columns (csv : list string) : list string :=
  assign "location_label"
         (fold_left (fun cols c => assign c cols) required_cols (df_columns csv)).

(** [download_csv] (lines 1115-1130): the columns written to the file, or
    [None] for [no_update]. *)
Definition download_csv (n_clicks : nat) (choice : string) (csv : list string)
  : option (list string) :=
  match n_clicks with
  | O => None
  | _ =>
      let export_df :=
        if String.eqb choice "full" then df_columns csv
        else filter_data_columns csv in
      Some (if has "fallback" export_df then drop "fallback" export_df
            else export_df)
  end.

End Columns.

(* ================================================================== *)
(** * The notions the specification uses *)
(* ================================================================== *)

(** The events of a calendar day: the rows dated that day. *)
Definition events_on (dff : list LRow) (d : Z) : list LRow :=
  filter (fun r : LRow =>
            match date r with
            | Some x => Dates.toordinal x =? d
            | None => false
            end) dff.

(** Momentum in the specification's words: the sum of [size_mean] over the
    events of the day times the number of events of the day. *)
Definition spec_momentum (dff : list LRow) (d : Z) : Q :=
  (series_sum (map (fun r : LRow => size_mean r) (events_on dff d))
   * inject_Z (Z.of_nat (List.length (events_on dff d))))%Q.

(** The events of a day that carry a size. *)
Definition sized_events_on (dff : list LRow) (d : Z) : list LRow :=
  filter (fun r : LRow => notna (size_mean r)) (events_on dff d).

(** The ordinals of the rows that have both a date and a size. *)
Definition sized_days (dff : list LRow) : list Z :=
  map fst (dated (filter (fun p : option Dates.Date * option Q =>
                            notna (fst p) && notna (snd p))
                         (map (fun r : LRow => (date r, size_mean r)) dff))).

(** A text usable as a place name: not blank and not the null marker once
    trimmed. *)
Definition named (c : cell) : bool :=
  Py.truthy (Py.strip (py_str c))
  && negb (String.eqb (Py.lower (Py.strip (py_str c))) "nan").

(** A row with its coordinates erased. *)
Definition without_coords (r : LRow) : LRow :=
  mkLRow
    (mkRow (title r) (date r) (state r) (organizations r) (location r)
           (locality r) None None (size_mean r) (participant_injuries r)
           (police_injuries r) (arrests r) (participant_deaths r)
           (police_deaths r) (property_damage r))
    (location_label r).

(** A filter specification with the date bounds, or the outcome flags,
    cleared. *)
Definition without_dates (sp : Spec) : Spec :=
  mkSpec None None (size_filter sp) (org_search sp) (state_filter sp)
         (any_outcomes_filter sp).

Definition without_outcomes (sp : Spec) : Spec :=
  mkSpec (start_date sp) (end_date sp) (size_filter sp) (org_search sp)
         (state_filter sp) [].

Section OutcomeSpec.

Variable float_repr : Q -> string.

(** Present, not the placeholder, and strictly positive. *)
Definition numeric_outcome (x : option Q) : Prop :=
  exists q, x = Some q
            /\ Py.lower (astype_str float_repr x) <> "unspecified"
            /\ (0 < q)%Q.

Definition nonblank_text (c : cell) : Prop :=
  exists s, c = Str s /\ Py.strip s <> "".

(** The constraint a selected outcome flag puts on a row. *)
Definition outcome_spec (o : string) (r : Row) : Prop :=
  (o = "arrests_any" -> numeric_outcome (arrests r))
  /\ (o = "participant_injuries_any" -> numeric_outcome (participant_injuries r))
  /\ (o = "police_injuries_any" -> numeric_outcome (police_injuries r))
  /\ (o = "property_damage_any" -> nonblank_text (property_damage r))
  /\ (o = "participant_deaths_any" -> numeric_outcome (participant_deaths r))
  /\ (o = "police_deaths_any" -> numeric_outcome (police_deaths r)).

End OutcomeSpec.

(** The date condition of the specification: [start <= date <= end]. *)
Definition in_range (s e : Dates.Date) (r : Row) : Prop :=
  exists d, date r = Some d
            /\ Dates.toordinal s <= Dates.toordinal d <= Dates.toordinal e.

(* ================================================================== *)
(** * [jitter_coords] *)
(* ================================================================== *)

Definition set_coords (r : Row) (la lo : option Q) : Row :=
  mkRow (title r) (date r) (state r) (organizations r) (location r)
        (locality r) la lo (size_mean r) (participant_injuries r)
        (police_injuries r) (arrests r) (participant_deaths r)
        (police_deaths r) (property_damage r).

Definition coord_eqb (a b : option Q) : bool :=
  match a, b with
  | Some x, Some y => Qeq_bool x y
  | None, None => true
  | _, _ => false
  end.

(** Line 490: two rows have the same key [str(lat) + '_' + str(lon)] when
    their latitudes print alike and their longitudes print alike; every NaN
    prints as [nan]. *)
Definition same_coords (a b : Row) : bool :=
  coord_eqb (lat a) (lat b) && coord_eqb (lon a) (lon b).

(** Lines 500-501: [+=] on both coordinates; a NaN stays a NaN. *)
Definition shift (d : Q * Q) (r : Row) : Row :=
  set_coords r (option_map (fun x => x + fst d)%Q (lat r))
               (option_map (fun y => y + snd d)%Q (lon r)).

(** Lines 493-501 in frame order.  [draw i] is the displacement
    [(cos(angle) * radius, sin(angle) * radius)] of the two random numbers
    drawn for row [i]; [seen] holds the rows before row [i], with the
    coordinates they had on entry.  A row is moved when an earlier row has
    its key: it is then not the first index of a key that occurs more than
    once. *)
Fixpoint jitter_rows (draw : nat -> Q * Q) (seen : list Row) (i : nat)
  (rows : list Row) : list Row :=
  match rows with
  | [] => []
  | r :: rest =>
      (if existsb (same_coords r) seen then shift (draw i) r else r)
      :: jitter_rows draw (seen ++ [r]) (S i) rest
  end.

(** [jitter_coords(df)] with the default column names. *)
Definition jitter_coords (draw : nat -> Q * Q) (df : list Row) : list Row :=
  jitter_rows draw [] 0 df.

(* ================================================================== *)
(** * The loops of [jitter_coords] *)
(* ================================================================== *)

(** Line 490: the key of a row, [str(lat) + '_' + str(lon)], kept as the pair
    of its coordinates; [coords_eqb] tells whether two keys are the same
    text. *)
Definition coord_key (r : Row) : option Q * option Q := (lat r, lon r).

Definition coords_eqb (a b : option Q * option Q) : bool :=
  coord_eqb (fst a) (fst b) && coord_eqb (snd a) (snd b).

(** The number of rows that carry the key [k]. *)
Definition count_key (k : option Q * option Q) (coords : list (option Q * option Q))
  : nat :=
  List.length (filter (coords_eqb k) coords).

(** The distinct keys of a column, in order of first appearance. *)
Fixpoint distinct_keys (coords : list (option Q * option Q))
  : list (option Q * option Q) :=
  match coords with
  | [] => []
  | k :: rest => k :: filter (fun k' => negb (coords_eqb k k')) (distinct_keys rest)
  end.

Fixpoint insert_count (x : (option Q * option Q) * nat)
  (l : list ((option Q * option Q) * nat)) : list ((option Q * option Q) * nat) :=
  match l with
  | [] => [x]
  | y :: l' => if (snd x <? snd y)%nat then y :: insert_count x l' else x :: l
  end.

(** Line 491, [coords.value_counts()]: each distinct key with its count, the
    most frequent first; keys of equal count are listed here in order of
    first appearance. *)
Definition value_counts (coords : list (option Q * option Q))
  : list ((option Q * option Q) * nat) :=
  fold_right insert_count []
    (map (fun k => (k, count_key k coords)) (distinct_keys coords)).

(** Line 492, [counts[counts > 1].index]. *)
Definition dup_coords (coords : list (option Q * option Q))
  : list (option Q * option Q) :=
  map fst (filter (fun kc => (1 <? snd kc)%nat) (value_counts coords)).

(** Line 494, [df.index[coords == coord].tolist()]: the positions of the rows
    with the key [coord], in increasing order. *)
Definition idxs_of (coords : list (option Q * option Q)) (coord : option Q * option Q)
  : list nat :=
  filter (fun i => match nth_error coords i with
                   | Some k => coords_eqb k coord
                   | None => false
                   end)
         (seq 0 (List.length coords)).

(** [df.at[i, col] = ...] on an index label of the frame: the row at
    position [i] is replaced.  The loops only use labels taken from
    [df.index], so a position outside the frame does not occur; the frame is
    then returned as it is. *)
Fixpoint update_at (i : nat) (f : Row -> Row) (df : list Row) : list Row :=
  match df, i with
  | [], _ => []
  | r :: rest, O => f r :: rest
  | r :: rest, S j => r :: update_at j f rest
  end.

(** Lines 498-501: one pass of the inner loop past the [continue].  The
    state is the frame and the number of displacements drawn so far;
    [stream k] is the displacement [(cos(angle) * radius, sin(angle) *
    radius)] of the [k]-th pair of calls to [random.uniform]. *)
Definition jitter_one (stream : nat -> Q * Q) (st : list Row * nat) (i : nat)
  : list Row * nat :=
  (update_at i (shift (stream (snd st))) (fst st), S (snd st)).

(** Lines 495-501: [for offset, i in enumerate(idxs)], the first offset
    skipped. *)
Definition jitter_group (stream : nat -> Q * Q) (st : list Row * nat)
  (idxs : list nat) : list Row * nat :=
  fold_left (fun st (oi : nat * nat) =>
               if (fst oi =? 0)%nat then st else jitter_one stream st (snd oi))
            (combine (seq 0 (List.length idxs)) idxs) st.

(** Lines 493-501: [for coord in dup_coords].  The keys [coords] are those
    computed on line 490, before any row is moved. *)
Definition jitter_loops (stream : nat -> Q * Q)
  (coords dups : list (option Q * option Q)) (df : list Row) : list Row * nat :=
  fold_left (fun st coord => jitter_group stream st (idxs_of coords coord))
            dups (df, 0%nat).

(** Lines 484-502, [jitter_coords(df)] as the source writes it. *)
Definition jitter_coords_loops (stream : nat -> Q * Q) (df : list Row) : list Row :=
  let coords := map coord_key df in
  fst (jitter_loops stream coords (dup_coords coords) df).

(** The positions the loops move, in the order in which they move them. *)
Definition visits (coords dups : list (option Q * option Q)) : list nat :=
  flat_map (fun coord => tl (idxs_of coords coord)) dups.

(** The place of position [i] in a list of visits. *)
Fixpoint turn (visited : list nat) (i : nat) : nat :=
  match visited with
  | [] => 0%nat
  | v :: rest => if (v =? i)%nat then 0%nat else S (turn rest i)
  end.

(** The number of displacements drawn before the one of row [i]. *)
Definition jitter_turn (df : list Row) (i : nat) : nat :=
  turn (visits (map coord_key df) (dup_coords (map coord_key df))) i.

(** [cs] lists every key that occurs more than once, each of them once. *)
Definition lists_duplicated_keys (coords cs : list (option Q * option Q)) : Prop :=
  ForallOrdPairs (fun a b => coords_eqb a b = false) cs
  /\ (forall c, In c cs -> (1 < count_key c coords)%nat)
  /\ (forall k, In k coords -> (1 < count_key k coords)%nat ->
                exists c, In c cs /\ coords_eqb k c = true).

(* ================================================================== *)
(** * Filter specifications derived from one another *)
(* ================================================================== *)

Definition with_size_filter (v : string) (sp : Spec) : Spec :=
  mkSpec (start_date sp) (end_date sp) v (org_search sp) (state_filter sp)
         (any_outcomes_filter sp).

Definition with_outcomes (os : list string) (sp : Spec) : Spec :=
  mkSpec (start_date sp) (end_date sp) (size_filter sp) (org_search sp)
         (state_filter sp) os.

Definition with_dates (s e : option Dates.Date) (sp : Spec) : Spec :=
  mkSpec s e (size_filter sp) (org_search sp) (state_filter sp)
         (any_outcomes_filter sp).

Definition with_org_search (o : option string) (sp : Spec) : Spec :=
  mkSpec (start_date sp) (end_date sp) (size_filter sp) o (state_filter sp)
         (any_outcomes_filter sp).

Definition with_states (sel : list string) (sp : Spec) : Spec :=
  mkSpec (start_date sp) (end_date sp) (size_filter sp) (org_search sp) sel
         (any_outcomes_filter sp).

(** The six values the loop of lines 540-552 recognises. *)
Definition known_outcomes : list string :=
  ["arrests_any"; "participant_injuries_any"; "police_injuries_any";
   "property_damage_any"; "participant_deaths_any"; "police_deaths_any"].

(** A specification none of whose fields constrains a row. *)
Definition unconstrained (sp : Spec) : Prop :=
  (start_date sp = None \/ end_date sp = None)
  /\ size_filter sp <> "has" /\ size_filter sp <> "no"
  /\ match org_search sp with
     | None => True
     | Some s => org_terms s = []
     end
  /\ state_filter sp = []
  /\ forall o, In o (any_outcomes_filter sp) -> ~ In o known_outcomes.

(** The label [filter_data] attaches to a row. *)
Definition labelled (r : Row) : LRow := mkLRow r (best_location_filter r).

(** [s] occurs in [o]. *)
Definition occurs_in (t o : string) : Prop :=
  exists pre post, o = pre ++ t ++ post.

(** The rows of a frame that have a date. *)
Definition dated_rows (dff : list LRow) : list LRow :=
  filter (fun r : LRow => notna (date r)) dff.

(** The ordinals of the dated rows, in frame order. *)
Definition event_days (dff : list LRow) : list Z :=
  map fst (dated (map (fun r : LRow => (date r, tt)) dff)).

(** The span of a list of days: its earliest and latest day. *)
Definition day_span (days : list Z) : list Z :=
  match days with
  | [] => []
  | d :: ds => day_range (fold_left Z.min ds d) (fold_left Z.max ds d)
  end.

(* ================================================================== *)
(** * The decorator [@cache.memoize(timeout=120)] of line 581 *)
(* ================================================================== *)

Section Memoize.

(** The key under which a call is cached is derived from the printed form
    of its argument; [frame_key] is that key as a function of the frame, and
    [key_eqb] compares two keys.  A frame is printed in abridged form, so
    that different frames can have one key. *)
Context {K : Type}.
Variable frame_key : list LRow -> K.
Variable key_eqb : K -> K -> bool.

(** An entry of the cache: the clusters returned for a key, served until
    [e_expires] (seconds). *)
Record Entry := mkEntry {
  e_key : K;
  e_expires : Z;
  e_value : list Cluster
}.

Definition CACHE_TIMEOUT : Z := 120.

(** [cache.get(key)] at time [now]: the value of the entry under the key
    while it has not expired. *)
Definition cache_get (c : list Entry) (now : Z) (k : K) : option (list Cluster) :=
  match find (fun e => key_eqb (e_key e) k) c with
  | Some e => if now <=? e_expires e then Some (e_value e) else None
  | None => None
  end.

(** [cache.set(key, value, timeout=120)] at time [now]. *)
Definition cache_set (c : list Entry) (now : Z) (k : K) (v : list Cluster)
  : list Entry :=
  mkEntry k (now + CACHE_TIMEOUT) v
  :: filter (fun e => negb (key_eqb (e_key e) k)) c.

(** [aggregate_events_for_map] as decorated: the cached clusters on a hit,
    the body's clusters (then cached) otherwise. *)
Definition aggregate_events_for_map_memoized (c : list Entry) (now : Z)
  (dff : list LRow) : list Cluster * list Entry :=
  match cache_get c now (frame_key dff) with
  | Some v => (v, c)
  | None =>
      let v := aggregate_events_for_map dff in
      (v, cache_set c now (frame_key dff) v)
  end.

(** Every entry holds the body's clusters of some frame with the entry's
    key. *)
Definition coherent (c : list Entry) : Prop :=
  Forall (fun e => exists dff, key_eqb (e_key e) (frame_key dff) = true
                               /\ e_value e = aggregate_events_for_map dff) c.

End Memoize.

(* ================================================================== *)
(** * The map figure of an aggregated frame *)
(* ================================================================== *)

(** Lines 797-838: the traces drawn for an aggregated frame. *)
Definition map_traces (agg_map : list Cluster) : list Trace :=
  let has_size := filter (fun c => notna (c_size_mean c)) agg_map in
  let no_size := filter (fun c => isna (c_size_mean c)) agg_map in
  (match has_size with
   | [] => []
   | _ =>
       let max_size := series_max (map c_size_mean has_size) in
       [mkTrace "Has Size" has_size
                (PerPoint (map c_size_mean has_size)) (sizeref max_size)]
   end)
  ++
  (match no_size with
   | [] => []
   | _ => [mkTrace "Missing Size" no_size (Fixed 12%Q) 1%Q]
   end).

(** A marker size below zero, which [go.Scattermapbox] refuses with a
    [ValueError]. *)
Definition negative_size (c : Cluster) : bool :=
  match c_size_mean c with
  | Some m => if Qlt_le_dec m 0 then true else false
  | None => false
  end.

(** Lines 797-856 on the aggregated frame [agg_map]: the figure, or [None]
    when the trace of lines 806-820 is refused. *)
Definition map_figure_of (agg_map : list Cluster) : option Figure :=
  if existsb negative_size agg_map then None
  else Some (MapFig (map_traces agg_map)).

Section Callback.

Context {K : Type}.
Variable frame_key : list LRow -> K.
Variable key_eqb : K -> K -> bool.

(** The body of [update_all] after the call of [filter_data], with the
    decorated aggregator and the cache it reads and writes: the outputs, or
    [None] when building the map figure raises, and the cache left
    behind. *)
Definition update_all_memoized (c : list (@Entry K)) (now : Z) (dff : list LRow)
  : option Outputs * list (@Entry K) :=
  if no_location_data dff then
    (Some (mkOutputs EmptyFig EmptyFig EmptyFig (kpi_cards dff) dff
                     EmptyFig EmptyFig (Some NO_LOCATION_MESSAGE) [] []), c)
  else
    let '(agg_map, c') :=
      aggregate_events_for_map_memoized frame_key key_eqb c now dff in
    match map_figure_of agg_map with
    | None => (None, c')
    | Some fig =>
        (Some (mkOutputs fig (momentum_figure dff) (daily_figure dff)
                         (kpi_cards dff) dff
                         (cumulative_figure dff) (daily_participants_figure dff)
                         None
                         [Py.format_fixed true 0 (largest_event dff); "Largest Event"]
                         [Py.format_fixed true 0 (largest_day dff); "Largest Day"]),
         c')
    end.

End Callback.

(* ================================================================== *)
(** * [show_event_details] on the stored frame *)
(* ================================================================== *)

Section Stored.

(** Whether the parser of [pd.read_json] can read a text as a number.  A
    column all of whose values it can read so comes back numeric. *)
Variable looks_numeric : string -> bool.

(** The [location_label] column after lines 1001 and 1032 is numeric when
    the frame has a row and every label reads as a number. *)
Definition labels_read_as_numbers (stored : list LRow) : bool :=
  match stored with
  | [] => false
  | _ => forallb (fun r => looks_numeric (location_label r)) stored
  end.

(** Lines 1032-1045 on the frame written by [update_all]: a numeric label
    column equals no marker text, so that line 1042 selects no row. *)
Definition show_event_details_stored (stored : list LRow) (point : Cluster)
  : Details :=
  if labels_read_as_numbers stored then show_event_details [] point
  else show_event_details stored point.

End Stored.

(* ================================================================== *)
(** * The printed form of a frame *)
(* ================================================================== *)

(** What the printed form of a frame of more than 60 rows shows of its
    rows: the first five, the last five, and the number of rows.  Shorter
    frames are printed row by row. *)
Definition shown_rows (dff : list LRow) : list LRow :=
  if (60 <? List.length dff)%nat
  then (firstn 5 dff ++ skipn (List.length dff - 5) dff)%list
  else dff.

Definition LRow_eq_dec (a b : LRow) : {a = b} + {a <> b}.
Proof.
  repeat decide equality.
Defined.

(** The part of the key that the rows of a frame decide.  Two frames
    filtered from one dataset have its columns and keep its index labels:
    when their shown rows are the same rows of the dataset and they have the
    same number of rows, they are printed alike. *)
Definition printed_key (dff : list LRow) : list LRow * nat :=
  (shown_rows dff, List.length dff).

Definition printed_key_eqb (a b : list LRow * nat) : bool :=
  (if list_eq_dec LRow_eq_dec (fst a) (fst b) then true else false)
  && (snd a =? snd b)%nat.

(* ================================================================== *)
(** * The events of a week *)
(* ================================================================== *)

(** The dated events that have a size, as (day, size), in frame order. *)
Fixpoint sized_events (dff : list LRow) : list (Z * Q) :=
  match dff with
  | [] => []
  | r :: rest =>
      match date r, size_mean r with
      | Some d, Some q => (Dates.toordinal d, q) :: sized_events rest
      | _, _ => sized_events rest
      end
  end.

(** The total size of the events dated from day [lo] to day [hi]. *)
Definition window_total (dff : list LRow) (lo hi : Z) : Q :=
  Qsum (map snd (filter (fun p : Z * Q => (lo <=? fst p) && (fst p <=? hi))
                        (sized_events dff))).

(** The first day of the momentum series. *)
Definition first_sized_day (dff : list LRow) : Z :=
  match sized_days dff with
  | [] => 0
  | d :: ds => fold_left Z.min ds d
  end.

(* ================================================================== *)
(** * Concrete rows and frames *)
(* ================================================================== *)

Module Sample.

Definition jan1 : Dates.Date := Dates.mkDate 2025 1 1.
Definition jan3 : Dates.Date := Dates.mkDate 2025 1 3.

(** A float printed with one decimal, as [str] prints a whole number. *)
Definition repr1 (q : Q) : string := Py.format_fixed false 1 (Some q).

Definition rally : Row :=
  mkRow (Str "Rally") (Some jan1) (Str "CA") (Str "resist now")
        (Some (Str "City Hall")) (Some NaN) (Some (34 # 1)) (Some (-118 # 1))
        (Some (100 # 1)) None None None None None NaN.

Definition march : Row :=
  mkRow (Str "March") (Some jan3) (Str "NY") (Str "other group")
        (Some NaN) (Some NaN) (Some (40 # 1)) (Some (-74 # 1))
        (Some (200 # 1)) None None (Some (2 # 1)) None None (Str "windows").

(** Same day and place as [rally], no size estimate. *)
Definition sit_in : Row :=
  mkRow (Str "Sit-in") (Some jan1) (Str "CA") (Str "nan")
        (Some (Str "City Hall")) (Some NaN) (Some (34 # 1)) (Some (-118 # 1))
        None None None None None None NaN.

(** A dated, sized event that was never geocoded. *)
Definition vigil : Row :=
  mkRow (Str "Vigil") (Some jan1) (Str "TX") (Str "nan")
        (Some (Str "Main St")) (Some NaN) None None
        (Some (100 # 1)) None None None None None NaN.

(** Geocoded, but no place name and no date. *)
Definition undated : Row :=
  mkRow (Str "Walkout") None (Str "TX") (Str "nan")
        (Some NaN) (Some (Str " ")) (Some (31 # 1)) (Some (-97 # 1))
        None None None None None None NaN.

(** Half a coordinate each. *)
Definition lat_only : Row :=
  mkRow (Str "A") (Some jan1) (Str "OH") (Str "nan")
        (Some (Str "Dayton")) (Some NaN) (Some (39 # 1)) None
        None None None None None None NaN.

Definition lon_only : Row :=
  mkRow (Str "B") (Some jan1) (Str "OH") (Str "nan")
        (Some (Str "Akron")) (Some NaN) None (Some (-81 # 1))
        None None None None None None NaN.

Definition all_rows : Spec := mkSpec None None "all" None [] [].
Definition unknown_org : Spec :=
  mkSpec None None "all" (Some "no such organization") [] [].
Definition no_size_only : Spec := mkSpec None None "no" None [] [].
Definition with_arrests : Spec :=
  mkSpec (Some jan1) (Some jan3) "all" None [] ["arrests_any"].

Definition label (r : Row) : LRow := mkLRow r (best_location_filter r).

(** Two events on one day, one of them without a size estimate. *)
Definition same_day : list LRow := [label rally; label sit_in].

(** One event, dated and sized, without coordinates. *)
Definition not_geocoded : list LRow := [label vigil].

(** No row has both coordinates, yet both columns hold a value. *)
Definition half_coordinates : list LRow := [label lat_only; label lon_only].

Definition header : list string :=
  ["date"; "state"; "title"; "organizations"; "targets"; "size_mean";
   "lat"; "lon"; "location"; "locality"; "arrests"; "property_damage"].


(** No field of this specification constrains a row: one date bound only,
    an unknown size mode, a search of separators only, an unknown flag. *)
Definition lax : Spec :=
  mkSpec (Some jan3) None "everything" (Some " , ,") [] ["other_any"].

Definition both_flags : Spec :=
  mkSpec None None "all" None [] ["arrests_any"; "property_damage_any"].

Definition jan2 : Dates.Date := Dates.mkDate 2025 1 2.


(** A geocoded event in a third state. *)
Definition picket : Row :=
  mkRow (Str "Picket") (Some jan3) (Str "OR") (Str "nan")
        (Some (Str "Pioneer Square")) (Some NaN) (Some (45 # 1)) (Some (-122 # 1))
        (Some (50 # 1)) None None None None None NaN.

(** A dataset of 112 rows: five rallies, 51 vigils, 51 pickets, five
    rallies. *)
Definition long_dataset : list Row :=
  (repeat rally 5 ++ repeat vigil 51 ++ repeat picket 51 ++ repeat rally 5)%list.

Definition ca_tx : Spec := mkSpec None None "all" None ["CA"; "TX"] [].
Definition ca_or : Spec := mkSpec None None "all" None ["CA"; "OR"] [].

(** A location whose name is a number. *)
Definition route66 : Row :=
  mkRow (Str "Caravan") (Some jan1) (Str "AZ") (Str "nan")
        (Some (Str "66")) (Some NaN) (Some (35 # 1)) (Some (-112 # 1))
        None None None None None None NaN.

(** A cluster whose mean size is negative. *)
Definition miscoded : Row :=
  mkRow (Str "Miscoded") (Some jan1) (Str "CA") (Str "nan")
        (Some (Str "Pier 1")) (Some NaN) (Some (37 # 1)) (Some (-122 # 1))
        (Some (-5 # 1)) None None None None None NaN.

(** A second event at [rally]'s place, a week later. *)
Definition jan8 : Dates.Date := Dates.mkDate 2025 1 8.

Definition sequel : Row :=
  mkRow (Str "Sequel") (Some jan8) (Str "CA") (Str "nan")
        (Some (Str "City Hall")) (Some NaN) (Some (34 # 1)) (Some (-118 # 1))
        (Some (30 # 1)) None None None None None NaN.

(** A parser that reads a text of digits as a number. *)
Definition digits_only (s : string) : bool :=
  Py.truthy s
  && forallb (fun c => (48 <=? nat_of_ascii c)%nat && (nat_of_ascii c <=? 57)%nat)
             (list_ascii_of_string s).

End Sample.

(* ================================================================== *)
(** * The primitives on examples *)
(* ================================================================== *)

Example strip_ex : Py.strip "  City Hall " = "City Hall".
Proof. reflexivity. Qed.

Example split_ex : Py.split "," "a, b,,c" = ["a"; " b"; ""; "c"].
Proof. reflexivity. Qed.

Example format_ex1 : Py.format_fixed true 0 (Some (1234567 # 2)) = "617,284".
Proof. vm_compute. reflexivity. Qed.

Example format_ex2 : Py.format_fixed false 4 (Some (1 # 3)) = "0.3333".
Proof. vm_compute. reflexivity. Qed.

Example format_ex3 : Py.format_fixed false 1 None = "nan".
Proof. reflexivity. Qed.

Example ordinal_ex : Dates.toordinal (Dates.mkDate 2025 1 1) = 739252.
Proof. reflexivity. Qed.

Example iso_ex : Dates.isoformat (Dates.mkDate 2025 1 3) = "2025-01-03".
Proof. reflexivity. Qed.

(* ================================================================== *)
(** * Facts about lists and masks *)
(* ================================================================== *)

Lemma filter_andb {A} (f g : A -> bool) (l : list A) :
  filter (fun x => f x && g x) l = filter f (filter g l).
Proof.
  induction l as [|x l IH]; simpl; [reflexivity|].
  destruct (g x); simpl.
  - rewrite andb_true_r. destruct (f x); now rewrite IH.
  - now rewrite andb_false_r.
Qed.

Lemma filter_true {A} (f : A -> bool) (l : list A) :
  (forall x, f x = true) -> filter f l = l.
Proof.
  intros H. induction l as [|x l IH]; simpl; [reflexivity|].
  now rewrite H, IH.
Qed.

Lemma fold_left_andb {A} (f : A -> bool) (l : list A) (b : bool) :
  fold_left (fun m o => m && f o) l b = b && forallb f l.
Proof.
  revert b. induction l as [|x l IH]; intros b; simpl.
  - now rewrite andb_true_r.
  - rewrite IH. now rewrite andb_assoc.
Qed.

Lemma outcomes_mask_forallb fr sp r :
  outcomes_mask fr sp r
  = forallb (fun o => outcome_ok fr o r) (any_outcomes_filter sp).
Proof. unfold outcomes_mask. now rewrite fold_left_andb. Qed.

(** The frame [filter_data] returns, with one mask pulled out of the
    conjunction. *)
Lemma filter_data_split fr df sp (m : Spec -> Row -> bool) sp' :
  (forall r, mask fr sp r = m sp r && mask fr sp' r) ->
  filter_data fr df sp
  = filter (fun lr : LRow => m sp lr) (filter_data fr df sp').
Proof.
  intros H. unfold filter_data.
  rewrite filter_map_swap. simpl. f_equal.
  rewrite <- filter_andb. apply filter_ext. exact H.
Qed.

(* ================================================================== *)
(** * The date range *)
(* ================================================================== *)

Lemma date_mask_spec sp r :
  date_mask sp r = true
  <-> match start_date sp, end_date sp with
      | Some s, Some e => in_range s e r
      | _, _ => True
      end.
Proof.
  unfold date_mask, in_range, Dates.leb.
  destruct (start_date sp) as [s|], (end_date sp) as [e|];
    try (split; [intros _; exact I | reflexivity]).
  destruct (date r) as [d|].
  - rewrite andb_true_iff, !Z.leb_le. split.
    + intros H. exists d. split; [reflexivity | lia].
    + intros (d' & Hd & H). inversion Hd; subst. lia.
  - split; [discriminate | intros (d & Hd & _); discriminate].
Qed.

Lemma mask_without_dates fr sp r :
  mask fr sp r = date_mask sp r && mask fr (without_dates sp) r.
Proof.
  unfold mask. simpl.
  replace (size_mask (without_dates sp) r) with (size_mask sp r) by reflexivity.
  replace (org_mask (without_dates sp) r) with (org_mask sp r) by reflexivity.
  replace (state_mask (without_dates sp) r) with (state_mask sp r) by reflexivity.
  replace (outcomes_mask fr (without_dates sp) r) with (outcomes_mask fr sp r)
    by reflexivity.
  replace (date_mask (without_dates sp) r) with true by reflexivity.
  simpl. now rewrite <- !andb_assoc.
Qed.

(** C5. With both bounds given, the rows of [filter_data] are exactly those
    rows of the date-free filter whose date lies in [start, end] (a row
    passes the date mask iff it does); with a bound absent the date mask
    passes every row and the result is that of the date-free filter. *)
Theorem C5_date_range fr df sp :
  (forall r, date_mask sp r = true
             <-> match start_date sp, end_date sp with
                 | Some s, Some e => in_range s e r
                 | _, _ => True
                 end)
  /\ filter_data fr df sp
     = filter (fun lr : LRow => date_mask sp lr)
              (filter_data fr df (without_dates sp))
  /\ match start_date sp, end_date sp with
     | Some s, Some e =>
         forall lr, In lr (filter_data fr df sp)
                    <-> In lr (filter_data fr df (without_dates sp))
                        /\ in_range s e lr
     | _, _ => filter_data fr df sp = filter_data fr df (without_dates sp)
     end.
Proof.
  assert (Hsplit : filter_data fr df sp
                   = filter (fun lr : LRow => date_mask sp lr)
                            (filter_data fr df (without_dates sp))).
  { apply filter_data_split. apply mask_without_dates. }
  split; [apply date_mask_spec|]. split; [exact Hsplit|].
  pose proof (date_mask_spec sp) as Hm.
  destruct (start_date sp) as [s|] eqn:Es, (end_date sp) as [e|] eqn:Ee.
  - intros lr. rewrite Hsplit, filter_In. now rewrite Hm.
  - rewrite Hsplit. apply filter_true. intros lr. now apply Hm.
  - rewrite Hsplit. apply filter_true. intros lr. now apply Hm.
  - rewrite Hsplit. apply filter_true. intros lr. now apply Hm.
Qed.

Example date_range_single_bound :
  filter_data Sample.repr1 [Sample.rally; Sample.march]
              (mkSpec (Some Sample.jan3) None "all" None [] [])
  = [Sample.label Sample.rally; Sample.label Sample.march].
Proof. reflexivity. Qed.

Example date_range_both_bounds :
  filter_data Sample.repr1 [Sample.rally; Sample.march]
              (mkSpec (Some Sample.jan3) (Some Sample.jan3) "all" None [] [])
  = [Sample.label Sample.march].
Proof. reflexivity. Qed.

(* ================================================================== *)
(** * The outcome flags *)
(* ================================================================== *)

Lemma positive_spec x :
  positive x = true <-> match x with Some q => (0 < q)%Q | None => False end.
Proof.
  unfold positive. destruct x as [q|].
  - destruct (Qcompare q 0) eqn:E; split; intros H; try discriminate; auto.
    + apply Qeq_alt in E. rewrite E in H. exfalso. revert H. apply Qlt_irrefl.
    + apply Qlt_alt in E. exfalso. apply (Qlt_irrefl q).
      now apply Qlt_trans with 0%Q.
    + now apply Qgt_alt in E.
  - change (Qcompare 0 0) with Eq. split; [discriminate | tauto].
Qed.

Section OutcomeFacts.

Variable float_repr : Q -> string.

Lemma checked_numeric_spec x :
  notna x && not_unspecified float_repr x && positive x = true
  <-> numeric_outcome float_repr x.
Proof.
  unfold numeric_outcome, not_unspecified.
  rewrite !andb_true_iff, positive_spec, negb_true_iff, String.eqb_neq.
  destruct x as [q|]; simpl.
  - split.
    + intros [[_ Hp] Hq]. exists q. auto.
    + intros (q' & E & Hp & Hq). inversion E; subst. auto.
  - split; [tauto | intros (q & E & _); discriminate].
Qed.

Hypothesis float_repr_numeric :
  forall q, Py.lower (float_repr q) <> "unspecified".

Lemma unchecked_numeric_spec x :
  notna x && positive x = true <-> numeric_outcome float_repr x.
Proof.
  unfold numeric_outcome.
  rewrite andb_true_iff, positive_spec.
  destruct x as [q|]; simpl.
  - split.
    + intros [_ Hq]. exists q. auto.
    + intros (q' & E & _ & Hq). inversion E; subst. auto.
  - split; [tauto | intros (q & E & _); discriminate].
Qed.

Lemma property_damage_spec c :
  notnull c && negb (String.eqb (Py.strip (py_str c)) "") = true
  <-> nonblank_text c.
Proof.
  unfold nonblank_text.
  rewrite andb_true_iff, negb_true_iff, String.eqb_neq.
  destruct c as [|s]; simpl.
  - split; [intros [H _]; discriminate | intros (s & E & _); discriminate].
  - split.
    + intros [_ H]. exists s. auto.
    + intros (s' & E & H). inversion E; subst. auto.
Qed.

Lemma outcome_ok_spec o r :
  outcome_ok float_repr o r = true <-> outcome_spec float_repr o r.
Proof.
  unfold outcome_ok, outcome_spec.
  repeat match goal with
         | |- context [String.eqb o ?s] =>
             destruct (String.eqb_spec o s) as [->|]
         end;
    rewrite ?checked_numeric_spec, ?unchecked_numeric_spec,
      ?property_damage_spec;
    split; intros H;
    repeat split; try discriminate; try tauto; try (apply H; reflexivity).
Qed.

End OutcomeFacts.

Lemma mask_without_outcomes fr sp r :
  mask fr sp r = outcomes_mask fr sp r && mask fr (without_outcomes sp) r.
Proof.
  unfold mask.
  replace (date_mask (without_outcomes sp) r) with (date_mask sp r) by reflexivity.
  replace (size_mask (without_outcomes sp) r) with (size_mask sp r) by reflexivity.
  replace (org_mask (without_outcomes sp) r) with (org_mask sp r) by reflexivity.
  replace (state_mask (without_outcomes sp) r) with (state_mask sp r) by reflexivity.
  replace (outcomes_mask fr (without_outcomes sp) r) with true by reflexivity.
  rewrite andb_true_r. apply andb_comm.
Qed.

(** C4. A row passes a selected numeric outcome flag iff the field is
    present, is not the placeholder and is strictly positive; it passes the
    property-damage flag iff the text is present and non-blank; the selected
    flags are intersected: a row passes iff it passes every one of them, and
    [filter_data] keeps exactly the rows of the flag-free filter that do.
    [float_repr] is the printing of a number by [astype(str)], which never
    prints the placeholder. *)
Theorem C4_outcome_flags (float_repr : Q -> string)
  (float_repr_numeric : forall q, Py.lower (float_repr q) <> "unspecified")
  (df : list Row) (sp : Spec) :
  (forall o r, outcome_ok float_repr o r = true <-> outcome_spec float_repr o r)
  /\ (forall r, outcomes_mask float_repr sp r = true
                <-> forall o, In o (any_outcomes_filter sp) ->
                              outcome_spec float_repr o r)
  /\ filter_data float_repr df sp
     = filter (fun lr : LRow => outcomes_mask float_repr sp lr)
              (filter_data float_repr df (without_outcomes sp)).
Proof.
  split; [intros o r; now apply outcome_ok_spec|]. split.
  - intros r. rewrite outcomes_mask_forallb, forallb_forall.
    split; intros H o Ho.
    + apply outcome_ok_spec; auto.
    + apply outcome_ok_spec; auto.
  - apply filter_data_split. apply mask_without_outcomes.
Qed.

Lemma lower_str_nat_head (n : N) (rest : string) :
  Py.lower (Py.str_nat n ++ rest) <> "unspecified".
Proof.
  unfold Py.str_nat.
  destruct (N.to_uint n) as [|u|u|u|u|u|u|u|u|u|u]; simpl; discriminate.
Qed.

Lemma repr1_numeric (q : Q) : Py.lower (Sample.repr1 q) <> "unspecified".
Proof.
  unfold Sample.repr1, Py.format_fixed.
  destruct (Qlt_le_dec q 0).
  - simpl. discriminate.
  - cbn [append]. apply lower_str_nat_head.
Qed.

Lemma C4_outcome_flags_witness :
  (forall q, Py.lower (Sample.repr1 q) <> "unspecified")
  /\ (forall o r, outcome_ok Sample.repr1 o r = true
                  <-> outcome_spec Sample.repr1 o r)
  /\ (forall r, outcomes_mask Sample.repr1 Sample.with_arrests r = true
                <-> forall o, In o (any_outcomes_filter Sample.with_arrests) ->
                              outcome_spec Sample.repr1 o r)
  /\ filter_data Sample.repr1 [Sample.rally; Sample.march] Sample.with_arrests
     = filter (fun lr : LRow => outcomes_mask Sample.repr1 Sample.with_arrests lr)
              (filter_data Sample.repr1 [Sample.rally; Sample.march]
                           (without_outcomes Sample.with_arrests)).
Proof.
  split.
  - exact repr1_numeric.
  - exact (C4_outcome_flags Sample.repr1 repr1_numeric
             [Sample.rally; Sample.march] Sample.with_arrests).
Defined.

Example arrests_flag_keeps_positive_only :
  filter_data Sample.repr1 [Sample.rally; Sample.march] Sample.with_arrests
  = [Sample.label Sample.march].
Proof. vm_compute. reflexivity. Qed.

Example two_flags_intersect :
  filter_data Sample.repr1 [Sample.rally; Sample.march]
    (mkSpec None None "all" None [] ["arrests_any"; "police_deaths_any"])
  = [].
Proof. vm_compute. reflexivity. Qed.

Example property_damage_needs_text :
  filter_data Sample.repr1 [Sample.rally; Sample.march]
    (mkSpec None None "all" None [] ["property_damage_any"])
  = [Sample.label Sample.march].
Proof. vm_compute. reflexivity. Qed.

(* ================================================================== *)
(** * The two [best_location] helpers *)
(* ================================================================== *)

Lemma best_location_filter_eq r :
  best_location_filter r
  = if named (get (location r) (Str "")) then
      Py.strip (py_str (get (location r) (Str "")))
    else if named (get (locality r) (Str "")) then
      Py.strip (py_str (get (locality r) (Str "")))
    else py_str (state r) ++ ", "
         ++ match date r with Some d => Dates.isoformat d | None => "" end.
Proof. reflexivity. Qed.

Lemma best_location_map_eq r :
  best_location_map r
  = if named (get (location r) (Str "Unknown")) then
      Py.strip (py_str (get (location r) (Str "Unknown")))
    else if named (get (locality r) (Str "Unknown")) then
      Py.strip (py_str (get (locality r) (Str "Unknown")))
    else py_str (state r) ++ ", "
         ++ match date r with Some d => Dates.isoformat d | None => "Unknown" end.
Proof. reflexivity. Qed.

Lemma named_nonempty c : named c = true -> Py.strip (py_str c) <> "".
Proof.
  unfold named. destruct (Py.strip (py_str c)); [discriminate|].
  intros _. discriminate.
Qed.

Lemma append_comma_nonempty s t : s ++ ", " ++ t <> "".
Proof. destruct s; simpl; discriminate. Qed.

(** Line 599 never changes a label: [best_location] returns no empty
    string. *)
Lemma map_label_eq r : map_label r = best_location_map r.
Proof.
  unfold map_label.
  destruct (String.eqb_spec (best_location_map r) "") as [E|]; [|reflexivity].
  exfalso. rewrite best_location_map_eq in E.
  destruct (named (get (location r) (Str "Unknown"))) eqn:E1.
  - now apply named_nonempty in E1.
  - destruct (named (get (locality r) (Str "Unknown"))) eqn:E2.
    + now apply named_nonempty in E2.
    + now apply append_comma_nonempty in E.
Qed.

(** Both labels are functions of (location, locality, state, date) alone. *)
Lemma best_location_depends_on_four_fields r r' :
  location r = location r' -> locality r = locality r' ->
  state r = state r' -> date r = date r' ->
  best_location_filter r = best_location_filter r'
  /\ map_label r = map_label r'.
Proof.
  intros H1 H2 H3 H4.
  unfold map_label, best_location_map, best_location_filter.
  now rewrite H1, H2, H3, H4.
Qed.

(** Where the frame has both columns, the two helpers agree on every row
    that has a usable place name or a date. *)
Lemma labels_agree r loc loc2 :
  location r = Some loc -> locality r = Some loc2 ->
  named loc = true \/ named loc2 = true \/ date r <> None ->
  best_location_filter r = map_label r.
Proof.
  intros H1 H2 H.
  rewrite map_label_eq, best_location_filter_eq, best_location_map_eq.
  rewrite H1, H2. simpl.
  destruct (named loc); [reflexivity|].
  destruct (named loc2); [reflexivity|].
  destruct H as [H|[H|H]]; try discriminate.
  destruct (date r); [reflexivity | congruence].
Qed.

Lemma append_inj_l (s t u : string) : s ++ t = s ++ u -> t = u.
Proof. induction s; simpl; intros H; [exact H | inversion H; auto]. Qed.

(** On a row without a usable place name and without a date the two helpers
    return different labels. *)
Lemma labels_differ r loc loc2 :
  location r = Some loc -> locality r = Some loc2 ->
  named loc = false -> named loc2 = false -> date r = None ->
  best_location_filter r = py_str (state r) ++ ", "
  /\ map_label r = py_str (state r) ++ ", Unknown"
  /\ best_location_filter r <> map_label r.
Proof.
  intros H1 H2 N1 N2 Hd.
  rewrite map_label_eq, best_location_filter_eq, best_location_map_eq.
  rewrite H1, H2, Hd. simpl. rewrite N1, N2.
  repeat split. intros E. apply append_inj_l in E. discriminate.
Qed.

(** C3. The row [Sample.undated] (geocoded, blank location and locality, no
    date) is labelled [TX, ] by [filter_data] and [TX, Unknown] by
    [aggregate_events_for_map]; the marker drawn for it carries the second
    label, and [show_event_details] finds no stored row under it. *)
Theorem C3_labels_differ_without_date :
  let dff := filter_data Sample.repr1 [Sample.undated] Sample.all_rows in
  let out := update_all Sample.repr1 [Sample.undated] Sample.all_rows in
  map location_label dff = ["TX, "]
  /\ map c_location_label (aggregate_events_for_map dff) = ["TX, Unknown"]
  /\ map (fun t => map c_text (t_points t))
         (match fig_map out with MapFig ts => ts | _ => [] end)
     = [["TX, Unknown"]]
  /\ map (show_event_details (filtered_data out)) (aggregate_events_for_map dff)
     = [NoDetails "No event details found for this marker."].
Proof. vm_compute. repeat split. Qed.

Example labels_agree_with_date :
  map (fun r => (best_location_filter r, map_label r))
      [Sample.rally; Sample.march]
  = [("City Hall", "City Hall"); ("NY, 2025-01-03", "NY, 2025-01-03")].
Proof. vm_compute. reflexivity. Qed.

Example details_found_when_labels_agree :
  let out := update_all Sample.repr1 [Sample.rally; Sample.sit_in] Sample.all_rows in
  map (show_event_details (filtered_data out))
      (aggregate_events_for_map (filtered_data out))
  = [EventDetails [Sample.label Sample.rally; Sample.label Sample.sit_in]].
Proof. vm_compute. reflexivity. Qed.

(* ================================================================== *)
(** * Group keys *)
(* ================================================================== *)

Section Keys.

Context {K : Type} (cmp : K -> K -> comparison) (lt : K -> K -> Prop).
Hypothesis cmp_Lt : forall a b, cmp a b = Lt -> lt a b.
Hypothesis cmp_Gt : forall a b, cmp a b = Gt -> lt b a.
Hypothesis cmp_Eq : forall a b, cmp a b = Eq -> a = b.
Hypothesis lt_trans : forall a b c, lt a b -> lt b c -> lt a c.
Hypothesis lt_irrefl : forall a, ~ lt a a.

Lemma insert_key_In k ks x :
  In x (insert_key cmp k ks) <-> x = k \/ In x ks.
Proof.
  induction ks as [|k' ks IH]; simpl.
  - intuition.
  - destruct (cmp k k') eqn:E; simpl.
    + apply cmp_Eq in E. subst. intuition.
    + intuition.
    + rewrite IH. intuition.
Qed.

Lemma insert_key_sorted k ks :
  StronglySorted lt ks -> StronglySorted lt (insert_key cmp k ks).
Proof.
  induction 1 as [|k' ks Hs IH Hall]; simpl.
  - constructor; constructor.
  - destruct (cmp k k') eqn:E.
    + now constructor.
    + apply cmp_Lt in E. constructor; [now constructor|].
      constructor; [exact E|].
      rewrite Forall_forall in Hall |- *. intros y Hy.
      apply lt_trans with k'; auto.
    + apply cmp_Gt in E. constructor; [exact IH|].
      rewrite Forall_forall in Hall |- *. intros y Hy.
      apply insert_key_In in Hy. destruct Hy as [->|Hy]; auto.
Qed.

Lemma group_keys_In l x : In x (group_keys cmp l) <-> In x l.
Proof.
  induction l as [|k l IH]; simpl; [tauto|].
  rewrite insert_key_In, IH. intuition.
Qed.

Lemma group_keys_sorted l : StronglySorted lt (group_keys cmp l).
Proof.
  induction l as [|k l IH]; simpl; [constructor|].
  now apply insert_key_sorted.
Qed.

Lemma sorted_NoDup l : StronglySorted lt l -> NoDup l.
Proof.
  induction 1 as [|k ks Hs IH Hall]; constructor; [|exact IH].
  intros Hin. rewrite Forall_forall in Hall.
  apply (lt_irrefl k). now apply Hall.
Qed.

Lemma group_keys_NoDup l : NoDup (group_keys cmp l).
Proof. apply sorted_NoDup, group_keys_sorted. Qed.

End Keys.

Lemma string_keys_NoDup l : NoDup (group_keys String.compare l).
Proof.
  apply (group_keys_NoDup String.compare String_as_OT.lt).
  - intros a b H. now apply String_as_OT.cmp_lt.
  - intros a b H. apply String_as_OT.cmp_lt.
    rewrite String.compare_antisym, H. reflexivity.
  - exact String.compare_eq_iff.
  - exact String_as_OT.lt_trans.
  - intros a H. apply (String_as_OT.lt_not_eq a a H). reflexivity.
Qed.

Lemma string_keys_In l x : In x (group_keys String.compare l) <-> In x l.
Proof. apply group_keys_In. exact String.compare_eq_iff. Qed.

Lemma Z_keys_In l x : In x (group_keys Z.compare l) <-> In x l.
Proof. apply group_keys_In. intros a b. apply Z.compare_eq. Qed.

(* ================================================================== *)
(** * Counting rows by key *)
(* ================================================================== *)

Lemma list_sum_zero {A} (l : list A) : list_sum (map (fun _ => O) l) = O.
Proof. induction l; simpl; auto. Qed.

Lemma list_sum_map_plus {A} (f g : A -> nat) (l : list A) :
  list_sum (map (fun x => (f x + g x)%nat) l)
  = (list_sum (map f l) + list_sum (map g l))%nat.
Proof. induction l as [|x l IH]; simpl; [reflexivity | rewrite IH; lia]. Qed.

Lemma indicator_sum (x : string) (keys : list string) :
  NoDup keys ->
  list_sum (map (fun k => if String.eqb x k then 1%nat else O) keys)
  = if in_dec string_dec x keys then 1%nat else O.
Proof.
  induction 1 as [|k keys Hk Hnd IH]; simpl; [reflexivity|].
  rewrite IH.
  destruct (String.eqb_spec x k) as [E|Hne].
  - subst x. destruct (string_dec k k) as [E|C]; [|congruence].
    destruct (in_dec string_dec k keys); [contradiction | reflexivity].
  - destruct (string_dec k x) as [C|E]; [congruence|].
    destruct (in_dec string_dec x keys); reflexivity.
Qed.

(** Over distinct keys that cover every row, the group sizes add up to the
    number of rows. *)
Lemma group_sizes_sum {A} (key : A -> string) (rows : list A) (keys : list string) :
  NoDup keys ->
  (forall r, In r rows -> In (key r) keys) ->
  list_sum (map (fun k => List.length (filter (fun r => String.eqb (key r) k) rows))
                keys)
  = List.length rows.
Proof.
  intros Hnd. induction rows as [|r rows IH]; intros Hcover; simpl.
  - apply list_sum_zero.
  - rewrite <- IH by (intros; apply Hcover; now right).
    transitivity
      (list_sum (map (fun k => ((if String.eqb (key r) k then 1 else 0)
                                + List.length (filter (fun r0 => String.eqb (key r0) k) rows))%nat)
                     keys)).
    + f_equal. apply map_ext. intros k. now destruct (String.eqb (key r) k).
    + rewrite list_sum_map_plus, indicator_sum by exact Hnd.
      destruct (in_dec string_dec (key r) keys) as [_|C]; [reflexivity|].
      exfalso. apply C, Hcover. now left.
Qed.

(* ================================================================== *)
(** * Map aggregation partitions the geolocatable rows *)
(* ================================================================== *)

Lemma agg_group_label g : c_location_label (agg_group g) = fst g.
Proof. now destruct g. Qed.

Lemma agg_group_count g : c_count (agg_group g) = List.length (snd g).
Proof. now destruct g. Qed.

Lemma cluster_labels dff :
  map c_location_label (aggregate_events_for_map dff)
  = group_keys String.compare (map location_label (df_map dff)).
Proof.
  unfold aggregate_events_for_map, groupby.
  rewrite !map_map. simpl. apply map_id.
Qed.

Lemma cluster_counts dff :
  map c_count (aggregate_events_for_map dff)
  = map (fun k => List.length
                    (filter (fun r : LRow => String.eqb (location_label r) k)
                            (df_map dff)))
        (group_keys String.compare (map location_label (df_map dff))).
Proof.
  unfold aggregate_events_for_map, groupby.
  rewrite !map_map. reflexivity.
Qed.

Lemma df_map_length dff :
  List.length (df_map dff)
  = List.length (filter (fun r : LRow => geolocatable r) dff).
Proof.
  unfold df_map. rewrite filter_map_swap, length_map. reflexivity.
Qed.

(** The rows of [df_map] under a label are the geolocatable rows of the
    input that the aggregator labels so. *)
Lemma df_map_group_length dff k :
  List.length (filter (fun r : LRow => String.eqb (location_label r) k) (df_map dff))
  = List.length (filter (fun r : LRow => geolocatable r && String.eqb (map_label r) k)
                        dff).
Proof.
  unfold df_map.
  rewrite filter_map_swap, filter_map_swap, length_map. simpl.
  rewrite <- filter_andb. f_equal. apply filter_ext.
  intros r. apply andb_comm.
Qed.

Lemma df_map_labels (dff : list LRow) (r : LRow) :
  In r dff -> geolocatable r = true ->
  In (map_label r) (map location_label (df_map dff)).
Proof.
  intros Hin Hgeo. unfold df_map.
  apply in_map_iff. exists (mkLRow r (map_label r)). split; [reflexivity|].
  apply filter_In. split; [|exact Hgeo].
  apply in_map_iff. now exists r.
Qed.

(** The clusters the body computes have pairwise distinct labels; every
    geolocatable row's label is the label of a cluster; the count of a
    cluster is the number of geolocatable rows carrying its label and is
    positive; and the counts add up to the number of geolocatable rows. *)
Lemma body_partitions_geolocatable_rows (dff : list LRow) :
  let clusters := aggregate_events_for_map dff in
  let geo := filter (fun r : LRow => geolocatable r) dff in
  NoDup (map c_location_label clusters)
  /\ Forall (fun r : LRow => In (map_label r) (map c_location_label clusters)) geo
  /\ Forall (fun c =>
               c_count c
               = List.length
                   (filter (fun r : LRow => String.eqb (map_label r) (c_location_label c))
                           geo)
               /\ (0 < c_count c)%nat)
            clusters
  /\ list_sum (map c_count clusters) = List.length geo.
Proof.
  cbv zeta. repeat split.
  - rewrite cluster_labels. apply string_keys_NoDup.
  - apply Forall_forall. intros r Hr. apply filter_In in Hr as [Hin Hgeo].
    rewrite cluster_labels. apply string_keys_In. now apply df_map_labels.
  - apply Forall_forall. intros c Hc.
    unfold aggregate_events_for_map, groupby in Hc.
    rewrite map_map in Hc. apply in_map_iff in Hc as (k & <- & Hk).
    rewrite agg_group_label, agg_group_count. cbn [fst snd]. split.
    + rewrite df_map_group_length, <- filter_andb.
      f_equal. apply filter_ext. intros r. apply andb_comm.
    + rewrite string_keys_In in Hk. apply in_map_iff in Hk as (lr & Hl & Hr).
      assert (Hin : In lr (filter (fun r : LRow => String.eqb (location_label r) k)
                                  (df_map dff))).
      { apply filter_In. split; [exact Hr|]. rewrite Hl. apply String.eqb_refl. }
      destruct (filter _ (df_map dff)); [contradiction | simpl; lia].
  - rewrite cluster_counts, <- df_map_length.
    apply (group_sizes_sum location_label).
    + apply string_keys_NoDup.
    + intros r Hr. apply string_keys_In. now apply in_map.
Qed.

Example partition_of_three :
  map (fun c => (c_location_label c, c_count c))
      (aggregate_events_for_map
         (map Sample.label [Sample.rally; Sample.vigil; Sample.sit_in; Sample.march]))
  = [("City Hall", 2%nat); ("NY, 2025-01-03", 1%nat)].
Proof. vm_compute. reflexivity. Qed.


(* ================================================================== *)
(** * Momentum *)
(* ================================================================== *)

Lemma dropna_length {A B} (f : A -> option B) (l : list A) :
  List.length (dropna (map f l)) = List.length (filter (fun x => notna (f x)) l).
Proof.
  induction l as [|x l IH]; simpl; [reflexivity|].
  destruct (f x); simpl; now rewrite IH.
Qed.

(** The sized values of a day's bucket of [dff_momentum] are the sizes of
    the events of that day. *)
Lemma momentum_bucket (dff : list LRow) (d : Z) :
  dropna (on_day d (dated
            (filter (fun p : option Dates.Date * option Q =>
                       notna (fst p) && notna (snd p))
                    (map (fun r : LRow => (date r, size_mean r)) dff))))
  = dropna (map (fun r : LRow => size_mean r) (events_on dff d)).
Proof.
  unfold on_day, events_on.
  induction dff as [|r dff IH]; simpl; [reflexivity|].
  destruct (date r) as [x|]; simpl.
  - destruct (size_mean r) as [q|] eqn:Eq; simpl.
    + destruct (Dates.toordinal x =? d); simpl; rewrite ?Eq; now rewrite IH.
    + destruct (Dates.toordinal x =? d); simpl; rewrite ?Eq; exact IH.
  - exact IH.
Qed.

Lemma rolling_sum_length w xs : List.length (rolling_sum w xs) = List.length xs.
Proof. unfold rolling_sum. now rewrite length_map, length_seq. Qed.

Lemma resample_In {A} (rows : list (option Dates.Date * A)) b :
  In b (resample rows) -> snd b = on_day (fst b) (dated rows).
Proof.
  unfold resample. destruct (map fst (dated rows)); [contradiction|].
  intros H. apply in_map_iff in H as (day & <- & _). reflexivity.
Qed.

Lemma resample_days {A} (rows : list (option Dates.Date * A)) :
  map fst (resample rows)
  = match map fst (dated rows) with
    | [] => []
    | d :: ds => day_range (fold_left Z.min ds d) (fold_left Z.max ds d)
    end.
Proof.
  unfold resample. destruct (map fst (dated rows)); [reflexivity|].
  rewrite map_map. simpl. apply map_id.
Qed.

Lemma map_fst_combine_same_length {A B} (l1 : list A) (l2 : list B) :
  List.length l2 = List.length l1 -> map fst (combine l1 l2) = l1.
Proof.
  revert l2. induction l1 as [|a l1 IH]; intros [|b l2] H; simpl in *;
    try reflexivity; try discriminate.
  f_equal. apply IH. lia.
Qed.

Lemma C1_counterexample :
  exists m, In m (dff_momentum Sample.same_day)
            /\ ~ (m_momentum m == spec_momentum Sample.same_day (m_day m))%Q.
Proof.
  exists (mkMomentumRow 739252 (100 + 0) 1 ((100 + 0) * 1) None). split.
  - vm_compute. left. reflexivity.
  - vm_compute. discriminate.
Qed.

(** C1, amended. For every day of the momentum series, momentum is the sum
    of [size_mean] over the events of that day times the number of events
    of that day that have a size; the series has one entry per calendar day
    from the earliest to the latest date among the dated, sized events; it
    is the series of the momentum figure whenever that figure is drawn. *)
Theorem C1_momentum (dff : list LRow) :
  Forall (fun m =>
            m_momentum m
            = (series_sum (map (fun r : LRow => size_mean r) (events_on dff (m_day m)))
               * inject_Z (Z.of_nat (List.length (sized_events_on dff (m_day m)))))%Q)
         (dff_momentum dff)
  /\ map m_day (dff_momentum dff)
     = match sized_days dff with
       | [] => []
       | d :: ds => day_range (fold_left Z.min ds d) (fold_left Z.max ds d)
       end
  /\ fig_momentum (update_all_body dff)
     = if no_location_data dff then EmptyFig
       else MomentumFig (dff_momentum dff) (trendline dff).
Proof.
  split; [|split];
    [| | unfold update_all_body; now destruct (no_location_data dff)];
    unfold dff_momentum, sized_days, participants_numeric;
    set (kept := filter _ (map _ dff)).
  - apply Forall_forall. intros m Hm.
    apply in_map_iff in Hm as ([[d vs] alt] & <- & Hin).
    apply in_combine_l in Hin. apply resample_In in Hin. simpl in Hin.
    subst vs. cbn [m_momentum m_day].
    unfold series_sum, series_count, sized_events_on. subst kept.
    rewrite momentum_bucket, dropna_length. reflexivity.
  - rewrite <- resample_days.
    set (buckets := resample kept).
    set (alts := rolling_sum 7 (map (fun b => series_sum (snd b)) buckets)).
    assert (E : map fst (combine buckets alts) = buckets).
    { apply map_fst_combine_same_length. subst alts.
      now rewrite rolling_sum_length, length_map. }
    transitivity (map fst (map fst (combine buckets alts))); [|now rewrite E].
    rewrite !map_map. apply map_ext. now intros [[d vs] alt].
Qed.

Example momentum_counts_sized_events_only :
  map (fun m => (m_day m, m_sum m, m_count m, m_momentum m))
      (dff_momentum Sample.same_day)
  = [(739252, (100 + 0)%Q, 1%nat, ((100 + 0) * 1)%Q)].
Proof. vm_compute. reflexivity. Qed.

(* ================================================================== *)
(** * Rows without coordinates *)
(* ================================================================== *)

Lemma filter_idempotent {A} (f : A -> bool) (l : list A) :
  filter f (filter f l) = filter f l.
Proof.
  rewrite <- filter_andb. apply filter_ext. intros x. apply andb_diag.
Qed.

Lemma df_map_geolocatable (dff : list LRow) :
  df_map (filter (fun r : LRow => geolocatable r) dff) = df_map dff.
Proof.
  unfold df_map. rewrite !filter_map_swap. simpl.
  now rewrite filter_idempotent.
Qed.

Lemma sizes_without_coords dff : sizes (map without_coords dff) = sizes dff.
Proof. unfold sizes. now rewrite map_map. Qed.

Lemma kpi_cards_without_coords dff :
  kpi_cards (map without_coords dff) = kpi_cards dff.
Proof.
  unfold kpi_cards, percent_us_pop, peak_day, daily_size_sums, mean_size,
    percent_no_size, total_events.
  now rewrite sizes_without_coords, length_map, !map_map.
Qed.

Lemma largest_without_coords dff :
  largest_event (map without_coords dff) = largest_event dff
  /\ largest_day (map without_coords dff) = largest_day dff.
Proof.
  unfold largest_event, largest_day, peak_day, daily_size_sums.
  now rewrite sizes_without_coords, !map_map.
Qed.

Lemma series_without_coords dff :
  daily_figure (map without_coords dff) = daily_figure dff
  /\ cumulative_figure (map without_coords dff) = cumulative_figure dff
  /\ daily_participants_figure (map without_coords dff)
     = daily_participants_figure dff
  /\ momentum_figure (map without_coords dff) = momentum_figure dff.
Proof.
  unfold daily_figure, cumulative_figure, daily_participants_figure,
    momentum_figure, trendline, cumulative_counts, daily_counts,
    daily_participants, dff_momentum.
  now rewrite !map_map.
Qed.

Lemma bucket_events {A} (f : LRow -> A) (dff : list LRow) (d : Z) :
  on_day d (dated (map (fun r : LRow => (date r, f r)) dff))
  = map f (events_on dff d).
Proof.
  unfold on_day, events_on.
  induction dff as [|r dff IH]; simpl; [reflexivity|].
  destruct (date r) as [x|]; simpl; [|exact IH].
  destruct (Dates.toordinal x =? d); simpl; now rewrite IH.
Qed.

(** Every event of a day is counted in the daily series, and its size is
    added in the participant series, whether or not it has coordinates. *)
Lemma daily_series_spec (dff : list LRow) :
  Forall (fun p => snd p = List.length (events_on dff (fst p))) (daily_counts dff)
  /\ Forall (fun p => snd p
                      = series_sum (map (fun r : LRow => size_mean r)
                                        (events_on dff (fst p))))
            (daily_participants dff).
Proof.
  unfold daily_counts, daily_participants. split.
  - apply Forall_forall. intros p Hp.
    apply in_map_iff in Hp as (b & <- & Hb). apply resample_In in Hb.
    cbn [fst snd]. now rewrite Hb, bucket_events, length_map.
  - apply Forall_forall. intros p Hp.
    apply in_map_iff in Hp as (b & <- & Hb). apply resample_In in Hb.
    cbn [fst snd]. now rewrite Hb, bucket_events.
Qed.

Lemma C2_counterexample :
  Sample.not_geocoded <> []
  /\ filter (fun r : LRow => geolocatable r) Sample.not_geocoded = []
  /\ daily_counts Sample.not_geocoded = [(739252, 1%nat)]
  /\ fig_daily (update_all_body Sample.not_geocoded) = EmptyFig
  /\ fig_cumulative (update_all_body Sample.not_geocoded) = EmptyFig
  /\ fig_daily_participants (update_all_body Sample.not_geocoded) = EmptyFig.
Proof. vm_compute. repeat split. discriminate. Qed.

(** C2, amended. Rows without a latitude or longitude never reach the map
    clusters, and the four KPI cards are always computed from all rows,
    coordinates ignored.  When some latitude and some longitude is present,
    the momentum, daily, cumulative and participant figures and the two
    small KPIs are likewise those of all rows, coordinates ignored; when all
    latitudes or all longitudes are null, every figure is empty, the two
    small KPIs are empty and the no-location message is set.  In the drawn
    series a day's count is the number of its events and a day's
    participant sum is the sum of their sizes. *)
Theorem C2_null_coordinates (dff : list LRow) :
  let out := update_all_body dff in
  let any := map without_coords dff in
  aggregate_events_for_map dff
  = aggregate_events_for_map (filter (fun r : LRow => geolocatable r) dff)
  /\ kpis out = kpi_cards any
  /\ if no_location_data dff then
       fig_map out = EmptyFig /\ fig_momentum out = EmptyFig
       /\ fig_daily out = EmptyFig /\ fig_cumulative out = EmptyFig
       /\ fig_daily_participants out = EmptyFig
       /\ largest_event_kpi out = [] /\ largest_day_kpi out = []
       /\ no_data_message out = Some NO_LOCATION_MESSAGE
     else
       fig_momentum out = momentum_figure any
       /\ fig_daily out = daily_figure any
       /\ fig_cumulative out = cumulative_figure any
       /\ fig_daily_participants out = daily_participants_figure any
       /\ largest_event_kpi out
          = [Py.format_fixed true 0 (largest_event any); "Largest Event"]
       /\ largest_day_kpi out
          = [Py.format_fixed true 0 (largest_day any); "Largest Day"]
       /\ no_data_message out = None
       /\ Forall (fun p => snd p = List.length (events_on dff (fst p)))
                 (daily_counts dff)
       /\ Forall (fun p => snd p
                           = series_sum (map (fun r : LRow => size_mean r)
                                             (events_on dff (fst p))))
                 (daily_participants dff).
Proof.
  cbv zeta.
  destruct (series_without_coords dff) as (E1 & E2 & E3 & E4).
  destruct (largest_without_coords dff) as (E5 & E6).
  destruct (daily_series_spec dff) as (D1 & D2).
  rewrite kpi_cards_without_coords, E1, E2, E3, E4, E5, E6.
  split; [|split].
  - unfold aggregate_events_for_map. now rewrite df_map_geolocatable.
  - unfold update_all_body. now destruct (no_location_data dff).
  - unfold update_all_body.
    destruct (no_location_data dff); simpl; repeat split; assumption.
Qed.

Example series_keep_rows_without_coordinates :
  let out := update_all_body (map Sample.label [Sample.rally; Sample.vigil]) in
  fig_daily out = DailyFig [(739252, 2%nat)]
  /\ map (fun c => (c_location_label c, c_count c))
         (aggregate_events_for_map (map Sample.label [Sample.rally; Sample.vigil]))
     = [("City Hall", 1%nat)]
  /\ nth 0 (kpis out) ("", "") = ("2", "Total Events").
Proof. vm_compute. repeat split. Qed.

(* ================================================================== *)
(** * The no-location message *)
(* ================================================================== *)

Lemma all_null_Forall {A} (xs : list (option A)) :
  all_null xs = true <-> Forall (fun x => x = None) xs.
Proof.
  unfold all_null. rewrite forallb_forall, Forall_forall.
  split; intros H x Hx; specialize (H x Hx); destruct x; auto; discriminate.
Qed.

Lemma no_location_data_spec (dff : list LRow) :
  no_location_data dff = true
  <-> Forall (fun r : LRow => lat r = None) dff
      \/ Forall (fun r : LRow => lon r = None) dff.
Proof.
  unfold no_location_data.
  rewrite orb_true_iff, !all_null_Forall, !Forall_map. reflexivity.
Qed.

Lemma string_of_uint_zero d :
  NilZero.string_of_uint d = "0" -> d = Decimal.Nil \/ d = Decimal.D0 Decimal.Nil.
Proof.
  destruct d as [|d|d|d|d|d|d|d|d|d|d]; simpl; intros H; try discriminate; auto.
  right. destruct d; simpl in H; try discriminate. reflexivity.
Qed.

Lemma str_nat_zero n : Py.str_nat n = "0" -> n = 0%N.
Proof.
  unfold Py.str_nat. intros H. destruct n as [|p]; [reflexivity|].
  apply string_of_uint_zero in H. simpl in H. destruct H as [H|H].
  - now apply DecimalPos.Unsigned.to_uint_nonnil in H.
  - now apply DecimalPos.Unsigned.to_uint_nonzero in H.
Qed.

Lemma with_commas_zero s : Py.with_commas s = "0" -> s = "0".
Proof.
  destruct s as [|c [|c' s]]; cbn [Py.with_commas]; intros H;
    try discriminate.
  - exact H.
  - exfalso. injection H as _ Hrest. revert Hrest.
    match goal with
    | |- context [if ?b then _ else _] => destruct b
    end; discriminate.
Qed.

Lemma total_card_zero n : Py.format_int_commas n = "0" -> n = 0%N.
Proof.
  unfold Py.format_int_commas. intros H.
  now apply str_nat_zero, with_commas_zero.
Qed.

Lemma C9_counterexample :
  filter (fun r : LRow => geolocatable r) Sample.half_coordinates = []
  /\ no_data_message (update_all_body Sample.half_coordinates) = None
  /\ Sample.not_geocoded <> []
  /\ no_data_message (update_all_body Sample.not_geocoded)
     = no_data_message (update_all_body []).
Proof. vm_compute. repeat split. discriminate. Qed.

(** C9, amended. The no-location message is set exactly when every latitude
    of the filtered set is null or every longitude is null, which includes
    the empty set; its text is the same in both cases.  The output for a
    non-empty set differs from the output for the empty set in the
    total-events card and in the stored rows. *)
Theorem C9_no_location_message (dff : list LRow) :
  no_data_message (update_all_body dff)
  = (if no_location_data dff then Some NO_LOCATION_MESSAGE else None)
  /\ (no_location_data dff = true
      <-> Forall (fun r : LRow => lat r = None) dff
          \/ Forall (fun r : LRow => lon r = None) dff)
  /\ no_data_message (update_all_body []) = Some NO_LOCATION_MESSAGE
  /\ match dff with
     | [] => True
     | _ :: _ =>
         nth 0 (kpis (update_all_body dff)) ("", "")
         <> nth 0 (kpis (update_all_body [])) ("", "")
         /\ filtered_data (update_all_body dff) <> filtered_data (update_all_body [])
     end.
Proof.
  split; [|split; [|split]].
  - unfold update_all_body. now destruct (no_location_data dff).
  - apply no_location_data_spec.
  - reflexivity.
  - destruct dff as [|r dff]; [exact I|]. split.
    + assert (E : forall d, nth 0 (kpis (update_all_body d)) ("", "")
                            = (Py.format_int_commas (N.of_nat (List.length d)),
                               "Total Events")).
      { intros d. unfold update_all_body.
        now destruct (no_location_data d). }
      assert (E0 : Py.format_int_commas (N.of_nat (List.length (@nil LRow))) = "0")
        by reflexivity.
      rewrite !E, E0. intros H. apply (f_equal fst) in H. cbn [fst] in H.
      apply total_card_zero in H. cbn in H. discriminate H.
    + assert (E : forall d, filtered_data (update_all_body d) = d).
      { intros d. unfold update_all_body. now destruct (no_location_data d). }
      rewrite !E. discriminate.
Qed.

(* ================================================================== *)
(** * Ratios and their defaults *)
(* ================================================================== *)

Lemma all_null_dropna {A} (xs : list (option A)) :
  all_null xs = true -> dropna xs = [].
Proof.
  induction xs as [|[x|] xs IH]; simpl; intros H; try discriminate; auto.
Qed.

(** With a defined peak the percentage is [100 * peak / 340,100,000]. *)
Lemma percent_us_pop_defined dff p :
  peak_day dff = Some p ->
  exists v, percent_us_pop dff = Some v
            /\ (v == 100 * p / (340100000 # 1))%Q.
Proof.
  intros H. unfold percent_us_pop. rewrite H. simpl.
  destruct (Qeq_bool p 0) eqn:E; simpl.
  - exists 0%Q. split; [reflexivity|].
    apply Qeq_bool_eq in E. rewrite E. reflexivity.
  - exists (p / US_POPULATION * 100)%Q. split; [reflexivity|].
    unfold US_POPULATION. field.
Qed.

(** With no dated row the peak is NaN, NaN is truthy, and the percentage is
    NaN. *)
Lemma percent_us_pop_undefined dff :
  peak_day dff = None -> percent_us_pop dff = None.
Proof. intros H. unfold percent_us_pop. now rewrite H. Qed.

Lemma peak_day_undated (dff : list LRow) :
  Forall (fun r : LRow => date r = None) dff -> peak_day dff = None.
Proof.
  intros H. unfold peak_day, daily_size_sums.
  replace (dated (map (fun r : LRow => (date r, size_mean r)) dff))
    with (@nil (Z * option Q)); [reflexivity|].
  induction H as [|r dff Hr _ IH]; simpl; [reflexivity|].
  now rewrite Hr.
Qed.

Lemma percent_no_size_no_events : percent_no_size [] = 0%Q.
Proof. reflexivity. Qed.

Lemma sizeref_positive m : (0 < sizeref m)%Q.
Proof.
  unfold sizeref. destruct m as [m|]; [|reflexivity].
  destruct (Qlt_le_dec 0 m) as [H|_]; [|reflexivity].
  apply Qlt_shift_div_l; [reflexivity|]. lra.
Qed.

(** C7. An organization search that matches no row leaves no daily sum, so
    [peak_day] is NaN; the guard [if peak_day] lets a NaN through and the
    card reads [nan%] instead of [0.0000%]. *)
Theorem C7_percent_of_population_nan :
  let out := update_all Sample.repr1 [Sample.rally; Sample.march]
                        Sample.unknown_org in
  filtered_data out = []
  /\ peak_day (filtered_data out) = None
  /\ percent_us_pop (filtered_data out) = None
  /\ nth 1 (kpis out) ("", "")
     = ("nan%", "Largest Daily Participant Count as % of US population:").
Proof. vm_compute. repeat split. Qed.

Example percent_of_population_zero_peak :
  percent_us_pop [Sample.label Sample.sit_in] = Some 0%Q.
Proof. vm_compute. reflexivity. Qed.

(* ================================================================== *)
(** * The mean participant size *)
(* ================================================================== *)

(** Without any size the mean is NaN and the card prints it. *)
Lemma mean_size_card_nan (dff : list LRow) :
  all_null (sizes dff) = true ->
  mean_size dff = None
  /\ nth 3 (kpis (update_all_body dff)) ("", "")
     = ("nan", "Average Participant Count").
Proof.
  intros H.
  assert (E : mean_size dff = None).
  { unfold mean_size, series_mean. now rewrite (all_null_dropna _ H). }
  split; [exact E|].
  unfold update_all_body. destruct (no_location_data dff); simpl; now rewrite E.
Qed.

(** With a size present the mean is the sum of the non-null sizes over
    their number. *)
Lemma mean_size_defined (dff : list LRow) :
  all_null (sizes dff) = false ->
  mean_size dff
  = Some (Qsum (dropna (sizes dff))
          / inject_Z (Z.of_nat (List.length (filter (fun r : LRow => notna (size_mean r)) dff))))%Q.
Proof.
  intros H. unfold mean_size, series_mean.
  rewrite <- (dropna_length (fun r : LRow => size_mean r) dff).
  fold (sizes dff).
  destruct (dropna (sizes dff)) eqn:E; [|reflexivity].
  exfalso. revert H E. generalize (sizes dff).
  induction l as [|[x|] l IH]; simpl; intros H E; try discriminate; auto.
Qed.

(** C8. With the size filter on [no] every kept row has a null
    [size_mean]; the mean is NaN and the card reads [nan] instead of [0]. *)
Theorem C8_mean_size_renders_nan :
  let out := update_all Sample.repr1 [Sample.rally; Sample.sit_in; Sample.march]
                        Sample.no_size_only in
  filtered_data out = [Sample.label Sample.sit_in]
  /\ mean_size (filtered_data out) = None
  /\ nth 3 (kpis out) ("", "") = ("nan", "Average Participant Count")
  /\ largest_event_kpi out = ["0"; "Largest Event"].
Proof. vm_compute. repeat split. Qed.

Example mean_size_scenario_a :
  nth 3 (kpis (update_all Sample.repr1 [Sample.rally; Sample.march] Sample.all_rows))
      ("", "")
  = ("150", "Average Participant Count").
Proof. vm_compute. reflexivity. Qed.

(* ================================================================== *)
(** * The exported columns *)
(* ================================================================== *)

Lemma has_In c cols : Columns.has c cols = true <-> In c cols.
Proof.
  unfold Columns.has. rewrite existsb_exists. split.
  - intros (x & Hx & E). apply String.eqb_eq in E. now subst.
  - intros H. exists c. split; [exact H | apply String.eqb_refl].
Qed.

Lemma assign_In x cols c :
  In c (Columns.assign x cols) <-> In c cols \/ c = x.
Proof.
  unfold Columns.assign. destruct (Columns.has x cols) eqn:E.
  - apply has_In in E. split; [auto | intros [H| ->]; auto].
  - rewrite in_app_iff. simpl. intuition.
Qed.

Lemma assign_all_In xs cols c :
  In c (fold_left (fun cols x => Columns.assign x cols) xs cols)
  <-> In c cols \/ In c xs.
Proof.
  revert cols. induction xs as [|x xs IH]; intros cols; simpl.
  - tauto.
  - rewrite IH, assign_In. intuition.
Qed.

Lemma drop_In x cols c : In c (Columns.drop x cols) <-> In c cols /\ c <> x.
Proof.
  unfold Columns.drop. rewrite filter_In, negb_true_iff, String.eqb_neq.
  reflexivity.
Qed.

Lemma C10_counterexample :
  exists filtered full,
    Columns.download_csv 1 "filtered" Sample.header = Some filtered
    /\ Columns.download_csv 1 "full" Sample.header = Some full
    /\ ~ In "location_label" Sample.header
    /\ In "location_label" filtered
    /\ ~ In "participants_numeric" Sample.header
    /\ In "participants_numeric" full.
Proof.
  eexists. eexists. split; [reflexivity|]. split; [reflexivity|].
  vm_compute. repeat split; intuition; discriminate.
Qed.

(** C10, amended. After a click the export holds every column of the CSV
    header except one named [fallback], the load-time copy
    [participants_numeric], and, unless the full dataset is chosen, the
    derived [location_label] (and any of the required columns the header
    lacks); nothing else, and no column other than [fallback] is removed. *)
Theorem C10_export_columns (n : nat) (choice : string) (csv : list string) :
  exists cols,
    Columns.download_csv (S n) choice csv = Some cols
    /\ forall c,
         In c cols
         <-> c <> "fallback"
             /\ (In c csv \/ c = "participants_numeric"
                 \/ (choice <> "full"
                     /\ (In c Columns.required_cols \/ c = "location_label"))).
Proof.
  unfold Columns.download_csv.
  set (export_df := if String.eqb choice "full" then Columns.df_columns csv
                    else Columns.filter_data_columns csv).
  assert (Hexp : forall c,
             In c export_df
             <-> In c csv \/ c = "participants_numeric"
                 \/ (choice <> "full"
                     /\ (In c Columns.required_cols \/ c = "location_label"))).
  { intros c. subst export_df.
    destruct (String.eqb_spec choice "full") as [E|E].
    - unfold Columns.df_columns. rewrite assign_In. intuition.
    - unfold Columns.filter_data_columns, Columns.df_columns.
      rewrite assign_In, assign_all_In, assign_In. intuition. }
  eexists. split; [reflexivity|]. intros c.
  destruct (Columns.has "fallback" export_df) eqn:F.
  - rewrite drop_In, Hexp. tauto.
  - rewrite <- Hexp. split; [|tauto].
    intros H. split; [|exact H]. intros ->.
    apply has_In in H. congruence.
Qed.

Example export_of_filtered_view :
  Columns.download_csv 1 "filtered" Sample.header
  = Some (Sample.header ++ ["participants_numeric"; "location_label"])%list.
Proof. vm_compute. reflexivity. Qed.

Example export_drops_fallback :
  Columns.download_csv 1 "full" ["date"; "fallback"; "size_mean"]
  = Some ["date"; "size_mean"; "participants_numeric"].
Proof. vm_compute. reflexivity. Qed.

(* ================================================================== *)
(** * The scenarios of the specification *)
(* ================================================================== *)

(** Scenario A: two rows dated 2025-01-01 and 2025-01-03 with sizes 100 and
    200. *)
Example scenario_a :
  let out := update_all Sample.repr1 [Sample.rally; Sample.march] Sample.all_rows in
  nth 0 (kpis out) ("", "") = ("2", "Total Events")
  /\ fig_daily out = DailyFig [(739252, 1%nat); (739253, 0%nat); (739254, 1%nat)]
  /\ fig_cumulative out
     = CumulativeFig [(739252, 1%nat); (739253, 1%nat); (739254, 2%nat)]
  /\ nth 3 (kpis out) ("", "") = ("150", "Average Participant Count").
Proof. vm_compute. repeat split. Qed.

(** Scenario B: the search term [Resist] keeps the row of "resist now"
    only. *)
Example scenario_b :
  filter_data Sample.repr1 [Sample.rally; Sample.march]
              (mkSpec None None "all" (Some " Resist ,") [] [])
  = [Sample.label Sample.rally].
Proof. vm_compute. reflexivity. Qed.

(* ================================================================== *)
(** * Further properties of [filter_data] *)
(* ================================================================== *)

Lemma mask_eq fr sp r :
  mask fr sp r
  = date_mask sp r && size_mask sp r && org_mask sp r && state_mask sp r
    && outcomes_mask fr sp r.
Proof. reflexivity. Qed.

Lemma unknown_outcome_ok fr o r :
  ~ In o known_outcomes -> outcome_ok fr o r = true.
Proof.
  intros H. unfold outcome_ok.
  repeat match goal with
         | |- context [String.eqb o ?s] =>
             destruct (String.eqb_spec o s) as [E|_];
             [exfalso; apply H; rewrite E; simpl; tauto|]
         end.
  reflexivity.
Qed.

Lemma unconstrained_mask fr sp r : unconstrained sp -> mask fr sp r = true.
Proof.
  intros (Hd & Hs1 & Hs2 & Ho & Hst & Hout).
  rewrite mask_eq, !andb_true_iff. repeat split.
  - unfold date_mask.
    destruct Hd as [-> | ->]; [reflexivity | now destruct (start_date sp)].
  - unfold size_mask.
    destruct (String.eqb_spec (size_filter sp) "has"); [contradiction|].
    destruct (String.eqb_spec (size_filter sp) "no"); [contradiction|].
    reflexivity.
  - unfold org_mask. destruct (org_search sp) as [s|]; [|reflexivity].
    rewrite Ho. now destruct (Py.truthy s).
  - unfold state_mask. now rewrite Hst.
  - rewrite outcomes_mask_forallb. apply forallb_forall.
    intros o Hin. apply unknown_outcome_ok. now apply Hout.
Qed.

(** With every field at a value that constrains nothing (a missing date
    bound, a size mode other than [has] and [no], a search that holds no
    term, no state, only unrecognised flags), [filter_data] returns every
    row of the dataset, in order, each with its label. *)
Theorem unconstrained_filter_returns_dataset fr df sp :
  unconstrained sp -> filter_data fr df sp = map labelled df.
Proof.
  intros H. unfold filter_data, labelled.
  rewrite filter_true; [reflexivity|].
  intros r. now apply unconstrained_mask.
Qed.

Lemma unconstrained_filter_returns_dataset_witness :
  unconstrained Sample.lax
  /\ filter_data Sample.repr1 [Sample.rally; Sample.undated; Sample.march] Sample.lax
     = map labelled [Sample.rally; Sample.undated; Sample.march].
Proof.
  assert (H : unconstrained Sample.lax).
  { unfold unconstrained, Sample.lax; simpl. repeat split; auto; try discriminate.
    intros o [<-|[]] H. simpl in H. intuition discriminate. }
  split; [exact H|].
  exact (unconstrained_filter_returns_dataset Sample.repr1
           [Sample.rally; Sample.undated; Sample.march] Sample.lax H).
Defined.

Lemma mask_with_size_filter fr v sp r :
  mask fr (with_size_filter v sp) r
  = size_mask (with_size_filter v sp) r && mask fr (with_size_filter "all" sp) r.
Proof.
  rewrite !mask_eq.
  change (date_mask (with_size_filter v sp) r) with (date_mask sp r).
  change (date_mask (with_size_filter "all" sp) r) with (date_mask sp r).
  change (org_mask (with_size_filter v sp) r) with (org_mask sp r).
  change (org_mask (with_size_filter "all" sp) r) with (org_mask sp r).
  change (state_mask (with_size_filter v sp) r) with (state_mask sp r).
  change (state_mask (with_size_filter "all" sp) r) with (state_mask sp r).
  change (outcomes_mask fr (with_size_filter v sp) r) with (outcomes_mask fr sp r).
  change (outcomes_mask fr (with_size_filter "all" sp) r)
    with (outcomes_mask fr sp r).
  change (size_mask (with_size_filter "all" sp) r) with true.
  destruct (date_mask sp r), (size_mask (with_size_filter v sp) r),
    (org_mask sp r), (state_mask sp r), (outcomes_mask fr sp r); reflexivity.
Qed.

(** The size modes split the result of mode [all]: under [has] every row
    has a size, under [no] none has, and the two results together have as
    many rows as the result under [all]. *)
Theorem size_modes_split_the_result fr df sp :
  let has := filter_data fr df (with_size_filter "has" sp) in
  let no := filter_data fr df (with_size_filter "no" sp) in
  let all := filter_data fr df (with_size_filter "all" sp) in
  has = filter (fun lr : LRow => notna (size_mean lr)) all
  /\ no = filter (fun lr : LRow => isna (size_mean lr)) all
  /\ Forall (fun lr : LRow => size_mean lr <> None) has
  /\ Forall (fun lr : LRow => size_mean lr = None) no
  /\ (List.length has + List.length no = List.length all)%nat.
Proof.
  cbv zeta.
  assert (Hhas : filter_data fr df (with_size_filter "has" sp)
                 = filter (fun lr : LRow => notna (size_mean lr))
                          (filter_data fr df (with_size_filter "all" sp))).
  { apply (filter_data_split fr df _ (fun _ r => notna (size_mean r))).
    intros r. apply mask_with_size_filter. }
  assert (Hno : filter_data fr df (with_size_filter "no" sp)
                = filter (fun lr : LRow => isna (size_mean lr))
                         (filter_data fr df (with_size_filter "all" sp))).
  { apply (filter_data_split fr df _ (fun _ r => isna (size_mean r))).
    intros r. apply mask_with_size_filter. }
  rewrite Hhas, Hno. repeat split.
  - apply Forall_forall. intros lr Hin. apply filter_In in Hin as [_ H].
    now destruct (size_mean lr).
  - apply Forall_forall. intros lr Hin. apply filter_In in Hin as [_ H].
    now destruct (size_mean lr).
  - apply (filter_length (fun lr : LRow => notna (size_mean lr))).
Qed.

Example size_modes_example :
  map location_label
      (filter_data Sample.repr1 [Sample.rally; Sample.sit_in; Sample.march]
                   (with_size_filter "has" Sample.all_rows))
  = ["City Hall"; "NY, 2025-01-03"].
Proof. vm_compute. reflexivity. Qed.


(* ================================================================== *)
(** * The organization search *)
(* ================================================================== *)

Lemma prefix_occurs t o : prefix t o = true <-> exists post, o = t ++ post.
Proof.
  revert o. induction t as [|c t IH]; intros o; simpl.
  - split; [intros _; now exists o | now destruct o].
  - destruct o as [|c' o]; [split; [discriminate | intros (p & H); discriminate]|].
    simpl. destruct (ascii_dec c c') as [->|Hne].
    + rewrite IH. split; intros (post & H); exists post.
      * now rewrite H.
      * now inversion H.
    + split; [discriminate | intros (post & H); inversion H; congruence].
Qed.

Lemma contains_occurs t o : Py.contains t o = true <-> occurs_in t o.
Proof.
  unfold occurs_in. induction o as [|c o IH]; cbn [Py.contains].
  - rewrite orb_false_r, prefix_occurs. split.
    + intros (post & H). now exists "", post.
    + intros (pre & post & H). destruct pre; [now exists post | discriminate].
  - rewrite orb_true_iff, prefix_occurs, IH. split.
    + intros [(post & H) | (pre & post & H)].
      * now exists "", post.
      * exists (String c pre), post. simpl. now rewrite H.
    + intros (pre & post & H). destruct pre as [|c' pre]; simpl in H.
      * left. now exists post.
      * right. inversion H. now exists pre, post.
Qed.

Lemma org_terms_empty_string : org_terms "" = [].
Proof. reflexivity. Qed.

(** A row passes the organization search iff the search holds no term
    ([None], empty, or separators and blanks only) or the row has an
    organizations text in which one of the terms occurs: the terms are
    OR-combined and matched as literal substrings, and a row without
    organizations fails. *)
Theorem org_search_matches_any_term sp r :
  org_mask sp r = true
  <-> match org_search sp with
      | None => True
      | Some s =>
          org_terms s = []
          \/ exists o t, organizations r = Str o
                         /\ In t (org_terms s) /\ occurs_in t o
      end.
Proof.
  unfold org_mask. destruct (org_search sp) as [s|]; [|tauto].
  destruct s as [|c s]; [simpl; tauto|].
  cbn [Py.truthy]. destruct (org_terms (String c s)) as [|t ts] eqn:E.
  - tauto.
  - destruct (organizations r) as [|o].
    + split; [discriminate|].
      intros [H | (o & t' & H & _)]; discriminate.
    + rewrite existsb_exists. split.
      * intros (t' & Hin & Hc). right. exists o, t'.
        repeat split; [exact Hin | now apply contains_occurs].
      * intros [H | (o' & t' & Ho & Hin & Hocc)]; [discriminate|].
        inversion Ho; subst o'. exists t'. split; [exact Hin|].
        now apply contains_occurs.
Qed.

Example org_search_any_term :
  map location_label
      (filter_data Sample.repr1 [Sample.rally; Sample.march; Sample.sit_in]
                   (with_org_search (Some "group, zzz ,RESIST") Sample.all_rows))
  = ["City Hall"; "NY, 2025-01-03"].
Proof. vm_compute. reflexivity. Qed.

Lemma lower_char_space c : Py.is_space (Py.lower_char c) = Py.is_space c.
Proof. destruct c as [[] [] [] [] [] [] [] []]; reflexivity. Qed.

Lemma lower_char_comma c :
  Ascii.eqb (Py.lower_char c) "," = Ascii.eqb c ",".
Proof. destruct c as [[] [] [] [] [] [] [] []]; reflexivity. Qed.

Lemma lower_char_idem c : Py.lower_char (Py.lower_char c) = Py.lower_char c.
Proof. destruct c as [[] [] [] [] [] [] [] []]; reflexivity. Qed.

Lemma lower_idem s : Py.lower (Py.lower s) = Py.lower s.
Proof. induction s as [|c s IH]; simpl; [reflexivity|]. now rewrite lower_char_idem, IH. Qed.

Lemma lstrip_lower s : Py.lstrip (Py.lower s) = Py.lower (Py.lstrip s).
Proof.
  induction s as [|c s IH]; simpl; [reflexivity|].
  rewrite lower_char_space. now destruct (Py.is_space c).
Qed.

Lemma rstrip_lower s : Py.rstrip (Py.lower s) = Py.lower (Py.rstrip s).
Proof.
  induction s as [|c s IH]; simpl; [reflexivity|].
  rewrite IH, lower_char_space.
  destruct (Py.rstrip s); simpl; [now destruct (Py.is_space c) | reflexivity].
Qed.

Lemma strip_lower s : Py.strip (Py.lower s) = Py.lower (Py.strip s).
Proof. unfold Py.strip. now rewrite lstrip_lower, rstrip_lower. Qed.

Lemma truthy_lower s : Py.truthy (Py.lower s) = Py.truthy s.
Proof. now destruct s. Qed.

Lemma split_lower s :
  Py.split "," (Py.lower s) = map Py.lower (Py.split "," s).
Proof.
  induction s as [|c s IH]; simpl; [reflexivity|].
  rewrite lower_char_comma, IH.
  destruct (Ascii.eqb c ","); simpl; [reflexivity|].
  now destruct (Py.split "," s).
Qed.

Lemma org_terms_lower s : org_terms (Py.lower s) = org_terms s.
Proof.
  unfold org_terms. rewrite split_lower, filter_map_swap, map_map.
  erewrite filter_ext
    by (intros o; rewrite strip_lower; apply truthy_lower).
  apply map_ext. intros o. now rewrite strip_lower, lower_idem.
Qed.

(** The case of the search text does not matter: a search and its
    lower-cased form select the same rows. *)
Theorem org_search_ignores_query_case fr df sp s :
  filter_data fr df (with_org_search (Some (Py.lower s)) sp)
  = filter_data fr df (with_org_search (Some s) sp).
Proof.
  unfold filter_data. f_equal. apply filter_ext. intros r.
  rewrite !mask_eq.
  change (org_mask (with_org_search (Some (Py.lower s)) sp) r)
    with (if Py.truthy (Py.lower s) then
            match org_terms (Py.lower s) with
            | [] => true
            | terms =>
                match organizations r with
                | NaN => false
                | Str o => existsb (fun t => Py.contains t o) terms
                end
            end
          else true).
  rewrite org_terms_lower, truthy_lower. reflexivity.
Qed.

(* ================================================================== *)
(** * Narrowing and widening a specification *)
(* ================================================================== *)

Lemma filter_length_le {A} (f g : A -> bool) (l : list A) :
  (forall x, f x = true -> g x = true) ->
  (List.length (filter f l) <= List.length (filter g l))%nat.
Proof.
  intros H. induction l as [|x l IH]; simpl; [lia|].
  destruct (f x) eqn:E.
  - rewrite (H x E). simpl. lia.
  - destruct (g x); simpl; lia.
Qed.

(** A specification whose mask implies another's selects a part of the
    other's rows. *)
Lemma filter_data_incl fr df sp sp' :
  (forall r, mask fr sp r = true -> mask fr sp' r = true) ->
  incl (filter_data fr df sp) (filter_data fr df sp')
  /\ (List.length (filter_data fr df sp) <= List.length (filter_data fr df sp'))%nat.
Proof.
  intros H. unfold filter_data. split.
  - intros lr Hin. apply in_map_iff in Hin as (r & <- & Hr).
    apply filter_In in Hr as [Hin Hm].
    apply in_map_iff. exists r. split; [reflexivity|].
    apply filter_In. auto.
  - rewrite !length_map. now apply filter_length_le.
Qed.

Lemma mask_with_outcomes_cons fr o os sp r :
  mask fr (with_outcomes (o :: os) sp) r
  = outcome_ok fr o r && mask fr (with_outcomes os sp) r.
Proof.
  rewrite !mask_eq, !outcomes_mask_forallb.
  change (date_mask (with_outcomes (o :: os) sp) r) with (date_mask sp r).
  change (date_mask (with_outcomes os sp) r) with (date_mask sp r).
  change (size_mask (with_outcomes (o :: os) sp) r) with (size_mask sp r).
  change (size_mask (with_outcomes os sp) r) with (size_mask sp r).
  change (org_mask (with_outcomes (o :: os) sp) r) with (org_mask sp r).
  change (org_mask (with_outcomes os sp) r) with (org_mask sp r).
  change (state_mask (with_outcomes (o :: os) sp) r) with (state_mask sp r).
  change (state_mask (with_outcomes os sp) r) with (state_mask sp r).
  cbn [any_outcomes_filter with_outcomes forallb].
  destruct (date_mask sp r), (size_mask sp r), (org_mask sp r),
    (state_mask sp r), (outcome_ok fr o r); reflexivity.
Qed.

(** Selecting one more outcome flag keeps exactly the rows of the previous
    result that pass the new flag, so the result never grows; a value the
    loop does not recognise changes nothing. *)
Theorem one_more_outcome_flag fr df sp o os :
  filter_data fr df (with_outcomes (o :: os) sp)
  = filter (fun lr : LRow => outcome_ok fr o lr)
           (filter_data fr df (with_outcomes os sp))
  /\ (List.length (filter_data fr df (with_outcomes (o :: os) sp))
      <= List.length (filter_data fr df (with_outcomes os sp)))%nat
  /\ (if in_dec string_dec o known_outcomes then True
      else filter_data fr df (with_outcomes (o :: os) sp)
           = filter_data fr df (with_outcomes os sp)).
Proof.
  assert (E : filter_data fr df (with_outcomes (o :: os) sp)
              = filter (fun lr : LRow => outcome_ok fr o lr)
                       (filter_data fr df (with_outcomes os sp))).
  { apply (filter_data_split fr df _ (fun _ r => outcome_ok fr o r)).
    intros r. apply mask_with_outcomes_cons. }
  split; [exact E|]. split.
  - rewrite E. rewrite <- (filter_length (fun lr : LRow => outcome_ok fr o lr)
                             (filter_data fr df (with_outcomes os sp))).
    lia.
  - destruct (in_dec string_dec o known_outcomes) as [_|Hn]; [exact I|].
    rewrite E. apply filter_true. intros lr. now apply unknown_outcome_ok.
Qed.

(** Only the set of selected flags matters: two selections with the same
    members, in any order and with any repetition, select the same rows. *)
Theorem outcome_flags_as_a_set fr df sp os os' :
  (forall o, In o os <-> In o os') ->
  filter_data fr df (with_outcomes os sp)
  = filter_data fr df (with_outcomes os' sp).
Proof.
  intros H. unfold filter_data. f_equal. apply filter_ext. intros r.
  rewrite !mask_eq, !outcomes_mask_forallb.
  change (date_mask (with_outcomes os' sp) r) with (date_mask (with_outcomes os sp) r).
  change (size_mask (with_outcomes os' sp) r) with (size_mask (with_outcomes os sp) r).
  change (org_mask (with_outcomes os' sp) r) with (org_mask (with_outcomes os sp) r).
  change (state_mask (with_outcomes os' sp) r) with (state_mask (with_outcomes os sp) r).
  cbn [any_outcomes_filter with_outcomes]. f_equal.
  apply eq_true_iff_eq. rewrite !forallb_forall.
  split; intros Hall o Ho; apply Hall; now apply H.
Qed.

Lemma outcome_flags_as_a_set_witness :
  (forall o, In o ["arrests_any"; "property_damage_any"]
             <-> In o ["property_damage_any"; "arrests_any"; "arrests_any"])
  /\ filter_data Sample.repr1 [Sample.rally; Sample.march]
       (with_outcomes ["arrests_any"; "property_damage_any"] Sample.all_rows)
     = filter_data Sample.repr1 [Sample.rally; Sample.march]
         (with_outcomes ["property_damage_any"; "arrests_any"; "arrests_any"]
                        Sample.all_rows).
Proof.
  assert (H : forall o, In o ["arrests_any"; "property_damage_any"]
                        <-> In o ["property_damage_any"; "arrests_any"; "arrests_any"]).
  { intros o. simpl. tauto. }
  split; [exact H|].
  exact (outcome_flags_as_a_set Sample.repr1 [Sample.rally; Sample.march]
           Sample.all_rows _ _ H).
Defined.

Lemma date_mask_narrower sp s e s' e' r :
  Dates.toordinal s <= Dates.toordinal s' ->
  Dates.toordinal e' <= Dates.toordinal e ->
  date_mask (with_dates (Some s') (Some e') sp) r = true ->
  date_mask (with_dates (Some s) (Some e) sp) r = true.
Proof.
  intros Hs He. unfold date_mask, Dates.leb. simpl.
  destruct (date r) as [d|]; [|discriminate].
  rewrite !andb_true_iff, !Z.leb_le. lia.
Qed.

(** Narrowing the date range (a later start, an earlier end) never adds a
    row: the narrower result is part of the wider one. *)
Theorem narrower_date_range fr df sp s e s' e' :
  Dates.toordinal s <= Dates.toordinal s' ->
  Dates.toordinal e' <= Dates.toordinal e ->
  incl (filter_data fr df (with_dates (Some s') (Some e') sp))
       (filter_data fr df (with_dates (Some s) (Some e) sp))
  /\ (List.length (filter_data fr df (with_dates (Some s') (Some e') sp))
      <= List.length (filter_data fr df (with_dates (Some s) (Some e) sp)))%nat.
Proof.
  intros Hs He. apply filter_data_incl. intros r.
  rewrite !mask_eq, !andb_true_iff.
  intros ((((Hd & Hsz) & Ho) & Hst) & Hout).
  repeat split; try assumption.
  now apply (date_mask_narrower sp s e s' e').
Qed.

Lemma narrower_date_range_witness :
  Dates.toordinal Sample.jan1 <= Dates.toordinal Sample.jan2
  /\ Dates.toordinal Sample.jan3 <= Dates.toordinal Sample.jan3
  /\ incl (filter_data Sample.repr1 [Sample.rally; Sample.march]
             (with_dates (Some Sample.jan2) (Some Sample.jan3) Sample.all_rows))
          (filter_data Sample.repr1 [Sample.rally; Sample.march]
             (with_dates (Some Sample.jan1) (Some Sample.jan3) Sample.all_rows))
  /\ (List.length (filter_data Sample.repr1 [Sample.rally; Sample.march]
                     (with_dates (Some Sample.jan2) (Some Sample.jan3) Sample.all_rows))
      <= List.length (filter_data Sample.repr1 [Sample.rally; Sample.march]
                        (with_dates (Some Sample.jan1) (Some Sample.jan3)
                                    Sample.all_rows)))%nat.
Proof.
  assert (H1 : Dates.toordinal Sample.jan1 <= Dates.toordinal Sample.jan2)
    by (vm_compute; discriminate).
  assert (H2 : Dates.toordinal Sample.jan3 <= Dates.toordinal Sample.jan3)
    by (vm_compute; discriminate).
  split; [exact H1|]. split; [exact H2|].
  exact (narrower_date_range Sample.repr1 [Sample.rally; Sample.march]
           Sample.all_rows _ _ _ _ H1 H2).
Defined.

(** The state selection: an empty selection constrains nothing; otherwise a
    row passes iff its state is one of the selected, and a row without a
    state fails.  The result is that of the selection-free specification
    restricted by this test. *)
Theorem state_selection fr df sp sel :
  (forall r, state_mask (with_states sel sp) r = true
             <-> sel = [] \/ exists s, state r = Str s /\ In s sel)
  /\ filter_data fr df (with_states sel sp)
     = filter (fun lr : LRow => state_mask (with_states sel sp) lr)
              (filter_data fr df (with_states [] sp)).
Proof.
  split.
  - intros r. unfold state_mask. cbn [state_filter with_states].
    destruct sel as [|s0 sel]; [tauto|].
    destruct (state r) as [|s].
    + split; [discriminate | intros [H | (s & H & _)]; discriminate].
    + rewrite existsb_exists. split.
      * intros (x & Hin & E). apply String.eqb_eq in E. subst x.
        right. now exists s.
      * intros [H | (s' & E & Hin)]; [discriminate|].
        inversion E; subst s'. exists s. split; [exact Hin | apply String.eqb_refl].
  - apply filter_data_split. intros r. rewrite !mask_eq.
    change (date_mask (with_states sel sp) r) with (date_mask sp r).
    change (date_mask (with_states [] sp) r) with (date_mask sp r).
    change (size_mask (with_states sel sp) r) with (size_mask sp r).
    change (size_mask (with_states [] sp) r) with (size_mask sp r).
    change (org_mask (with_states sel sp) r) with (org_mask sp r).
    change (org_mask (with_states [] sp) r) with (org_mask sp r).
    change (outcomes_mask fr (with_states sel sp) r) with (outcomes_mask fr sp r).
    change (outcomes_mask fr (with_states [] sp) r) with (outcomes_mask fr sp r).
    change (state_mask (with_states [] sp) r) with true.
    destruct (date_mask sp r), (size_mask sp r), (org_mask sp r),
      (state_mask (with_states sel sp) r), (outcomes_mask fr sp r); reflexivity.
Qed.

(* ================================================================== *)
(** * Labels, clusters and markers *)
(* ================================================================== *)

Lemma best_location_filter_nonempty r : best_location_filter r <> "".
Proof.
  rewrite best_location_filter_eq.
  destruct (named (get (location r) (Str ""))) eqn:E1.
  - now apply named_nonempty.
  - destruct (named (get (locality r) (Str ""))) eqn:E2.
    + now apply named_nonempty.
    + apply append_comma_nonempty.
Qed.

Lemma map_label_nonempty r : map_label r <> "".
Proof.
  unfold map_label.
  destruct (String.eqb_spec (best_location_map r) ""); [discriminate | assumption].
Qed.

Lemma cluster_In (dff : list LRow) c :
  In c (aggregate_events_for_map dff)
  <-> exists k, In k (map location_label (df_map dff))
                /\ c = agg_group (k, filter (fun r : LRow => String.eqb (location_label r) k)
                                            (df_map dff)).
Proof.
  unfold aggregate_events_for_map, groupby. rewrite map_map, in_map_iff.
  split; intros (k & H1 & H2).
  - exists k. rewrite string_keys_In in H2. auto.
  - exists k. rewrite string_keys_In. auto.
Qed.

Lemma df_map_In (dff : list LRow) (lr : LRow) :
  In lr (df_map dff)
  <-> exists r : LRow, In r dff /\ geolocatable r = true
                       /\ lr = mkLRow r (map_label r).
Proof.
  unfold df_map. rewrite filter_In, in_map_iff. split.
  - intros ((r & <- & Hin) & Hgeo). exists r. auto.
  - intros (r & Hin & Hgeo & ->). split; [now exists r | exact Hgeo].
Qed.

(** Every row [filter_data] returns carries a non-empty label, and every
    cluster carries a non-empty label that is also its marker text. *)
Theorem labels_are_never_empty fr df sp (dff : list LRow) :
  Forall (fun lr : LRow => location_label lr <> "") (filter_data fr df sp)
  /\ Forall (fun c => c_location_label c <> ""
                      /\ c_text c = c_location_label c)
            (aggregate_events_for_map dff).
Proof.
  split.
  - apply Forall_forall. intros lr Hin. unfold filter_data in Hin.
    apply in_map_iff in Hin as (r & <- & _). apply best_location_filter_nonempty.
  - apply Forall_forall. intros c Hc. apply cluster_In in Hc as (k & Hk & ->).
    split; [|reflexivity]. cbn [agg_group c_location_label].
    apply in_map_iff in Hk as (lr & <- & Hlr).
    apply df_map_In in Hlr as (r & _ & _ & ->). apply map_label_nonempty.
Qed.

(** Where the labels of the rows are those the aggregator computes, the
    lookup of lines 1042-1045 finds, for every cluster of the body's result,
    the rows carrying the cluster's label, of which the geolocatable ones
    are the cluster's events. *)
Lemma body_marker_opens_its_events (dff : list LRow) :
  (forall r : LRow, In r dff -> location_label r = map_label r) ->
  Forall (fun c =>
            let events := filter (fun r : LRow => String.eqb (location_label r)
                                                             (c_location_label c)) dff in
            show_event_details dff c = EventDetails events
            /\ events <> []
            /\ c_count c = List.length (filter (fun r : LRow => geolocatable r) events))
         (aggregate_events_for_map dff).
Proof.
  intros Hagree. apply Forall_forall. intros c Hc. cbv zeta.
  apply cluster_In in Hc as (k & Hk & ->).
  cbn [agg_group c_location_label c_count].
  apply in_map_iff in Hk as (lr & Hl & Hlr).
  apply df_map_In in Hlr as (r & Hin & Hgeo & ->). cbn [location_label] in Hl.
  assert (Hev : In r (filter (fun r0 : LRow => String.eqb (location_label r0) k) dff)).
  { apply filter_In. split; [exact Hin|].
    rewrite (Hagree r Hin), Hl. apply String.eqb_refl. }
  assert (Hne : filter (fun r0 : LRow => String.eqb (location_label r0) k) dff <> []).
  { intros E. rewrite E in Hev. contradiction. }
  repeat split.
  - unfold show_event_details. cbn [agg_group c_text c_hover].
    assert (Hk : k <> "") by (rewrite <- Hl; apply map_label_nonempty).
    destruct k as [|a k]; [contradiction|]. cbn [Py.truthy negb].
    destruct (filter _ dff); [contradiction | reflexivity].
  - exact Hne.
  - rewrite df_map_group_length, <- filter_andb. f_equal.
    apply filter_ext_in. intros r0 Hr0. now rewrite (Hagree r0 Hr0).
Qed.

(** In the body's result a cluster's coordinates are those of the first
    geolocatable row, in frame order, that carries the cluster's label; both
    are defined. *)
Lemma body_cluster_coordinates (dff : list LRow) :
  Forall (fun c =>
            exists (r : LRow) rest,
              filter (fun r : LRow => geolocatable r
                                      && String.eqb (map_label r) (c_location_label c))
                     dff
              = r :: rest
              /\ c_lat c = lat r /\ c_lon c = lon r
              /\ c_lat c <> None /\ c_lon c <> None)
         (aggregate_events_for_map dff).
Proof.
  apply Forall_forall. intros c Hc.
  apply cluster_In in Hc as (k & Hk & ->).
  cbn [agg_group c_location_label c_lat c_lon].
  assert (E : filter (fun r : LRow => String.eqb (location_label r) k) (df_map dff)
              = map (fun r : LRow => mkLRow r (map_label r))
                    (filter (fun r : LRow => geolocatable r && String.eqb (map_label r) k)
                            dff)).
  { unfold df_map. rewrite !filter_map_swap. simpl. f_equal.
    rewrite <- filter_andb. apply filter_ext. intros r. apply andb_comm. }
  rewrite E.
  destruct (filter (fun r : LRow => geolocatable r && String.eqb (map_label r) k) dff)
    as [|r rest] eqn:F.
  - exfalso. apply in_map_iff in Hk as (lr & Hl & Hlr).
    assert (Hin : In lr (filter (fun r : LRow => String.eqb (location_label r) k)
                                (df_map dff))).
    { apply filter_In. split; [exact Hlr|]. rewrite Hl. apply String.eqb_refl. }
    rewrite E in Hin. contradiction.
  - exists r, rest. split; [reflexivity|].
    assert (Hr : In r (r :: rest)) by now left.
    rewrite <- F in Hr. apply filter_In in Hr as [_ Hr].
    apply andb_true_iff in Hr as [Hgeo _]. unfold geolocatable in Hgeo.
    apply andb_true_iff in Hgeo as [Hla Hlo].
    cbn [map]. unfold first_valid. cbn [row lat lon].
    destruct (lat r) as [la|]; [|discriminate].
    destruct (lon r) as [lo|]; [|discriminate].
    cbn [dropna]. repeat split; discriminate.
Qed.

(** The clusters come in strictly ascending order of their labels. *)
Theorem clusters_sorted_by_label (dff : list LRow) :
  StronglySorted String_as_OT.lt
    (map c_location_label (aggregate_events_for_map dff)).
Proof.
  rewrite cluster_labels.
  apply (group_keys_sorted String.compare String_as_OT.lt).
  - intros a b H. now apply String_as_OT.cmp_lt.
  - intros a b H. apply String_as_OT.cmp_lt.
    rewrite String.compare_antisym, H. reflexivity.
  - exact String.compare_eq_iff.
  - exact String_as_OT.lt_trans.
Qed.

(* ================================================================== *)
(** * The map figure *)
(* ================================================================== *)

(** The figure built from the body's clusters holds every cluster once. *)
Lemma map_figure_traces (dff : list LRow) :
  exists ts,
    map_figure dff = MapFig ts
    /\ list_sum (map (fun t => List.length (t_points t)) ts)
       = List.length (aggregate_events_for_map dff)
    /\ Forall (fun t =>
                 t_points t <> [] /\ (0 < t_sizeref t)%Q
                 /\ ((t_name t = "Has Size"
                      /\ t_points t = filter (fun c => notna (c_size_mean c))
                                             (aggregate_events_for_map dff))
                     \/ (t_name t = "Missing Size"
                         /\ t_points t = filter (fun c => isna (c_size_mean c))
                                                (aggregate_events_for_map dff))))
              ts.
Proof.
  unfold map_figure.
  assert (Hlen : (List.length (filter (fun c => notna (c_size_mean c))
                                      (aggregate_events_for_map dff))
                  + List.length (filter (fun c => isna (c_size_mean c))
                                        (aggregate_events_for_map dff))
                  = List.length (aggregate_events_for_map dff))%nat)
    by exact (filter_length (fun c => notna (c_size_mean c))
                            (aggregate_events_for_map dff)).
  destruct (filter (fun c => notna (c_size_mean c)) (aggregate_events_for_map dff))
    as [|h hs] eqn:Eh;
    destruct (filter (fun c => isna (c_size_mean c)) (aggregate_events_for_map dff))
      as [|m ms] eqn:Em;
    eexists; (split; [reflexivity|]); cbn [app map list_sum t_points List.length] in *;
    (split; [unfold list_sum; cbn [fold_right] in *; lia|]);
    repeat (apply Forall_cons || apply Forall_nil);
    cbn [t_points t_sizeref t_name];
    (split; [discriminate|]);
    (split; [first [apply sizeref_positive | reflexivity]|]);
    first [left; split; reflexivity | right; split; reflexivity].
Qed.

(* ================================================================== *)
(** * Bounds on the scalar metrics *)
(* ================================================================== *)

Lemma Qmax_cases a b :
  (Qmax a b = a /\ (b <= a)%Q) \/ (Qmax a b = b /\ (a <= b)%Q).
Proof.
  unfold Qmax. destruct (Qle_bool a b) eqn:E.
  - right. split; [reflexivity | now apply Qle_bool_iff].
  - left. split; [reflexivity|].
    apply Qlt_le_weak, Qnot_le_lt. intros H.
    apply Qle_bool_iff in H. congruence.
Qed.

Lemma fold_Qmax_spec vs v :
  In (fold_left Qmax vs v) (v :: vs)
  /\ forall x, In x (v :: vs) -> (x <= fold_left Qmax vs v)%Q.
Proof.
  revert v. induction vs as [|w vs IH]; intros v; cbn [fold_left].
  - split; [now left|]. intros x [<-|[]]. apply Qle_refl.
  - destruct (IH (Qmax v w)) as [Hin Hle]. split.
    + destruct Hin as [E|Hin]; [|right; now right].
      rewrite <- E. destruct (Qmax_cases v w) as [[-> _]|[-> _]];
        [now left | right; now left].
    + intros x Hx.
      assert (Hm : (Qmax v w <= fold_left Qmax vs (Qmax v w))%Q)
        by (apply Hle; now left).
      destruct Hx as [<-|[<-|Hx]].
      * apply Qle_trans with (Qmax v w); [|exact Hm].
        destruct (Qmax_cases v w) as [[-> _]|[-> H]];
          [apply Qle_refl | exact H].
      * apply Qle_trans with (Qmax v w); [|exact Hm].
        destruct (Qmax_cases v w) as [[-> H]|[-> _]];
          [exact H | apply Qle_refl].
      * apply Hle. now right.
Qed.

(** [Series.max()] returns an element of the series that bounds the
    others, and NaN only on a series without a value. *)
Lemma series_max_spec xs :
  match series_max xs with
  | Some m => In m (dropna xs) /\ forall x, In x (dropna xs) -> (x <= m)%Q
  | None => dropna xs = []
  end.
Proof.
  unfold series_max. destruct (dropna xs) as [|v vs]; [reflexivity|].
  apply fold_Qmax_spec.
Qed.

Lemma dropna_In {A} (xs : list (option A)) x : In x (dropna xs) <-> In (Some x) xs.
Proof.
  induction xs as [|[y|] xs IH]; simpl.
  - tauto.
  - rewrite IH. split; intros [H|H]; auto; left; congruence.
  - rewrite IH. split; [auto | intros [H|H]; [discriminate | auto]].
Qed.

Lemma all_null_false_dropna {A} (xs : list (option A)) :
  all_null xs = false -> dropna xs <> [].
Proof.
  induction xs as [|[x|] xs IH]; simpl; intros H; try discriminate; auto.
Qed.

(** The largest-event value is never NaN: it is 0 when no row has a size,
    and otherwise the size of some row, at least as large as every size. *)
Theorem largest_event_bounds_every_size (dff : list LRow) :
  exists m,
    largest_event dff = Some m
    /\ Forall (fun r : LRow =>
                 match size_mean r with
                 | Some q => (q <= m)%Q
                 | None => True
                 end) dff
    /\ if all_null (sizes dff) then m = 0%Q
       else exists r : LRow, In r dff /\ size_mean r = Some m.
Proof.
  unfold largest_event.
  destruct (all_null (sizes dff)) eqn:E; cbn [negb].
  - exists 0%Q. repeat split. apply Forall_forall. intros r Hr.
    apply all_null_Forall in E. rewrite Forall_forall in E.
    assert (H : size_mean r = None).
    { apply E. unfold sizes. apply in_map_iff. now exists r. }
    now rewrite H.
  - pose proof (series_max_spec (sizes dff)) as H.
    destruct (series_max (sizes dff)) as [m|].
    + destruct H as [Hin Hle]. exists m. repeat split.
      * apply Forall_forall. intros r Hr.
        destruct (size_mean r) as [q|] eqn:Eq; [|exact I].
        apply Hle, dropna_In. unfold sizes. apply in_map_iff.
        exists r. auto.
      * apply dropna_In in Hin. unfold sizes in Hin.
        apply in_map_iff in Hin as (r & Hs & Hr). now exists r.
    + exfalso. now apply (all_null_false_dropna _ E).
Qed.

(** The share of events without a size lies between 0 and 100. *)
Theorem percent_no_size_in_range (dff : list LRow) :
  (0 <= percent_no_size dff)%Q /\ (percent_no_size dff <= 100)%Q.
Proof.
  unfold percent_no_size, total_events.
  destruct (0 <? List.length dff)%nat eqn:E; [|split; discriminate].
  apply Nat.ltb_lt in E.
  assert (Hk : (List.length (filter isna (sizes dff)) <= List.length dff)%nat).
  { pose proof (filter_length isna (sizes dff)) as H.
    unfold sizes in *. rewrite length_map in H. lia. }
  set (k := List.length (filter isna (sizes dff))) in *.
  set (n := List.length dff) in *.
  assert (Hn : (0 < inject_Z (Z.of_nat n))%Q)
    by (change 0%Q with (inject_Z 0); rewrite <- Zlt_Qlt; lia).
  assert (Hk0 : (0 <= inject_Z (Z.of_nat k))%Q)
    by (change 0%Q with (inject_Z 0); rewrite <- Zle_Qle; lia).
  assert (Hkn : (inject_Z (Z.of_nat k) <= inject_Z (Z.of_nat n))%Q)
    by (rewrite <- Zle_Qle; lia).
  split.
  - apply Qle_shift_div_l; [exact Hn|]. lra.
  - apply Qle_shift_div_r; [exact Hn|]. lra.
Qed.


(* ================================================================== *)
(** * Days, spans and buckets *)
(* ================================================================== *)

Lemma dated_days {A} (f : LRow -> A) (dff : list LRow) :
  map fst (dated (map (fun r : LRow => (date r, f r)) dff)) = event_days dff.
Proof.
  unfold event_days. induction dff as [|r dff IH]; simpl; [reflexivity|].
  destruct (date r); simpl; now rewrite IH.
Qed.

Lemma event_days_nil (dff : list LRow) :
  event_days dff = [] -> Forall (fun r : LRow => date r = None) dff.
Proof.
  unfold event_days. induction dff as [|r dff IH]; simpl; intros H;
    [constructor|].
  destruct (date r) eqn:E; simpl in H; [discriminate|].
  constructor; auto.
Qed.

Lemma event_days_length (dff : list LRow) :
  List.length (event_days dff) = List.length (dated_rows dff).
Proof.
  unfold event_days, dated_rows. induction dff as [|r dff IH]; simpl;
    [reflexivity|].
  destruct (date r); simpl; now rewrite IH.
Qed.

Lemma resample_eq {A} (rows : list (option Dates.Date * A)) :
  resample rows
  = map (fun day => (day, on_day day (dated rows)))
        (day_span (map fst (dated rows))).
Proof. unfold resample, day_span. now destruct (map fst (dated rows)). Qed.

Lemma fold_min_max_spec (ds : list Z) (d : Z) :
  In (fold_left Z.min ds d) (d :: ds)
  /\ In (fold_left Z.max ds d) (d :: ds)
  /\ forall x, In x (d :: ds) ->
               fold_left Z.min ds d <= x <= fold_left Z.max ds d.
Proof.
  revert d. induction ds as [|e ds IH]; intros d; cbn [fold_left].
  - split; [now left|]. split; [now left|].
    intros x [<-|[]]. lia.
  - destruct (IH (Z.min d e)) as (Hmin & _ & Hlo).
    destruct (IH (Z.max d e)) as (_ & Hmax & Hhi).
    split; [|split].
    + destruct Hmin as [E|Hin]; [|right; now right].
      rewrite <- E. destruct (Z.min_spec d e) as [[_ ->]|[_ ->]];
        [now left | right; now left].
    + destruct Hmax as [E|Hin]; [|right; now right].
      rewrite <- E. destruct (Z.max_spec d e) as [[_ ->]|[_ ->]];
        [right; now left | now left].
    + intros x H.
      assert (L1 : fold_left Z.min ds (Z.min d e) <= Z.min d e)
        by (apply Hlo; now left).
      assert (L2 : Z.max d e <= fold_left Z.max ds (Z.max d e))
        by (apply Hhi; now left).
      destruct H as [<-|[<-|H]]; [lia | lia |].
      split; [apply Hlo | apply Hhi]; now right.
Qed.

Lemma day_range_In lo hi x : In x (day_range lo hi) <-> lo <= x <= hi.
Proof.
  unfold day_range. rewrite in_map_iff. split.
  - intros (i & <- & Hi). apply in_seq in Hi. lia.
  - intros H. exists (Z.to_nat (x - lo)). split; [lia|].
    apply in_seq. lia.
Qed.

Lemma day_range_NoDup lo hi : NoDup (day_range lo hi).
Proof.
  unfold day_range. apply NoDup_map_NoDup_ForallPairs; [|apply seq_NoDup].
  intros i j _ _ H. lia.
Qed.

Lemma day_range_length lo hi :
  List.length (day_range lo hi) = Z.to_nat (hi - lo + 1).
Proof. unfold day_range. now rewrite length_map, length_seq. Qed.

(** The span of a list of days holds every day of the list. *)
Lemma day_span_In days x : In x days -> In x (day_span days).
Proof.
  destruct days as [|d ds]; [contradiction|]. intros H. cbn [day_span].
  apply day_range_In. now apply fold_min_max_spec.
Qed.

Lemma day_span_bounds days x :
  In x (day_span days) ->
  exists lo hi, In lo days /\ In hi days /\ lo <= x <= hi.
Proof.
  destruct days as [|d ds]; [contradiction|]. cbn [day_span]. intros H.
  apply day_range_In in H.
  destruct (fold_min_max_spec ds d) as (Hlo & Hhi & _). eauto.
Qed.

Lemma day_span_NoDup days : NoDup (day_span days).
Proof. destruct days; [constructor | apply day_range_NoDup]. Qed.

Lemma on_day_absent {A} (d : Z) (xs : list (Z * A)) :
  ~ In d (map fst xs) -> on_day d xs = [].
Proof.
  unfold on_day. induction xs as [|[k a] xs IH]; simpl; intros H; [reflexivity|].
  destruct (Z.eqb_spec k d) as [->|_]; [exfalso; apply H; now left|].
  apply IH. tauto.
Qed.

Lemma Z_indicator_sum (x : Z) (days : list Z) :
  NoDup days ->
  list_sum (map (fun d => if x =? d then 1%nat else O) days)
  = if in_dec Z.eq_dec x days then 1%nat else O.
Proof.
  induction 1 as [|d days Hd Hnd IH]; simpl; [reflexivity|].
  rewrite IH.
  destruct (Z.eqb_spec x d) as [E|Hne].
  - subst x. destruct (Z.eq_dec d d) as [E|C]; [|congruence].
    destruct (in_dec Z.eq_dec d days); [contradiction | reflexivity].
  - destruct (Z.eq_dec d x) as [C|E]; [congruence|].
    destruct (in_dec Z.eq_dec x days); reflexivity.
Qed.

(** Over distinct days that cover every entry, the bucket sizes add up to
    the number of entries. *)
Lemma bucket_sizes_sum {A} (xs : list (Z * A)) (days : list Z) :
  NoDup days ->
  (forall x, In x (map fst xs) -> In x days) ->
  list_sum (map (fun d => List.length (on_day d xs)) days) = List.length xs.
Proof.
  intros Hnd. unfold on_day.
  induction xs as [|[k a] xs IH]; intros Hcover; simpl.
  - apply list_sum_zero.
  - rewrite <- IH by (intros; apply Hcover; now right).
    transitivity
      (list_sum (map (fun d => ((if (k =? d)%Z then 1 else 0)
                                + List.length (map snd (filter (fun p : Z * A => (fst p =? d)%Z) xs)))%nat)
                     days)).
    + f_equal. apply map_ext. intros d. now destruct (k =? d).
    + rewrite list_sum_map_plus, Z_indicator_sum by exact Hnd.
      destruct (in_dec Z.eq_dec k days) as [_|C]; [reflexivity|].
      exfalso. apply C, Hcover. now left.
Qed.

Lemma group_keys_nil {K} (cmp : K -> K -> comparison) (l : list K) :
  group_keys cmp l = [] -> l = [].
Proof.
  destruct l as [|k l]; [reflexivity|]. simpl.
  destruct (group_keys cmp l) as [|k' ks]; simpl; [discriminate|].
  destruct (cmp k k'); discriminate.
Qed.

Lemma dropna_map_Some {A B} (f : A -> B) (l : list A) :
  dropna (map (fun x => Some (f x)) l) = map f l.
Proof. induction l; simpl; congruence. Qed.

Lemma daily_size_sums_eq (dff : list LRow) :
  daily_size_sums dff
  = map (fun d => (d, series_sum (map (fun r : LRow => size_mean r) (events_on dff d))))
        (group_keys Z.compare (event_days dff)).
Proof.
  unfold daily_size_sums. rewrite dated_days.
  apply map_ext. intros d. now rewrite bucket_events.
Qed.

Lemma daily_participants_eq (dff : list LRow) :
  daily_participants dff
  = map (fun d => (d, series_sum (map (fun r : LRow => size_mean r) (events_on dff d))))
        (day_span (event_days dff)).
Proof.
  unfold daily_participants. rewrite resample_eq, map_map, dated_days.
  apply map_ext. intros d. cbn [fst snd]. now rewrite bucket_events.
Qed.

Lemma daily_counts_eq (dff : list LRow) :
  daily_counts dff
  = map (fun d => (d, List.length (events_on dff d))) (day_span (event_days dff)).
Proof.
  unfold daily_counts. rewrite resample_eq, map_map, dated_days.
  apply map_ext. intros d. cbn [fst snd]. now rewrite bucket_events, length_map.
Qed.

(* ================================================================== *)
(** * The peak day and the daily series *)
(* ================================================================== *)

(** The peak day is NaN iff no row has a date.  Otherwise it is the sum of
    sizes of some day with an event and bounds the sum of every such day;
    and when it is not negative it is also the largest value of the daily
    participant series, whose days without events count as 0. *)
Theorem peak_day_is_the_largest_daily_sum (dff : list LRow) :
  let day_sum d := series_sum (map (fun r : LRow => size_mean r) (events_on dff d)) in
  match peak_day dff with
  | None => Forall (fun r : LRow => date r = None) dff
  | Some p =>
      (exists d, In d (event_days dff) /\ p = day_sum d)
      /\ Forall (fun d => (day_sum d <= p)%Q) (event_days dff)
      /\ ((0 <= p)%Q ->
          In p (map snd (daily_participants dff))
          /\ Forall (fun b => (snd b <= p)%Q) (daily_participants dff))
  end.
Proof.
  cbv zeta. unfold peak_day.
  rewrite daily_size_sums_eq, map_map. cbn [snd].
  match goal with
  | |- context [series_max ?l] => pose proof (series_max_spec l) as H
  end.
  rewrite (dropna_map_Some
             (fun d => series_sum (map (fun r : LRow => size_mean r) (events_on dff d))))
    in H.
  destruct (series_max _) as [p|].
  - destruct H as [Hin Hle].
    apply in_map_iff in Hin as (d & Hd & Hk). rewrite Z_keys_In in Hk.
    assert (Hall : forall x, In x (event_days dff) ->
                     (series_sum (map (fun r : LRow => size_mean r) (events_on dff x))
                      <= p)%Q).
    { intros x Hx. apply Hle. apply in_map_iff. exists x.
      split; [reflexivity | now apply Z_keys_In]. }
    split; [exists d; split; [exact Hk | now symmetry]|].
    split; [apply Forall_forall; exact Hall|].
    intros Hp. rewrite daily_participants_eq, map_map. cbn [snd]. split.
    + apply in_map_iff. exists d. split; [exact Hd | now apply day_span_In].
    + apply Forall_forall. intros b Hb.
      apply in_map_iff in Hb as (x & <- & Hx). cbn [snd].
      destruct (in_dec Z.eq_dec x (event_days dff)) as [Hin|Hout]; [now apply Hall|].
      rewrite <- (bucket_events (fun r : LRow => size_mean r) dff x).
      rewrite on_day_absent by (now rewrite dated_days).
      exact Hp.
  - apply map_eq_nil, group_keys_nil in H. now apply event_days_nil.
Qed.

Example peak_day_of_three :
  peak_day (map Sample.label [Sample.rally; Sample.vigil; Sample.march])
  = Some (200 + 0)%Q.
Proof. vm_compute. reflexivity. Qed.

Lemma cumsum_length acc xs : List.length (cumsum acc xs) = List.length xs.
Proof. revert acc. induction xs; intros; simpl; auto. Qed.

Lemma last_default {A} (l : list A) (d d' : A) : l <> [] -> last l d = last l d'.
Proof.
  induction l as [|a l IH]; intros H; [contradiction|].
  destruct l as [|b l]; [reflexivity|].
  change (last (b :: l) d = last (b :: l) d'). apply IH. discriminate.
Qed.

Lemma cumsum_last acc xs : last (cumsum acc xs) acc = (acc + list_sum xs)%nat.
Proof.
  revert acc. induction xs as [|x xs IH]; intros acc; [simpl; lia|].
  cbn [cumsum list_sum fold_right].
  destruct xs as [|y ys]; [simpl; lia|].
  change (last (cumsum (acc + x) (y :: ys)) acc
          = (acc + (x + list_sum (y :: ys)))%nat).
  rewrite (last_default _ acc (acc + x)%nat) by (simpl; discriminate).
  rewrite IH. lia.
Qed.

Lemma cumsum_sorted acc xs :
  StronglySorted le (cumsum acc xs) /\ Forall (le acc) (cumsum acc xs).
Proof.
  revert acc. induction xs as [|x xs IH]; intros acc; simpl.
  - split; constructor.
  - destruct (IH (acc + x)%nat) as [Hs Hall]. split.
    + constructor; assumption.
    + constructor; [lia|].
      eapply Forall_impl; [|exact Hall]. intros; simpl in *; lia.
Qed.

Lemma map_snd_combine_same_length {A B} (l1 : list A) (l2 : list B) :
  List.length l2 = List.length l1 -> map snd (combine l1 l2) = l2.
Proof.
  revert l2. induction l1 as [|a l1 IH]; intros [|b l2] H; simpl in *;
    try reflexivity; try discriminate.
  f_equal. apply IH. lia.
Qed.

Lemma cumulative_values (dff : list LRow) :
  map snd (cumulative_counts dff) = cumsum 0 (map snd (daily_counts dff)).
Proof.
  unfold cumulative_counts. apply map_snd_combine_same_length.
  now rewrite cumsum_length, !length_map.
Qed.

(** The daily counts add up to the number of dated rows; the cumulative
    series never decreases and ends at that number. *)
Theorem daily_counts_add_up (dff : list LRow) :
  list_sum (map snd (daily_counts dff)) = List.length (dated_rows dff)
  /\ StronglySorted le (map snd (cumulative_counts dff))
  /\ last (map snd (cumulative_counts dff)) O = List.length (dated_rows dff).
Proof.
  assert (Hsum : list_sum (map snd (daily_counts dff)) = List.length (dated_rows dff)).
  { rewrite daily_counts_eq, map_map. cbn [snd].
    rewrite <- event_days_length. unfold event_days at 2. rewrite length_map.
    rewrite <- (bucket_sizes_sum (dated (map (fun r : LRow => (date r, tt)) dff))
                  (day_span (event_days dff))).
    - f_equal. apply map_ext. intros d.
      now rewrite (bucket_events (fun _ => tt)), length_map.
    - apply day_span_NoDup.
    - intros x Hx. apply day_span_In. exact Hx. }
  split; [exact Hsum|]. rewrite cumulative_values. split.
  - apply cumsum_sorted.
  - rewrite cumsum_last, Hsum. reflexivity.
Qed.

Lemma momentum_axis (dff : list LRow) :
  map m_day (dff_momentum dff) = day_span (sized_days dff).
Proof.
  unfold dff_momentum, sized_days, participants_numeric.
  set (kept := filter _ (map _ dff)).
  rewrite resample_eq.
  set (buckets := map _ (day_span (map fst (dated kept)))).
  set (alts := rolling_sum 7 (map (fun b => series_sum (snd b)) buckets)).
  assert (E : map fst (combine buckets alts) = buckets).
  { apply map_fst_combine_same_length. subst alts.
    now rewrite rolling_sum_length, length_map. }
  transitivity (map fst (map fst (combine buckets alts))).
  - rewrite !map_map. apply map_ext. now intros [[d vs] alt].
  - rewrite E. subst buckets. rewrite map_map. apply map_id.
Qed.

Lemma sized_days_incl (dff : list LRow) : incl (sized_days dff) (event_days dff).
Proof.
  unfold sized_days, event_days. induction dff as [|r dff IH]; simpl;
    [intros x []|].
  destruct (date r) as [d|]; simpl.
  - destruct (size_mean r); simpl.
    + intros x [<-|H]; [now left | right; now apply IH].
    + intros x H. right. now apply IH.
  - exact IH.
Qed.

Lemma day_span_incl days days' : incl days days' -> incl (day_span days) (day_span days').
Proof.
  intros H x Hx. apply day_span_bounds in Hx as (lo & hi & Hlo & Hhi & Hx).
  apply H in Hlo, Hhi.
  destruct days' as [|d ds]; [contradiction|]. cbn [day_span].
  apply day_range_In.
  destruct (fold_min_max_spec ds d) as (_ & _ & Hb).
  pose proof (Hb lo Hlo). pose proof (Hb hi Hhi). lia.
Qed.

(** The daily, cumulative and participant series share one day axis: every
    calendar day from the earliest to the latest dated row, once each and in
    order.  The momentum series runs over a part of it. *)
Theorem series_share_the_day_axis (dff : list LRow) :
  map fst (daily_counts dff) = day_span (event_days dff)
  /\ map fst (cumulative_counts dff) = day_span (event_days dff)
  /\ map fst (daily_participants dff) = day_span (event_days dff)
  /\ incl (map m_day (dff_momentum dff)) (day_span (event_days dff))
  /\ NoDup (day_span (event_days dff)).
Proof.
  assert (E : map fst (daily_counts dff) = day_span (event_days dff)).
  { rewrite daily_counts_eq, map_map. apply map_id. }
  split; [exact E|]. split; [|split; [|split]].
  - unfold cumulative_counts. rewrite map_fst_combine_same_length; [exact E|].
    now rewrite cumsum_length, !length_map.
  - rewrite daily_participants_eq, map_map. apply map_id.
  - rewrite momentum_axis. apply day_span_incl, sized_days_incl.
  - apply day_span_NoDup.
Qed.

(** A trend line is drawn iff the dated events with a size fall on at least
    two different days; it then has one point per day of the momentum
    series. *)
Theorem trendline_needs_two_days (dff : list LRow) :
  match trendline dff with
  | None => forall d1 d2, In d1 (sized_days dff) -> In d2 (sized_days dff) -> d1 = d2
  | Some pts =>
      map fst pts = map m_day (dff_momentum dff)
      /\ exists d1 d2, In d1 (sized_days dff) /\ In d2 (sized_days dff) /\ d1 < d2
  end.
Proof.
  unfold trendline.
  assert (L : List.length (dff_momentum dff)
              = List.length (day_span (sized_days dff))).
  { rewrite <- momentum_axis. now rewrite length_map. }
  rewrite L.
  destruct (sized_days dff) as [|d ds] eqn:E.
  - simpl. intros d1 d2 [].
  - cbn [day_span]. rewrite day_range_length.
    destruct (fold_min_max_spec ds d) as (Hlo & Hhi & Hb).
    destruct (1 <? Z.to_nat (fold_left Z.max ds d - fold_left Z.min ds d + 1))%nat
      eqn:T.
    + apply Nat.ltb_lt in T.
      destruct (polyfit1 _) as [a b]. split.
      * rewrite map_map. reflexivity.
      * exists (fold_left Z.min ds d), (fold_left Z.max ds d).
        repeat split; [exact Hlo | exact Hhi | lia].
    + apply Nat.ltb_ge in T. intros d1 d2 H1 H2.
      pose proof (Hb d1 H1). pose proof (Hb d2 H2). lia.
Qed.

Example trendline_of_one_day :
  trendline Sample.same_day = None.
Proof. vm_compute. reflexivity. Qed.

(* ================================================================== *)
(** * The order of the exported columns *)
(* ================================================================== *)

Lemma assign_extends x cols :
  exists added, Columns.assign x cols = (cols ++ added)%list.
Proof.
  unfold Columns.assign. destruct (Columns.has x cols).
  - exists []. now rewrite app_nil_r.
  - now exists [x].
Qed.

Lemma assign_NoDup x cols : NoDup cols -> NoDup (Columns.assign x cols).
Proof.
  intros H. unfold Columns.assign. destruct (Columns.has x cols) eqn:E; [exact H|].
  apply NoDup_app; [exact H | repeat constructor; intros [] |].
  intros a Ha [<-|[]]. apply has_In in Ha. congruence.
Qed.

Lemma assign_all_extends xs cols :
  exists added,
    fold_left (fun cols x => Columns.assign x cols) xs cols = (cols ++ added)%list.
Proof.
  revert cols. induction xs as [|x xs IH]; intros cols; simpl.
  - exists []. now rewrite app_nil_r.
  - destruct (assign_extends x cols) as (a1 & ->).
    destruct (IH (cols ++ a1)%list) as (a2 & ->).
    exists (a1 ++ a2)%list. now rewrite app_assoc.
Qed.

Lemma assign_all_NoDup xs cols :
  NoDup cols -> NoDup (fold_left (fun cols x => Columns.assign x cols) xs cols).
Proof.
  revert cols. induction xs as [|x xs IH]; intros cols H; simpl; [exact H|].
  apply IH. now apply assign_NoDup.
Qed.

Lemma drop_absent x cols : ~ In x cols -> Columns.drop x cols = cols.
Proof.
  intros H. unfold Columns.drop. induction cols as [|c cols IH]; simpl;
    [reflexivity|].
  destruct (String.eqb_spec c x) as [->|_]; [exfalso; apply H; now left|].
  simpl. f_equal. apply IH. intros Hin. apply H. now right.
Qed.

(** Without a click nothing is exported.  After a click the export starts
    with the columns of the CSV header in their order, [fallback] left out,
    followed by the columns added after loading; if the header names no
    column twice, neither does the export. *)
Theorem export_keeps_the_header_order (n : nat) (choice : string) (csv : list string) :
  Columns.download_csv 0 choice csv = None
  /\ exists cols added,
       Columns.download_csv (S n) choice csv = Some cols
       /\ cols = (Columns.drop "fallback" csv ++ added)%list
       /\ (NoDup csv -> NoDup cols).
Proof.
  split; [reflexivity|].
  unfold Columns.download_csv.
  set (export_df := if String.eqb choice "full" then Columns.df_columns csv
                    else Columns.filter_data_columns csv).
  assert (Hext : exists added, export_df = (csv ++ added)%list).
  { subst export_df. unfold Columns.filter_data_columns, Columns.df_columns.
    destruct (String.eqb choice "full"); [apply assign_extends|].
    destruct (assign_extends "participants_numeric" csv) as (a1 & E1). rewrite E1.
    destruct (assign_all_extends Columns.required_cols (csv ++ a1)%list) as (a2 & E2).
    rewrite E2.
    destruct (assign_extends "location_label" ((csv ++ a1) ++ a2)%list) as (a3 & E3).
    rewrite E3. exists (a1 ++ a2 ++ a3)%list. now rewrite !app_assoc. }
  assert (Hnd : NoDup csv -> NoDup export_df).
  { intros H. subst export_df. unfold Columns.filter_data_columns, Columns.df_columns.
    destruct (String.eqb choice "full"); [now apply assign_NoDup|].
    now apply assign_NoDup, assign_all_NoDup, assign_NoDup. }
  destruct Hext as (added & Hadd).
  destruct (Columns.has "fallback" export_df) eqn:F.
  - exists (Columns.drop "fallback" export_df), (Columns.drop "fallback" added).
    split; [reflexivity|]. split.
    + rewrite Hadd. unfold Columns.drop. apply filter_app.
    + intros H. unfold Columns.drop. apply NoDup_filter. now apply Hnd.
  - exists export_df, added. split; [reflexivity|]. split; [|exact Hnd].
    rewrite drop_absent; [exact Hadd|].
    intros Hin. assert (Hf : In "fallback" export_df)
      by (rewrite Hadd; apply in_or_app; now left).
    apply has_In in Hf. congruence.
Qed.

(* ================================================================== *)
(** * [jitter_coords] *)
(* ================================================================== *)

Lemma jitter_rows_length draw seen i rows :
  List.length (jitter_rows draw seen i rows) = List.length rows.
Proof.
  revert seen i. induction rows as [|r rows IH]; intros seen i; simpl;
    [reflexivity|].
  now rewrite IH.
Qed.

Lemma jitter_rows_nth draw rows :
  forall seen i0 i,
    nth_error (jitter_rows draw seen i0 rows) i
    = option_map (fun r => if existsb (same_coords r) (seen ++ firstn i rows)
                           then shift (draw (i0 + i)%nat) r else r)
                 (nth_error rows i).
Proof.
  induction rows as [|r rows IH]; intros seen i0 i.
  - now destruct i.
  - destruct i as [|i]; cbn [jitter_rows nth_error firstn option_map].
    + now rewrite app_nil_r, Nat.add_0_r.
    + rewrite IH. rewrite <- app_assoc. cbn [app].
      now rewrite Nat.add_succ_r.
Qed.

(** Row [i] of the result, by the rows before it. *)
Lemma jitter_coords_nth (draw : nat -> Q * Q) (df : list Row) :
  List.length (jitter_coords draw df) = List.length df
  /\ forall i,
       nth_error (jitter_coords draw df) i
       = option_map (fun r => if existsb (same_coords r) (firstn i df)
                              then shift (draw i) r else r)
                    (nth_error df i).
Proof.
  unfold jitter_coords. split; [apply jitter_rows_length|].
  intros i. now rewrite jitter_rows_nth.
Qed.

Lemma set_coords_same r : set_coords r (lat r) (lon r) = r.
Proof. now destruct r. Qed.

Lemma jitter_rows_coordinates draw seen i rows :
  Forall2 (fun a b =>
             set_coords b (lat a) (lon a) = a
             /\ (lat b = None <-> lat a = None)
             /\ (lon b = None <-> lon a = None))
          rows (jitter_rows draw seen i rows).
Proof.
  revert seen i. induction rows as [|r rows IH]; intros seen i; simpl;
    constructor; [|apply IH].
  destruct (existsb (same_coords r) seen).
  - unfold shift.
    change (set_coords (set_coords r
                          (option_map (fun x => x + fst (draw i))%Q (lat r))
                          (option_map (fun y => y + snd (draw i))%Q (lon r)))
                       (lat r) (lon r))
      with (set_coords r (lat r) (lon r)).
    split; [apply set_coords_same|].
    change (lat (set_coords r (option_map (fun x => x + fst (draw i))%Q (lat r))
                            (option_map (fun y => y + snd (draw i))%Q (lon r))))
      with (option_map (fun x => x + fst (draw i))%Q (lat r)).
    change (lon (set_coords r (option_map (fun x => x + fst (draw i))%Q (lat r))
                            (option_map (fun y => y + snd (draw i))%Q (lon r))))
      with (option_map (fun y => y + snd (draw i))%Q (lon r)).
    destruct (lat r), (lon r); simpl; split; split; intros; congruence.
  - split; [apply set_coords_same | tauto].
Qed.

(** [jitter_coords] changes nothing but latitude and longitude, and a
    missing coordinate stays missing. *)
Theorem jitter_touches_coordinates_only (draw : nat -> Q * Q) (df : list Row) :
  Forall2 (fun a b =>
             set_coords b (lat a) (lon a) = a
             /\ (lat b = None <-> lat a = None)
             /\ (lon b = None <-> lon a = None))
          df (jitter_coords draw df).
Proof. apply jitter_rows_coordinates. Qed.

Lemma jitter_rows_distinct draw rows :
  forall seen i,
    (forall r s, In r rows -> In s seen -> same_coords r s = false) ->
    ForallOrdPairs (fun a b => same_coords b a = false) rows ->
    jitter_rows draw seen i rows = rows.
Proof.
  induction rows as [|r rows IH]; intros seen i Hseen Hpairs; simpl;
    [reflexivity|].
  inversion Hpairs as [|a l Hr Hrest]; subst.
  assert (E : existsb (same_coords r) seen = false).
  { apply not_true_is_false. intros H. apply existsb_exists in H as (s & Hs & E).
    rewrite (Hseen r s) in E; [discriminate | now left | exact Hs]. }
  rewrite E. f_equal. apply IH; [|exact Hrest].
  intros r' s Hr' Hs. apply in_app_or in Hs as [Hs|[<-|[]]].
  - apply Hseen; [now right | exact Hs].
  - rewrite Forall_forall in Hr. now apply Hr.
Qed.

(** A frame in which no two rows share a coordinate pair is returned
    unchanged, whatever is drawn. *)
Theorem jitter_leaves_distinct_coordinates (draw : nat -> Q * Q) (df : list Row) :
  ForallOrdPairs (fun a b => same_coords b a = false) df ->
  jitter_coords draw df = df.
Proof.
  intros H. apply jitter_rows_distinct; [|exact H].
  intros r s _ [].
Qed.

Lemma jitter_leaves_distinct_coordinates_witness :
  ForallOrdPairs (fun a b => same_coords b a = false)
                 [Sample.rally; Sample.march; Sample.undated]
  /\ jitter_coords (fun _ => (1 # 100, 1 # 100))
                   [Sample.rally; Sample.march; Sample.undated]
     = [Sample.rally; Sample.march; Sample.undated].
Proof.
  assert (H : ForallOrdPairs (fun a b => same_coords b a = false)
                             [Sample.rally; Sample.march; Sample.undated]).
  { repeat constructor. }
  split; [exact H|].
  exact (jitter_leaves_distinct_coordinates _ _ H).
Defined.

Example jitter_second_of_two :
  map (fun r => (lat r, lon r))
      (jitter_coords (fun _ => (1 # 100, -1 # 100)) [Sample.rally; Sample.sit_in])
  = [(Some (34 # 1), Some (-118 # 1));
     (Some ((34 # 1) + (1 # 100)), Some ((-118 # 1) + (-1 # 100)))]%Q.
Proof. reflexivity. Qed.

(* ================================================================== *)
(** * Further properties of the metrics and series *)
(* ================================================================== *)

Lemma peak_day_none (dff : list LRow) :
  peak_day dff = None -> Forall (fun r : LRow => date r = None) dff.
Proof.
  unfold peak_day. intros H.
  pose proof (series_max_spec (map (fun p => Some (snd p)) (daily_size_sums dff)))
    as S.
  rewrite H, (dropna_map_Some snd) in S.
  apply map_eq_nil in S. rewrite daily_size_sums_eq in S.
  apply map_eq_nil, group_keys_nil in S. now apply event_days_nil.
Qed.

(** The percent-of-population value is NaN exactly when no row of the
    filtered set has a date; the card then reads [nan%]. *)
Theorem percent_of_population_nan_iff_undated (dff : list LRow) :
  (percent_us_pop dff = None <-> Forall (fun r : LRow => date r = None) dff)
  /\ (percent_us_pop dff = None <->
      nth 1 (kpis (update_all_body dff)) ("", "")
      = ("nan%", "Largest Daily Participant Count as % of US population:")).
Proof.
  assert (Hp : percent_us_pop dff = None <-> peak_day dff = None).
  { unfold percent_us_pop. destruct (peak_day dff) as [p|]; simpl.
    - destruct (negb (Qeq_bool p 0)); split; discriminate.
    - tauto. }
  split.
  - rewrite Hp. split; [apply peak_day_none | apply peak_day_undated].
  - assert (E : nth 1 (kpis (update_all_body dff)) ("", "")
                = (Py.format_fixed false 4 (percent_us_pop dff) ++ "%",
                   "Largest Daily Participant Count as % of US population:")).
    { unfold update_all_body. now destruct (no_location_data dff). }
    rewrite E. split.
    + intros ->. reflexivity.
    + destruct (percent_us_pop dff) as [q|]; [|reflexivity].
      intros H. exfalso. apply (f_equal fst) in H. cbn [fst] in H.
      unfold Py.format_fixed in H.
      destruct (Qlt_le_dec q 0); cbn [append] in H; [discriminate H|].
      unfold Py.str_nat in H.
      destruct (N.to_uint _) as [|u|u|u|u|u|u|u|u|u|u]; simpl in H; discriminate H.
Qed.

(** Under the size mode [no] the mean size is always NaN and its card reads
    [nan]; under [has] the mean is a number whenever a row is kept. *)
Theorem size_mode_decides_the_mean fr df sp :
  mean_size (filter_data fr df (with_size_filter "no" sp)) = None
  /\ nth 3 (kpis (update_all fr df (with_size_filter "no" sp))) ("", "")
     = ("nan", "Average Participant Count")
  /\ match filter_data fr df (with_size_filter "has" sp) with
     | [] => True
     | _ :: _ => mean_size (filter_data fr df (with_size_filter "has" sp)) <> None
     end.
Proof.
  assert (Hno : all_null (sizes (filter_data fr df (with_size_filter "no" sp))) = true).
  { apply all_null_Forall. unfold sizes, filter_data.
    rewrite map_map, Forall_map. apply Forall_forall. intros r Hr.
    apply filter_In in Hr as [_ Hm]. rewrite mask_eq, !andb_true_iff in Hm.
    destruct Hm as ((((_ & Hs) & _) & _) & _).
    unfold size_mask in Hs. cbn in Hs. cbn [row size_mean].
    now destruct (size_mean r). }
  destruct (mean_size_card_nan _ Hno) as [E1 E2].
  split; [exact E1|]. split; [exact E2|].
  destruct (filter_data fr df (with_size_filter "has" sp)) as [|lr rest] eqn:E;
    [exact I|].
  assert (Hs : size_mean lr <> None).
  { assert (Hin : In lr (filter_data fr df (with_size_filter "has" sp)))
      by (rewrite E; now left).
    unfold filter_data in Hin. apply in_map_iff in Hin as (r & <- & Hr).
    apply filter_In in Hr as [_ Hm]. rewrite mask_eq, !andb_true_iff in Hm.
    destruct Hm as ((((_ & Hs) & _) & _) & _).
    unfold size_mask in Hs. cbn in Hs. cbn [row size_mean].
    now destruct (size_mean r). }
  unfold mean_size, series_mean, sizes. cbn [map].
  destruct (size_mean lr) as [q|]; [|contradiction].
  cbn [dropna]. discriminate.
Qed.

(** In the body's result a cluster's mean size is the mean of the non-null
    sizes of its rows, and NaN when none of them has a size. *)
Lemma body_cluster_mean_size (dff : list LRow) :
  Forall (fun c =>
            c_size_mean c
            = series_mean
                (map (fun r : LRow => size_mean r)
                     (filter (fun r : LRow => geolocatable r
                                             && String.eqb (map_label r) (c_location_label c))
                             dff)))
         (aggregate_events_for_map dff).
Proof.
  apply Forall_forall. intros c Hc.
  apply cluster_In in Hc as (k & _ & ->).
  cbn [agg_group c_location_label c_size_mean].
  assert (E : map (fun r : LRow => size_mean r)
                  (filter (fun r : LRow => String.eqb (location_label r) k) (df_map dff))
              = map (fun r : LRow => size_mean r)
                    (filter (fun r : LRow => geolocatable r && String.eqb (map_label r) k)
                            dff)).
  { unfold df_map. rewrite !filter_map_swap, map_map. cbn [row size_mean location_label].
    f_equal. rewrite <- filter_andb. apply filter_ext. intros r. apply andb_comm. }
  rewrite E.
  destruct (existsb notna _) eqn:X; [reflexivity|].
  unfold series_mean.
  match goal with
  | |- None = match dropna ?l with _ => _ end =>
      assert (D : dropna l = []); [|now rewrite D]
  end.
  apply all_null_dropna. unfold all_null. apply forallb_forall. intros x Hx.
  destruct x as [q|]; [|reflexivity].
  assert (T : existsb notna
                (map (fun r : LRow => size_mean r)
                     (filter (fun r : LRow => geolocatable r && String.eqb (map_label r) k)
                             dff)) = true)
    by (apply existsb_exists; exists (Some q); auto).
  congruence.
Qed.

Lemma momentum_columns (dff : list LRow) :
  map m_alt_momentum (dff_momentum dff)
  = rolling_sum 7 (map m_sum (dff_momentum dff)).
Proof.
  unfold dff_momentum.
  set (buckets := resample _).
  set (alts := rolling_sum 7 (map (fun b => series_sum (snd b)) buckets)).
  assert (L : List.length alts = List.length buckets)
    by (subst alts; now rewrite rolling_sum_length, length_map).
  assert (E1 : map snd (combine buckets alts) = alts)
    by now apply map_snd_combine_same_length.
  assert (E2 : map fst (combine buckets alts) = buckets)
    by now apply map_fst_combine_same_length.
  transitivity (map snd (combine buckets alts)).
  - rewrite map_map. apply map_ext. now intros [[d vs] alt].
  - rewrite E1. subst alts. f_equal.
    rewrite <- E2 at 1. rewrite !map_map. apply map_ext. now intros [[d vs] alt].
Qed.

Lemma firstn_seq_In k s n i : In i (firstn k (seq s n)) -> (i < s + k)%nat.
Proof.
  revert s n. induction k as [|k IH]; intros s n H; [contradiction|].
  destruct n as [|n]; [contradiction|]. cbn [seq firstn] in H.
  destruct H as [<-|H]; [lia|]. apply IH in H. lia.
Qed.

(** The rolling total is undefined on the first six days only. *)
Lemma rolling_total_defined (dff : list LRow) :
  map m_alt_momentum (dff_momentum dff)
  = rolling_sum 7 (map m_sum (dff_momentum dff))
  /\ Forall (fun a => a = None) (firstn 6 (map m_alt_momentum (dff_momentum dff)))
  /\ Forall (fun a => a <> None) (skipn 6 (map m_alt_momentum (dff_momentum dff))).
Proof.
  split; [apply momentum_columns|].
  rewrite momentum_columns. unfold rolling_sum.
  rewrite firstn_map, skipn_map, skipn_seq, !Forall_map.
  split; apply Forall_forall; intros i Hi.
  - apply firstn_seq_In in Hi.
    destruct (Nat.ltb_spec (S i) 7); [reflexivity | lia].
  - apply in_seq in Hi.
    destruct (Nat.ltb_spec (S i) 7); [lia | discriminate].
Qed.

(* ================================================================== *)
(** * The memoised aggregator *)
(* ================================================================== *)

Section MemoizeFacts.

Context {K : Type} (frame_key : list LRow -> K) (key_eqb : K -> K -> bool).

Lemma memoized_miss c now dff :
  cache_get key_eqb c now (frame_key dff) = None ->
  aggregate_events_for_map_memoized frame_key key_eqb c now dff
  = (aggregate_events_for_map dff,
     cache_set key_eqb c now (frame_key dff) (aggregate_events_for_map dff)).
Proof. intros H. unfold aggregate_events_for_map_memoized. now rewrite H. Qed.

Lemma memoized_hit c now dff v :
  cache_get key_eqb c now (frame_key dff) = Some v ->
  aggregate_events_for_map_memoized frame_key key_eqb c now dff = (v, c).
Proof. intros H. unfold aggregate_events_for_map_memoized. now rewrite H. Qed.

Hypothesis key_eqb_eq : forall a b, key_eqb a b = true <-> a = b.

Lemma cache_get_In c now k v :
  cache_get key_eqb c now k = Some v ->
  exists e, In e c /\ e_key e = k /\ e_value e = v /\ now <= e_expires e.
Proof.
  unfold cache_get. destruct (find _ c) as [e|] eqn:F; [|discriminate].
  apply find_some in F as [Hin Hk]. apply key_eqb_eq in Hk.
  destruct (Z.leb_spec now (e_expires e)); [|discriminate].
  intros E. inversion E; subst. now exists e.
Qed.

Lemma cache_get_set c now k v :
  cache_get key_eqb (cache_set key_eqb c now k v) now k = Some v.
Proof.
  unfold cache_get, cache_set. cbn [find e_key].
  replace (key_eqb k k) with true by (symmetry; now apply key_eqb_eq).
  cbn [e_expires e_value]. unfold CACHE_TIMEOUT.
  destruct (Z.leb_spec now (now + 120)); [reflexivity | lia].
Qed.

Lemma cache_set_coherent c now dff :
  coherent frame_key key_eqb c ->
  coherent frame_key key_eqb
           (cache_set key_eqb c now (frame_key dff) (aggregate_events_for_map dff)).
Proof.
  intros H. unfold coherent, cache_set. constructor.
  - exists dff. split; [now apply key_eqb_eq | reflexivity].
  - unfold coherent in H. rewrite Forall_forall in *.
    intros e He. apply filter_In in He as [He _]. now apply H.
Qed.

(** Whatever the cache holds, as long as it was filled by the decorated
    function itself, a call returns the clusters the body computes for some
    frame that has the key of the argument, and leaves such a cache behind;
    after a miss, a call with the same key within the timeout returns the
    clusters of that miss. *)
Theorem memoized_result_is_some_frames_body c now dff :
  coherent frame_key key_eqb c ->
  let '(clusters, c') :=
    aggregate_events_for_map_memoized frame_key key_eqb c now dff in
  (exists dff', frame_key dff' = frame_key dff
                /\ clusters = aggregate_events_for_map dff')
  /\ coherent frame_key key_eqb c'
  /\ forall later dff2,
       now <= later <= now + CACHE_TIMEOUT ->
       frame_key dff2 = frame_key dff ->
       cache_get key_eqb c now (frame_key dff) = None ->
       fst (aggregate_events_for_map_memoized frame_key key_eqb c' later dff2)
       = clusters.
Proof.
  intros Hc. unfold aggregate_events_for_map_memoized.
  destruct (cache_get key_eqb c now (frame_key dff)) as [v|] eqn:G.
  - split; [|split; [exact Hc|]].
    + apply cache_get_In in G as (e & He & Hk & Hv & _).
      unfold coherent in Hc. rewrite Forall_forall in Hc.
      destruct (Hc e He) as (dff' & Hk' & Hv').
      apply key_eqb_eq in Hk'. exists dff'. split; congruence.
    + intros later dff2 _ _ H. discriminate H.
  - cbv zeta. split; [now exists dff|]. split; [now apply cache_set_coherent|].
    intros later dff2 Ht Hk _. rewrite Hk.
    unfold cache_get, cache_set. cbn [find e_key].
    replace (key_eqb (frame_key dff) (frame_key dff)) with true
      by (symmetry; now apply key_eqb_eq).
    cbn [e_expires e_value].
    destruct (Z.leb_spec later (now + CACHE_TIMEOUT)); [reflexivity | lia].
Qed.

End MemoizeFacts.

Lemma printed_key_eqb_eq a b : printed_key_eqb a b = true <-> a = b.
Proof.
  unfold printed_key_eqb. destruct a as [ra na], b as [rb nb]. cbn [fst snd].
  destruct (list_eq_dec LRow_eq_dec ra rb) as [E|N]; cbn [andb].
  - rewrite Nat.eqb_eq. split; [intros ->; now rewrite E | intros H; now inversion H].
  - split; [discriminate | intros H; inversion H; contradiction].
Qed.

Lemma memoized_result_is_some_frames_body_witness :
  (forall a b, printed_key_eqb a b = true <-> a = b)
  /\ coherent printed_key printed_key_eqb []
  /\ let '(clusters, c') :=
       aggregate_events_for_map_memoized printed_key printed_key_eqb [] 0
                                         Sample.same_day in
     (exists dff', printed_key dff' = printed_key Sample.same_day
                   /\ clusters = aggregate_events_for_map dff')
     /\ coherent printed_key printed_key_eqb c'
     /\ forall later dff2,
          0 <= later <= 0 + CACHE_TIMEOUT ->
          printed_key dff2 = printed_key Sample.same_day ->
          cache_get printed_key_eqb [] 0 (printed_key Sample.same_day) = None ->
          fst (aggregate_events_for_map_memoized printed_key printed_key_eqb
                                                 c' later dff2)
          = clusters.
Proof.
  assert (H : coherent printed_key printed_key_eqb []) by constructor.
  split; [exact printed_key_eqb_eq|]. split; [exact H|].
  exact (memoized_result_is_some_frames_body printed_key printed_key_eqb
           printed_key_eqb_eq [] 0 Sample.same_day H).
Defined.

(** C6. Two filters of one dataset return frames of 61 rows that show the
    same first and last five rows, which are rows 0-4 and 107-111 of the
    dataset in both, and so have one cache key.  The second call of the
    decorated aggregator, 60 seconds after the first, returns the clusters
    of the first frame: the 51 geolocatable rows of the second frame
    labelled [Pioneer Square] are in no cluster, and the counts add up to 10
    where the second frame has 61 geolocatable rows.  The body on the second
    frame has both clusters. *)
Theorem C6_stale_clusters_on_key_collision :
  let first := filter_data Sample.repr1 Sample.long_dataset Sample.ca_tx in
  let second := filter_data Sample.repr1 Sample.long_dataset Sample.ca_or in
  let cache :=
    snd (aggregate_events_for_map_memoized printed_key printed_key_eqb [] 0 first) in
  let clusters :=
    fst (aggregate_events_for_map_memoized printed_key printed_key_eqb cache 60
                                           second) in
  let ends := (firstn 5 Sample.long_dataset ++ skipn 107 Sample.long_dataset)%list in
  shown_rows first = shown_rows second
  /\ shown_rows first = map Sample.label ends
  /\ forallb (mask Sample.repr1 Sample.ca_tx) ends = true
  /\ forallb (mask Sample.repr1 Sample.ca_or) ends = true
  /\ List.length Sample.long_dataset = 112%nat
  /\ List.length first = 61%nat /\ List.length second = 61%nat
  /\ clusters = aggregate_events_for_map first
  /\ map (fun c => (c_location_label c, c_count c)) clusters
     = [("City Hall", 10%nat)]
  /\ map (fun c => (c_location_label c, c_count c)) (aggregate_events_for_map second)
     = [("City Hall", 10%nat); ("Pioneer Square", 51%nat)]
  /\ List.length (filter (fun r : LRow => geolocatable r) second) = 61%nat
  /\ In (Sample.label Sample.picket) second
  /\ geolocatable (Sample.label Sample.picket) = true
  /\ ~ In (map_label (Sample.label Sample.picket))
          (map c_location_label clusters).
Proof.
  vm_compute. repeat split.
  - do 5 right. now left.
  - intros [H|[]]. discriminate H.
Qed.

(* ================================================================== *)
(** * The clusters returned on a cache miss *)
(* ================================================================== *)

(** When the cache holds no live entry under the key of the frame, the
    decorated aggregator partitions the geolocatable rows of that frame:
    the clusters have pairwise distinct labels, every geolocatable row's
    label is the label of a cluster, a cluster's count is the positive
    number of geolocatable rows carrying its label, and the counts add up
    to the number of geolocatable rows. *)
Theorem clusters_partition_on_a_cache_miss {K : Type}
  (frame_key : list LRow -> K) (key_eqb : K -> K -> bool)
  (c : list (@Entry K)) (now : Z) (dff : list LRow) :
  cache_get key_eqb c now (frame_key dff) = None ->
  let clusters :=
    fst (aggregate_events_for_map_memoized frame_key key_eqb c now dff) in
  let geo := filter (fun r : LRow => geolocatable r) dff in
  NoDup (map c_location_label clusters)
  /\ Forall (fun r : LRow => In (map_label r) (map c_location_label clusters)) geo
  /\ Forall (fun c =>
               c_count c
               = List.length
                   (filter (fun r : LRow => String.eqb (map_label r) (c_location_label c))
                           geo)
               /\ (0 < c_count c)%nat)
            clusters
  /\ list_sum (map c_count clusters) = List.length geo.
Proof.
  intros H. rewrite (memoized_miss frame_key key_eqb c now dff H). cbn [fst].
  apply body_partitions_geolocatable_rows.
Qed.

Lemma clusters_partition_on_a_cache_miss_witness :
  cache_get printed_key_eqb [] 0
            (printed_key (map Sample.label [Sample.rally; Sample.vigil; Sample.march]))
  = None
  /\ let dff := map Sample.label [Sample.rally; Sample.vigil; Sample.march] in
     let clusters :=
       fst (aggregate_events_for_map_memoized printed_key printed_key_eqb [] 0 dff) in
     let geo := filter (fun r : LRow => geolocatable r) dff in
     NoDup (map c_location_label clusters)
     /\ Forall (fun r : LRow => In (map_label r) (map c_location_label clusters)) geo
     /\ Forall (fun c =>
                  c_count c
                  = List.length
                      (filter (fun r : LRow =>
                                 String.eqb (map_label r) (c_location_label c)) geo)
                  /\ (0 < c_count c)%nat)
               clusters
     /\ list_sum (map c_count clusters) = List.length geo.
Proof.
  split; [reflexivity|].
  exact (clusters_partition_on_a_cache_miss printed_key printed_key_eqb [] 0
           (map Sample.label [Sample.rally; Sample.vigil; Sample.march])
           eq_refl).
Defined.

(** On a cache miss a cluster's coordinates are those of the first
    geolocatable row of the frame, in frame order, that the aggregator
    labels with the cluster's label; both are defined. *)
Theorem cluster_coordinates_on_a_cache_miss {K : Type}
  (frame_key : list LRow -> K) (key_eqb : K -> K -> bool)
  (c : list (@Entry K)) (now : Z) (dff : list LRow) :
  cache_get key_eqb c now (frame_key dff) = None ->
  Forall (fun c =>
            exists (r : LRow) rest,
              filter (fun r : LRow => geolocatable r
                                      && String.eqb (map_label r) (c_location_label c))
                     dff
              = r :: rest
              /\ c_lat c = lat r /\ c_lon c = lon r
              /\ c_lat c <> None /\ c_lon c <> None)
         (fst (aggregate_events_for_map_memoized frame_key key_eqb c now dff)).
Proof.
  intros H. rewrite (memoized_miss frame_key key_eqb c now dff H). cbn [fst].
  apply body_cluster_coordinates.
Qed.

Lemma cluster_coordinates_on_a_cache_miss_witness :
  cache_get printed_key_eqb [] 0 (printed_key Sample.same_day) = None
  /\ Forall (fun c =>
               exists (r : LRow) rest,
                 filter (fun r : LRow => geolocatable r
                                         && String.eqb (map_label r) (c_location_label c))
                        Sample.same_day
                 = r :: rest
                 /\ c_lat c = lat r /\ c_lon c = lon r
                 /\ c_lat c <> None /\ c_lon c <> None)
            (fst (aggregate_events_for_map_memoized printed_key printed_key_eqb
                                                    [] 0 Sample.same_day)).
Proof.
  split; [reflexivity|].
  exact (cluster_coordinates_on_a_cache_miss printed_key printed_key_eqb [] 0
           Sample.same_day eq_refl).
Defined.

(** On a cache miss a cluster's mean size is the mean of the non-null sizes
    of the geolocatable rows of the frame that carry its label, and NaN when
    none of them has a size. *)
Theorem cluster_mean_size_on_a_cache_miss {K : Type}
  (frame_key : list LRow -> K) (key_eqb : K -> K -> bool)
  (c : list (@Entry K)) (now : Z) (dff : list LRow) :
  cache_get key_eqb c now (frame_key dff) = None ->
  Forall (fun c =>
            c_size_mean c
            = series_mean
                (map (fun r : LRow => size_mean r)
                     (filter (fun r : LRow => geolocatable r
                                             && String.eqb (map_label r) (c_location_label c))
                             dff)))
         (fst (aggregate_events_for_map_memoized frame_key key_eqb c now dff)).
Proof.
  intros H. rewrite (memoized_miss frame_key key_eqb c now dff H). cbn [fst].
  apply body_cluster_mean_size.
Qed.

Lemma cluster_mean_size_on_a_cache_miss_witness :
  cache_get printed_key_eqb [] 0 (printed_key Sample.same_day) = None
  /\ Forall (fun c =>
               c_size_mean c
               = series_mean
                   (map (fun r : LRow => size_mean r)
                        (filter (fun r : LRow =>
                                   geolocatable r
                                   && String.eqb (map_label r) (c_location_label c))
                                Sample.same_day)))
            (fst (aggregate_events_for_map_memoized printed_key printed_key_eqb
                                                    [] 0 Sample.same_day)).
Proof.
  split; [reflexivity|].
  exact (cluster_mean_size_on_a_cache_miss printed_key printed_key_eqb [] 0
           Sample.same_day eq_refl).
Defined.

(* ================================================================== *)
(** * The map figure of any aggregated frame *)
(* ================================================================== *)

Lemma negative_size_spec c :
  negative_size c = true <-> exists m, c_size_mean c = Some m /\ (m < 0)%Q.
Proof.
  unfold negative_size. destruct (c_size_mean c) as [m|].
  - destruct (Qlt_le_dec m 0) as [H|H]; split.
    + intros _. now exists m.
    + reflexivity.
    + discriminate.
    + intros (m' & E & Hm). inversion E; subst m'.
      exfalso. apply (Qlt_irrefl m). now apply Qlt_le_trans with 0%Q.
  - split; [discriminate | intros (m & E & _); discriminate].
Qed.

Lemma map_traces_spec (agg_map : list Cluster) :
  list_sum (map (fun t => List.length (t_points t)) (map_traces agg_map))
  = List.length agg_map
  /\ Forall (fun t =>
               t_points t <> [] /\ (0 < t_sizeref t)%Q
               /\ ((t_name t = "Has Size"
                    /\ t_points t = filter (fun c => notna (c_size_mean c)) agg_map)
                   \/ (t_name t = "Missing Size"
                       /\ t_points t = filter (fun c => isna (c_size_mean c)) agg_map)))
            (map_traces agg_map).
Proof.
  unfold map_traces.
  assert (Hlen : (List.length (filter (fun c => notna (c_size_mean c)) agg_map)
                  + List.length (filter (fun c => isna (c_size_mean c)) agg_map)
                  = List.length agg_map)%nat)
    by exact (filter_length (fun c => notna (c_size_mean c)) agg_map).
  destruct (filter (fun c => notna (c_size_mean c)) agg_map) as [|h hs] eqn:Eh;
    destruct (filter (fun c => isna (c_size_mean c)) agg_map) as [|m ms] eqn:Em;
    cbn [app map list_sum t_points List.length] in *;
    (split; [unfold list_sum; cbn [fold_right] in *; lia|]);
    repeat (apply Forall_cons || apply Forall_nil);
    cbn [t_points t_sizeref t_name];
    (split; [discriminate|]);
    (split; [first [apply sizeref_positive | reflexivity]|]);
    first [left; split; reflexivity | right; split; reflexivity].
Qed.

(** Whatever clusters the aggregator returned: building the map figure
    raises iff some cluster has a negative mean size.  Otherwise the figure
    shows every cluster once, the clusters with a mean size in the trace
    [Has Size] and the others in [Missing Size]; no trace is empty and every
    trace has a positive size reference. *)
Theorem map_figure_of_any_clusters (agg_map : list Cluster) :
  match map_figure_of agg_map with
  | None => exists c m, In c agg_map /\ c_size_mean c = Some m /\ (m < 0)%Q
  | Some fig =>
      Forall (fun c => match c_size_mean c with
                       | Some m => (0 <= m)%Q
                       | None => True
                       end) agg_map
      /\ exists ts,
           fig = MapFig ts
           /\ list_sum (map (fun t => List.length (t_points t)) ts)
              = List.length agg_map
           /\ Forall (fun t =>
                        t_points t <> [] /\ (0 < t_sizeref t)%Q
                        /\ ((t_name t = "Has Size"
                             /\ t_points t
                                = filter (fun c => notna (c_size_mean c)) agg_map)
                            \/ (t_name t = "Missing Size"
                                /\ t_points t
                                   = filter (fun c => isna (c_size_mean c)) agg_map)))
                     ts
  end.
Proof.
  unfold map_figure_of. destruct (existsb negative_size agg_map) eqn:E.
  - apply existsb_exists in E as (c & Hin & Hneg).
    apply negative_size_spec in Hneg as (m & Hm & Hlt). now exists c, m.
  - split.
    + apply Forall_forall. intros c Hin.
      destruct (c_size_mean c) as [m|] eqn:Em; [|exact I].
      destruct (Qlt_le_dec m 0) as [Hlt|Hle]; [|exact Hle].
      exfalso. assert (T : existsb negative_size agg_map = true).
      { apply existsb_exists. exists c. split; [exact Hin|].
        apply negative_size_spec. now exists m. }
      congruence.
    + exists (map_traces agg_map). split; [reflexivity|]. apply map_traces_spec.
Qed.

Example map_figure_refused :
  map_figure_of (aggregate_events_for_map
                   (map Sample.label [Sample.rally; Sample.miscoded]))
  = None.
Proof. vm_compute. reflexivity. Qed.

Lemma map_figure_eq (dff : list LRow) :
  map_figure dff = MapFig (map_traces (aggregate_events_for_map dff)).
Proof. reflexivity. Qed.

(** The callback with the decorated aggregator.  When all latitudes or all
    longitudes are null it returns the outputs of the early return and does
    not touch the cache.  Otherwise, on a cache miss, it raises if a cluster
    of the frame has a negative mean size, and else returns the outputs
    computed afresh and caches the clusters; on a hit every output but the
    map figure is the one computed afresh, whatever the cache held. *)
Lemma update_all_memoized_outputs {K : Type}
  (frame_key : list LRow -> K) (key_eqb : K -> K -> bool)
  (c : list (@Entry K)) (now : Z) (dff : list LRow) :
  let result := update_all_memoized frame_key key_eqb c now dff in
  if no_location_data dff then result = (Some (update_all_body dff), c)
  else
    match cache_get key_eqb c now (frame_key dff) with
    | None =>
        snd result
        = cache_set key_eqb c now (frame_key dff) (aggregate_events_for_map dff)
        /\ fst result
           = if existsb negative_size (aggregate_events_for_map dff) then None
             else Some (update_all_body dff)
    | Some v =>
        snd result = c
        /\ match fst result with
           | None => existsb negative_size v = true
           | Some out =>
               fig_map out = MapFig (map_traces v)
               /\ fig_momentum out = fig_momentum (update_all_body dff)
               /\ fig_daily out = fig_daily (update_all_body dff)
               /\ kpis out = kpis (update_all_body dff)
               /\ filtered_data out = filtered_data (update_all_body dff)
               /\ fig_cumulative out = fig_cumulative (update_all_body dff)
               /\ fig_daily_participants out
                  = fig_daily_participants (update_all_body dff)
               /\ no_data_message out = None
               /\ largest_event_kpi out = largest_event_kpi (update_all_body dff)
               /\ largest_day_kpi out = largest_day_kpi (update_all_body dff)
           end
    end.
Proof.
  cbv zeta. unfold update_all_memoized, update_all_body,
    aggregate_events_for_map_memoized.
  destruct (no_location_data dff); [reflexivity|].
  destruct (cache_get key_eqb c now (frame_key dff)) as [v|].
  - unfold map_figure_of. destruct (existsb negative_size v); cbn [fst snd].
    + split; reflexivity.
    + repeat split.
  - cbv zeta. unfold map_figure_of.
    destruct (existsb negative_size (aggregate_events_for_map dff)); cbn [fst snd];
      split; reflexivity.
Qed.

(* ================================================================== *)
(** * The details behind a marker *)
(* ================================================================== *)

Lemma body_cluster_text_nonempty (dff : list LRow) c :
  In c (aggregate_events_for_map dff) -> c_text c <> "".
Proof.
  intros Hc. apply cluster_In in Hc as (k & Hk & ->).
  cbn [agg_group c_text].
  apply in_map_iff in Hk as (lr & <- & Hlr).
  apply df_map_In in Hlr as (r & _ & _ & ->). apply map_label_nonempty.
Qed.

(** The decorated aggregator has computed the clusters from the stored
    frame (a cache miss) and the stored labels are those the aggregator
    computes.  Then clicking the marker of any cluster opens a non-empty
    event list, the stored rows carrying the cluster's label, of which the
    geolocatable ones are the cluster's events; unless every stored label
    reads as a number, in which case no marker finds its events. *)
Theorem marker_opens_its_events (looks_numeric : string -> bool) {K : Type}
  (frame_key : list LRow -> K) (key_eqb : K -> K -> bool)
  (c : list (@Entry K)) (now : Z) (dff : list LRow) :
  cache_get key_eqb c now (frame_key dff) = None ->
  (forall r : LRow, In r dff -> location_label r = map_label r) ->
  Forall (fun c =>
            let events := filter (fun r : LRow => String.eqb (location_label r)
                                                             (c_location_label c)) dff in
            if labels_read_as_numbers looks_numeric dff then
              show_event_details_stored looks_numeric dff c
              = NoDetails "No event details found for this marker."
            else
              show_event_details_stored looks_numeric dff c = EventDetails events
              /\ events <> []
              /\ c_count c = List.length (filter (fun r : LRow => geolocatable r) events))
         (fst (aggregate_events_for_map_memoized frame_key key_eqb c now dff)).
Proof.
  intros Hmiss Hagree.
  rewrite (memoized_miss frame_key key_eqb c now dff Hmiss). cbn [fst].
  pose proof (body_marker_opens_its_events dff Hagree) as H.
  rewrite Forall_forall in *. intros cl Hcl. specialize (H cl Hcl). cbv zeta in *.
  unfold show_event_details_stored.
  destruct (labels_read_as_numbers looks_numeric dff); [|exact H].
  pose proof (body_cluster_text_nonempty dff cl Hcl) as Ht.
  unfold show_event_details.
  destruct (c_text cl) as [|a t]; [contradiction | reflexivity].
Qed.

Lemma marker_opens_its_events_witness :
  cache_get printed_key_eqb [] 0
            (printed_key (map Sample.label [Sample.rally; Sample.vigil; Sample.sit_in]))
  = None
  /\ (forall r : LRow,
         In r (map Sample.label [Sample.rally; Sample.vigil; Sample.sit_in]) ->
         location_label r = map_label r)
  /\ Forall (fun c =>
               let events :=
                 filter (fun r : LRow => String.eqb (location_label r) (c_location_label c))
                        (map Sample.label [Sample.rally; Sample.vigil; Sample.sit_in]) in
               if labels_read_as_numbers Sample.digits_only
                    (map Sample.label [Sample.rally; Sample.vigil; Sample.sit_in])
               then
                 show_event_details_stored Sample.digits_only
                   (map Sample.label [Sample.rally; Sample.vigil; Sample.sit_in]) c
                 = NoDetails "No event details found for this marker."
               else
                 show_event_details_stored Sample.digits_only
                   (map Sample.label [Sample.rally; Sample.vigil; Sample.sit_in]) c
                 = EventDetails events
                 /\ events <> []
                 /\ c_count c
                    = List.length (filter (fun r : LRow => geolocatable r) events))
            (fst (aggregate_events_for_map_memoized printed_key printed_key_eqb [] 0
                    (map Sample.label [Sample.rally; Sample.vigil; Sample.sit_in]))).
Proof.
  assert (H : forall r : LRow,
             In r (map Sample.label [Sample.rally; Sample.vigil; Sample.sit_in]) ->
             location_label r = map_label r).
  { intros r [<-|[<-|[<-|[]]]]; reflexivity. }
  split; [reflexivity|]. split; [exact H|].
  exact (marker_opens_its_events Sample.digits_only printed_key printed_key_eqb [] 0
           (map Sample.label [Sample.rally; Sample.vigil; Sample.sit_in]) eq_refl H).
Defined.

Example numeric_labels_lose_their_events :
  map (show_event_details_stored Sample.digits_only [Sample.label Sample.route66])
      (aggregate_events_for_map [Sample.label Sample.route66])
  = [NoDetails "No event details found for this marker."]
  /\ map (show_event_details [Sample.label Sample.route66])
         (aggregate_events_for_map [Sample.label Sample.route66])
     = [EventDetails [Sample.label Sample.route66]].
Proof. vm_compute. split; reflexivity. Qed.

(* ================================================================== *)
(** * The loops of [jitter_coords] *)
(* ================================================================== *)

Lemma coord_eqb_refl a : coord_eqb a a = true.
Proof. destruct a; simpl; [apply Qeq_bool_iff; reflexivity|reflexivity]. Qed.

Lemma coord_eqb_sym a b : coord_eqb a b = coord_eqb b a.
Proof.
  destruct a, b; simpl; try reflexivity.
  apply eq_true_iff_eq. rewrite !Qeq_bool_iff. split; intros H; now symmetry.
Qed.

Lemma coord_eqb_trans a b c :
  coord_eqb a b = true -> coord_eqb b c = true -> coord_eqb a c = true.
Proof.
  destruct a, b, c; simpl; try congruence.
  rewrite !Qeq_bool_iff. intros H1 H2. now rewrite H1.
Qed.

Lemma coords_eqb_refl a : coords_eqb a a = true.
Proof. unfold coords_eqb. now rewrite !coord_eqb_refl. Qed.

Lemma coords_eqb_sym a b : coords_eqb a b = coords_eqb b a.
Proof.
  unfold coords_eqb. now rewrite (coord_eqb_sym (fst a)), (coord_eqb_sym (snd a)).
Qed.

Lemma coords_eqb_trans a b c :
  coords_eqb a b = true -> coords_eqb b c = true -> coords_eqb a c = true.
Proof.
  unfold coords_eqb. rewrite !andb_true_iff. intros [H1 H2] [H3 H4]. split.
  - exact (coord_eqb_trans _ _ _ H1 H3).
  - exact (coord_eqb_trans _ _ _ H2 H4).
Qed.

Lemma same_coords_keys a b :
  same_coords a b = coords_eqb (coord_key a) (coord_key b).
Proof. reflexivity. Qed.

(** ** The two loops as one pass over the visited rows *)

Lemma jitter_group_offsets stream (idxs : list nat) :
  forall s st, (0 < s)%nat ->
    fold_left (fun st (oi : nat * nat) =>
                 if (fst oi =? 0)%nat then st else jitter_one stream st (snd oi))
              (combine (seq s (List.length idxs)) idxs) st
    = fold_left (jitter_one stream) idxs st.
Proof.
  induction idxs as [|i idxs IH]; intros s st Hs; [reflexivity|].
  cbn [List.length seq combine fold_left fst snd].
  destruct (Nat.eqb_spec s 0); [lia|]. apply IH. lia.
Qed.

Lemma jitter_group_tl stream st idxs :
  jitter_group stream st idxs = fold_left (jitter_one stream) (tl idxs) st.
Proof.
  unfold jitter_group. destruct idxs as [|i idxs]; [reflexivity|].
  cbn [List.length seq combine fold_left fst snd tl Nat.eqb].
  apply jitter_group_offsets. lia.
Qed.

Lemma jitter_loops_visits stream coords dups df :
  jitter_loops stream coords dups df
  = fold_left (jitter_one stream) (visits coords dups) (df, 0%nat).
Proof.
  unfold jitter_loops, visits. generalize (df, 0%nat).
  induction dups as [|c dups IH]; intros st; [reflexivity|].
  cbn [fold_left flat_map]. rewrite fold_left_app, IH. now rewrite jitter_group_tl.
Qed.

Lemma update_at_length i f df : List.length (update_at i f df) = List.length df.
Proof.
  revert i. induction df as [|r df IH]; intros [|i]; simpl; try reflexivity.
  now rewrite IH.
Qed.

Lemma update_at_same i f df :
  nth_error (update_at i f df) i = option_map f (nth_error df i).
Proof.
  revert i. induction df as [|r df IH]; intros [|i]; simpl; try reflexivity.
  apply IH.
Qed.

Lemma update_at_other i j f df :
  i <> j -> nth_error (update_at i f df) j = nth_error df j.
Proof.
  revert i j. induction df as [|r df IH]; intros [|i] [|j] H; simpl;
    try reflexivity; try congruence.
  apply IH. congruence.
Qed.

Lemma turn_visits_length stream V :
  forall st, List.length (fst (fold_left (jitter_one stream) V st))
             = List.length (fst st).
Proof.
  induction V as [|v V IH]; intros st; [reflexivity|].
  cbn [fold_left]. rewrite IH. apply update_at_length.
Qed.

Lemma one_pass_nth stream V :
  NoDup V ->
  forall st i,
    nth_error (fst (fold_left (jitter_one stream) V st)) i
    = if existsb (Nat.eqb i) V
      then option_map (shift (stream (snd st + turn V i)%nat)) (nth_error (fst st) i)
      else nth_error (fst st) i.
Proof.
  induction 1 as [|v V Hv Hnd IH]; intros st i; [reflexivity|].
  cbn [fold_left existsb turn]. rewrite IH. cbn [jitter_one fst snd].
  rewrite (Nat.eqb_sym i v).
  destruct (Nat.eqb_spec v i) as [->|Hne]; cbn [orb].
  - replace (existsb (Nat.eqb i) V) with false.
    + rewrite update_at_same. now rewrite Nat.add_0_r.
    + symmetry. apply not_true_is_false. intros E.
      apply existsb_exists in E as (x & Hx & Ex). apply Nat.eqb_eq in Ex. now subst.
  - rewrite update_at_other by exact Hne.
    now replace (S (snd st) + turn V i)%nat with (snd st + S (turn V i))%nat by lia.
Qed.

(** ** Which rows the loops visit *)

Lemma In_tl_filter_seq (P : nat -> bool) n :
  forall s i,
    In i (tl (filter P (seq s n)))
    <-> (s <= i < s + n)%nat /\ P i = true
        /\ exists j, (s <= j < i)%nat /\ P j = true.
Proof.
  induction n as [|n IH]; intros s i; cbn [seq filter].
  - simpl. split; [contradiction|]. intros [H _]. lia.
  - destruct (P s) eqn:Ps; cbn [tl].
    + rewrite filter_In, in_seq. split.
      * intros [H1 H2]. repeat split; try lia; [exact H2|].
        exists s. split; [lia|exact Ps].
      * intros (H1 & H2 & j & Hj & _). split; [lia|exact H2].
    + rewrite IH. split.
      * intros (H1 & H2 & j & Hj & Pj). repeat split; try lia; [exact H2|].
        exists j. split; [lia|exact Pj].
      * intros (H1 & H2 & j & Hj & Pj).
        assert (j <> s) by congruence.
        repeat split; try lia; [exact H2|]. exists j. split; [lia|exact Pj].
Qed.

Lemma NoDup_tl {A} (l : list A) : NoDup l -> NoDup (tl l).
Proof. destruct l; [trivial|]. intros H. now inversion H. Qed.

Lemma idxs_of_tl_NoDup coords c : NoDup (tl (idxs_of coords c)).
Proof. apply NoDup_tl, NoDup_filter, seq_NoDup. Qed.

Lemma In_idxs_of_tl coords c i :
  In i (tl (idxs_of coords c))
  <-> exists ki, nth_error coords i = Some ki /\ coords_eqb ki c = true
      /\ exists j kj, (j < i)%nat /\ nth_error coords j = Some kj
                      /\ coords_eqb kj c = true.
Proof.
  unfold idxs_of. rewrite In_tl_filter_seq. split.
  - intros (_ & Hi & j & Hj & Pj).
    destruct (nth_error coords i) as [ki|]; [|discriminate].
    exists ki. repeat split; [exact Hi|].
    destruct (nth_error coords j) as [kj|] eqn:Ej; [|discriminate].
    exists j, kj. repeat split; [lia|exact Ej|exact Pj].
  - intros (ki & Ei & Hi & j & kj & Hj & Ej & Pj).
    assert (i < List.length coords)%nat
      by (apply nth_error_Some; congruence).
    repeat split; try lia.
    + now rewrite Ei.
    + exists j. split; [lia|]. now rewrite Ej.
Qed.

Lemma count_key_two (P : (option Q * option Q) -> bool) coords i j a b :
  (j < i)%nat -> nth_error coords j = Some a -> nth_error coords i = Some b ->
  P a = true -> P b = true -> (1 < List.length (filter P coords))%nat.
Proof.
  intros Hji Ej Ei Pa Pb.
  apply nth_error_split in Ej as (l1 & l2 & -> & Hl1).
  rewrite nth_error_app2 in Ei by lia.
  replace (i - List.length l1)%nat with (S (i - List.length l1 - 1)) in Ei by lia.
  cbn [nth_error] in Ei.
  apply nth_error_split in Ei as (l3 & l4 & -> & _).
  rewrite filter_app. cbn [filter]. rewrite Pa, filter_app. cbn [filter].
  rewrite Pb. rewrite length_app. cbn [List.length]. rewrite length_app.
  cbn [List.length]. lia.
Qed.

Lemma visits_iff coords cs i :
  lists_duplicated_keys coords cs ->
  In i (visits coords cs)
  <-> exists ki, nth_error coords i = Some ki
      /\ exists j kj, (j < i)%nat /\ nth_error coords j = Some kj
                      /\ coords_eqb ki kj = true.
Proof.
  intros (_ & _ & Hcover). unfold visits. rewrite in_flat_map. split.
  - intros (c & _ & Hi). apply In_idxs_of_tl in Hi
      as (ki & Ei & Hi & j & kj & Hj & Ej & Pj).
    exists ki. split; [exact Ei|]. exists j, kj. repeat split; try assumption.
    apply (coords_eqb_trans _ c); [exact Hi|]. now rewrite coords_eqb_sym.
  - intros (ki & Ei & j & kj & Hj & Ej & Hij).
    destruct (Hcover ki) as (c & Hc & Hkc).
    + eapply nth_error_In; eassumption.
    + unfold count_key.
      apply (count_key_two _ coords i j kj ki); try assumption.
      apply coords_eqb_refl.
    + exists c. split; [exact Hc|]. apply In_idxs_of_tl.
      exists ki. repeat split; [exact Ei|exact Hkc|].
      exists j, kj. repeat split; try assumption.
      apply (coords_eqb_trans _ ki); [|exact Hkc].
      now rewrite coords_eqb_sym.
Qed.

Lemma visits_NoDup coords cs :
  ForallOrdPairs (fun a b => coords_eqb a b = false) cs ->
  NoDup (visits coords cs).
Proof.
  unfold visits. induction 1 as [|c cs Hc Hcs IH]; cbn [flat_map]; [constructor|].
  apply NoDup_app; [apply idxs_of_tl_NoDup|exact IH|].
  intros i Hi Hi'. apply In_idxs_of_tl in Hi as (ki & Ei & Hi & _).
  apply in_flat_map in Hi' as (c' & Hc' & Hi').
  apply In_idxs_of_tl in Hi' as (ki' & Ei' & Hi' & _).
  assert (ki' = ki) by congruence. subst ki'.
  rewrite Forall_forall in Hc. specialize (Hc c' Hc').
  assert (coords_eqb c c' = true).
  { apply (coords_eqb_trans _ ki); [|exact Hi']. now rewrite coords_eqb_sym. }
  congruence.
Qed.

Lemma In_firstn_nth {A} (x : A) (l : list A) :
  forall i, In x (firstn i l) <-> exists j, (j < i)%nat /\ nth_error l j = Some x.
Proof.
  induction l as [|a l IH]; intros i.
  - rewrite firstn_nil. split; [contradiction|]. intros (j & _ & E).
    destruct j; discriminate.
  - destruct i as [|i]; cbn [firstn].
    + split; [contradiction|]. intros (j & H & _). lia.
    + cbn [In]. rewrite IH. split.
      * intros [->|(j & Hj & E)].
        -- exists 0%nat. split; [lia|reflexivity].
        -- exists (S j). split; [lia|exact E].
      * intros ([|j] & Hj & E); cbn [nth_error] in E.
        -- left. congruence.
        -- right. exists j. split; [lia|exact E].
Qed.

(** The loops visit row [i] when an earlier row has its key. *)
Lemma visited_iff_earlier_row df cs i r :
  lists_duplicated_keys (map coord_key df) cs ->
  nth_error df i = Some r ->
  existsb (Nat.eqb i) (visits (map coord_key df) cs)
  = existsb (same_coords r) (firstn i df).
Proof.
  intros Hcs Ei. apply eq_true_iff_eq. rewrite !existsb_exists. split.
  - intros (x & Hx & Ex). apply Nat.eqb_eq in Ex. subst x.
    apply (visits_iff _ _ _ Hcs) in Hx as (ki & Eki & j & kj & Hj & Ej & Hij).
    rewrite nth_error_map, Ei in Eki. cbn [option_map] in Eki.
    rewrite nth_error_map in Ej.
    destruct (nth_error df j) as [r'|] eqn:Er'; [|discriminate].
    cbn [option_map] in Ej. exists r'. split.
    + apply In_firstn_nth. now exists j.
    + rewrite same_coords_keys. congruence.
  - intros (r' & Hr' & Hs). apply In_firstn_nth in Hr' as (j & Hj & Ej).
    exists i. split; [|apply Nat.eqb_refl].
    apply (visits_iff _ _ _ Hcs). exists (coord_key r). split.
    + now rewrite nth_error_map, Ei.
    + exists j, (coord_key r'). repeat split; [exact Hj| |exact Hs].
      now rewrite nth_error_map, Ej.
Qed.

(** The loops over any listing of the duplicated keys. *)
Lemma jitter_loops_nth stream df cs i :
  lists_duplicated_keys (map coord_key df) cs ->
  nth_error (fst (jitter_loops stream (map coord_key df) cs df)) i
  = option_map
      (fun r => if existsb (same_coords r) (firstn i df)
                then shift (stream (turn (visits (map coord_key df) cs) i)) r
                else r)
      (nth_error df i).
Proof.
  intros Hcs. rewrite jitter_loops_visits, one_pass_nth.
  - cbn [fst snd Nat.add].
    destruct (nth_error df i) as [r|] eqn:Ei.
    + rewrite (visited_iff_earlier_row df cs i r Hcs Ei). cbn [option_map].
      now destruct (existsb (same_coords r) (firstn i df)).
    + now destruct (existsb (Nat.eqb i) _).
  - apply visits_NoDup, Hcs.
Qed.

(** ** [value_counts] lists each duplicated key once *)

Lemma In_insert_count x l y : In y (insert_count x l) <-> y = x \/ In y l.
Proof.
  induction l as [|z l IH]; cbn [insert_count].
  - simpl. intuition congruence.
  - destruct (snd x <? snd z)%nat; cbn [In]; [rewrite IH|]; intuition congruence.
Qed.

Lemma In_value_sort l y : In y (fold_right insert_count [] l) <-> In y l.
Proof.
  induction l as [|x l IH]; cbn [fold_right]; [reflexivity|].
  rewrite In_insert_count, IH. cbn [In]. intuition congruence.
Qed.

Lemma In_dup_coords coords c :
  In c (dup_coords coords)
  <-> In c (distinct_keys coords) /\ (1 < count_key c coords)%nat.
Proof.
  unfold dup_coords, value_counts. rewrite in_map_iff. split.
  - intros ([k n] & <- & H). apply filter_In in H as [H Hn].
    apply In_value_sort, in_map_iff in H as (k' & E & Hk').
    injection E as -> <-. cbn [fst snd] in *. split; [exact Hk'|].
    now apply Nat.ltb_lt.
  - intros [Hc Hn]. exists (c, count_key c coords). split; [reflexivity|].
    apply filter_In. split; [|now apply Nat.ltb_lt].
    apply In_value_sort, in_map_iff. now exists c.
Qed.

Lemma In_distinct_keys coords c : In c (distinct_keys coords) -> In c coords.
Proof.
  induction coords as [|k coords IH]; cbn [distinct_keys In]; [trivial|].
  intros [->|H]; [now left|]. apply filter_In in H as [H _]. right. now apply IH.
Qed.

Lemma distinct_keys_cover coords k :
  In k coords -> exists c, In c (distinct_keys coords) /\ coords_eqb k c = true.
Proof.
  induction coords as [|a coords IH]; [contradiction|].
  cbn [distinct_keys In]. intros [->|H].
  - exists k. split; [now left|apply coords_eqb_refl].
  - destruct (IH H) as (c & Hc & Hkc).
    destruct (coords_eqb a c) eqn:Eac.
    + exists a. split; [now left|].
      apply (coords_eqb_trans _ c); [exact Hkc|]. now rewrite coords_eqb_sym.
    + exists c. split; [|exact Hkc]. right. apply filter_In. split; [exact Hc|].
      now rewrite Eac.
Qed.

Section Pairs.

Context {A : Type} (R : A -> A -> Prop).

Lemma ForallOrdPairs_filter (p : A -> bool) (l : list A) :
  ForallOrdPairs R l -> ForallOrdPairs R (filter p l).
Proof.
  induction 1 as [|a l Ha Hl IH]; cbn [filter]; [constructor|].
  destruct (p a); [|exact IH]. constructor; [|exact IH].
  rewrite Forall_forall in *. intros x Hx. apply filter_In in Hx as [Hx _].
  now apply Ha.
Qed.

Lemma ForallOrdPairs_map {B} (f : B -> A) (l : list B) :
  ForallOrdPairs (fun a b => R (f a) (f b)) l -> ForallOrdPairs R (map f l).
Proof.
  induction 1 as [|a l Ha Hl IH]; cbn [map]; constructor; [|exact IH].
  rewrite Forall_forall in *. intros x Hx. apply in_map_iff in Hx as (y & <- & Hy).
  now apply Ha.
Qed.

End Pairs.

Lemma distinct_keys_distinct coords :
  ForallOrdPairs (fun a b => coords_eqb a b = false) (distinct_keys coords).
Proof.
  induction coords as [|k coords IH]; cbn [distinct_keys]; constructor.
  - apply Forall_forall. intros x Hx. apply filter_In in Hx as [_ Hx].
    now apply negb_true_iff.
  - now apply ForallOrdPairs_filter.
Qed.

Lemma insert_count_distinct x l :
  ForallOrdPairs (fun a b => coords_eqb (fst a) (fst b) = false) (x :: l) ->
  ForallOrdPairs (fun a b => coords_eqb (fst a) (fst b) = false) (insert_count x l).
Proof.
  induction l as [|y l IH]; intros H; cbn [insert_count]; [exact H|].
  destruct (snd x <? snd y)%nat; [|exact H].
  inversion H as [|? ? Hx Hyl]; subst. inversion Hx as [|? ? Hxy Hxl]; subst.
  inversion Hyl as [|? ? Hy Hl]; subst.
  constructor.
  - apply Forall_forall. intros z Hz. apply In_insert_count in Hz as [->|Hz].
    + now rewrite coords_eqb_sym.
    + rewrite Forall_forall in Hy. now apply Hy.
  - apply IH. now constructor.
Qed.

Lemma value_sort_distinct l :
  ForallOrdPairs (fun a b => coords_eqb (fst a) (fst b) = false) l ->
  ForallOrdPairs (fun a b => coords_eqb (fst a) (fst b) = false)
                 (fold_right insert_count [] l).
Proof.
  induction 1 as [|x l Hx Hl IH]; cbn [fold_right]; [constructor|].
  apply insert_count_distinct. constructor; [|exact IH].
  apply Forall_forall. intros y Hy. apply (proj1 (In_value_sort _ _)) in Hy.
  rewrite Forall_forall in Hx. now apply Hx.
Qed.

Lemma count_key_same a b coords :
  coords_eqb a b = true -> count_key a coords = count_key b coords.
Proof.
  intros H. unfold count_key. f_equal. apply filter_ext. intros k.
  apply eq_true_iff_eq. split; intros E.
  - apply (coords_eqb_trans _ a); [|exact E]. now rewrite coords_eqb_sym.
  - now apply (coords_eqb_trans _ b).
Qed.

Lemma dup_coords_lists_duplicated_keys coords :
  lists_duplicated_keys coords (dup_coords coords).
Proof.
  repeat split.
  - unfold dup_coords, value_counts.
    apply ForallOrdPairs_map, ForallOrdPairs_filter, value_sort_distinct.
    apply (ForallOrdPairs_map
             (fun a b : (option Q * option Q) * nat =>
                coords_eqb (fst a) (fst b) = false)
             (fun k => (k, count_key k coords))).
    cbn [fst]. apply distinct_keys_distinct.
  - intros c Hc. now apply In_dup_coords in Hc.
  - intros k Hk Hn. destruct (distinct_keys_cover coords k Hk) as (c & Hc & Hkc).
    exists c. split; [|exact Hkc]. apply In_dup_coords. split; [exact Hc|].
    now rewrite <- (count_key_same k c coords Hkc).
Qed.

Lemma jitter_coords_loops_nth stream df i :
  nth_error (jitter_coords_loops stream df) i
  = option_map
      (fun r => if existsb (same_coords r) (firstn i df)
                then shift (stream (jitter_turn df i)) r
                else r)
      (nth_error df i).
Proof.
  unfold jitter_coords_loops, jitter_turn. cbv zeta.
  apply jitter_loops_nth, dup_coords_lists_duplicated_keys.
Qed.

Lemma jitter_coords_loops_length stream df :
  List.length (jitter_coords_loops stream df) = List.length df.
Proof.
  unfold jitter_coords_loops. cbv zeta. rewrite jitter_loops_visits.
  now rewrite turn_visits_length.
Qed.

(** [jitter_coords] as the source writes it, with its two loops over the
    duplicated keys: the frame keeps its length; a row is moved when an
    earlier row has its coordinates, by the displacement drawn at its turn;
    every other row is returned as it was. *)
Theorem jitter_loops_move_later_duplicates_only
  (stream : nat -> Q * Q) (df : list Row) :
  List.length (jitter_coords_loops stream df) = List.length df
  /\ forall i,
       nth_error (jitter_coords_loops stream df) i
       = option_map
           (fun r => if existsb (same_coords r) (firstn i df)
                     then shift (stream (jitter_turn df i)) r
                     else r)
           (nth_error df i).
Proof.
  split; [apply jitter_coords_loops_length|].
  intros i. apply jitter_coords_loops_nth.
Qed.

(** The loops of the source and the pass in frame order return the same
    frame, the displacement of a row being the one drawn at its turn. *)
Theorem jitter_loops_agree_with_rows (stream : nat -> Q * Q) (df : list Row) :
  jitter_coords_loops stream df
  = jitter_coords (fun i => stream (jitter_turn df i)) df.
Proof.
  apply nth_error_ext. intros i.
  rewrite jitter_coords_loops_nth.
  now rewrite (proj2 (jitter_coords_nth _ df)).
Qed.

(** The key of [rally] and [sit_in] occurs three times and comes first in
    [value_counts]: its later rows take the first two displacements, the
    second [march] the third. *)
Example jitter_turns_follow_value_counts :
  map (fun r => (lat r, lon r))
      (jitter_coords_loops (fun k => ((Z.of_nat k + 1) # 100, 0)%Q)
         [Sample.march : Row; Sample.rally : Row; Sample.march : Row;
          Sample.sit_in : Row; Sample.rally : Row])
  = [(Some (40 # 1), Some (-74 # 1));
     (Some (34 # 1), Some (-118 # 1));
     (Some ((40 # 1) + (3 # 100)), Some ((-74 # 1) + 0));
     (Some ((34 # 1) + (1 # 100)), Some ((-118 # 1) + 0));
     (Some ((34 # 1) + (2 # 100)), Some ((-118 # 1) + 0))]%Q.
Proof. reflexivity. Qed.

(* ================================================================== *)
(** * The rolling total over the events of a week *)
(* ================================================================== *)

Lemma Qsum_map_plus {A} (f g : A -> Q) (l : list A) :
  (Qsum (map (fun x => f x + g x) l) == Qsum (map f l) + Qsum (map g l))%Q.
Proof.
  induction l as [|x l IH]; simpl; [reflexivity|].
  rewrite IH. ring.
Qed.

Lemma Qsum_map_ext {A} (f g : A -> Q) (l : list A) :
  (forall x, In x l -> (f x == g x)%Q) ->
  (Qsum (map f l) == Qsum (map g l))%Q.
Proof.
  induction l as [|x l IH]; intros H; simpl; [reflexivity|].
  rewrite (H x) by now left. rewrite IH; [reflexivity|].
  intros y Hy. apply H. now right.
Qed.

Lemma Qsum_indicator (k : Z) (q : Q) (ds : list Z) :
  NoDup ds ->
  (Qsum (map (fun d => if k =? d then q else 0) ds)
   == if existsb (Z.eqb k) ds then q else 0)%Q.
Proof.
  induction 1 as [|d ds Hd Hnd IH]; simpl; [reflexivity|].
  rewrite IH. destruct (Z.eqb_spec k d) as [->|Hne]; simpl.
  - replace (existsb (Z.eqb d) ds) with false; [ring|].
    symmetry. apply not_true_is_false. intros E.
    apply existsb_exists in E as (x & Hx & Ex). apply Z.eqb_eq in Ex. now subst.
  - ring.
Qed.

(** The sums of the days of a list add up to the sum over the events dated
    on one of them. *)
Lemma Qsum_over_days (ys : list (Z * Q)) (ds : list Z) :
  NoDup ds ->
  (Qsum (map (fun d => Qsum (map snd (filter (fun p : Z * Q => fst p =? d) ys))) ds)
   == Qsum (map snd (filter (fun p : Z * Q => existsb (Z.eqb (fst p)) ds) ys)))%Q.
Proof.
  intros Hnd. induction ys as [|[k q] ys IH]; cbn [filter map fst snd].
  - clear Hnd. induction ds as [|d ds IHds]; simpl in *; [reflexivity|].
    rewrite IHds. ring.
  - rewrite (Qsum_map_ext _
               (fun d => (if k =? d then q else 0)
                         + Qsum (map snd (filter (fun p : Z * Q => fst p =? d) ys)))%Q).
    + rewrite Qsum_map_plus, IH, Qsum_indicator by exact Hnd.
      destruct (existsb (Z.eqb k) ds); simpl; ring.
    + intros d _. destruct (k =? d); simpl; ring.
Qed.

Lemma sized_bucket (dff : list LRow) (d : Z) :
  dropna (on_day d (dated
            (filter (fun p : option Dates.Date * option Q =>
                       notna (fst p) && notna (snd p))
                    (map (fun r : LRow => (date r, size_mean r)) dff))))
  = map snd (filter (fun p : Z * Q => fst p =? d) (sized_events dff)).
Proof.
  unfold on_day. induction dff as [|r dff IH]; simpl; [reflexivity|].
  destruct (date r) as [x|]; simpl; [|exact IH].
  destruct (size_mean r) as [q|]; simpl; [|exact IH].
  destruct (Dates.toordinal x =? d); simpl; now rewrite IH.
Qed.

Lemma firstn_seq_min k s n : firstn k (seq s n) = seq s (Nat.min k n).
Proof.
  revert s n. induction k as [|k IH]; intros s [|n]; simpl; try reflexivity.
  now rewrite IH.
Qed.

Lemma combine_map_seq {A B} (f : nat -> A) (g : nat -> B) (l : list nat) :
  combine (map f l) (map g l) = map (fun i => (f i, g i)) l.
Proof. induction l; simpl; congruence. Qed.

(** The rows of [dff_momentum] by their position in the series. *)
Lemma dff_momentum_by_index (dff : list LRow) :
  let lo := first_sized_day dff in
  let n := List.length (day_span (sized_days dff)) in
  let day_sum i :=
    Qsum (map snd (filter (fun p : Z * Q => fst p =? lo + Z.of_nat i)
                          (sized_events dff))) in
  map (fun m => (m_day m, m_alt_momentum m)) (dff_momentum dff)
  = map (fun i => (lo + Z.of_nat i,
                   if (S i <? 7)%nat then None
                   else Some (Qsum (map day_sum (seq (S i - 7) 7)))))
        (seq 0 n).
Proof.
  cbv zeta. unfold dff_momentum, first_sized_day, sized_days, participants_numeric.
  set (kept := filter _ (map _ dff)).
  rewrite resample_eq.
  destruct (map fst (dated kept)) as [|d ds] eqn:E; [reflexivity|].
  cbn [day_span]. set (lo := fold_left Z.min ds d). set (hi := fold_left Z.max ds d).
  rewrite day_range_length. unfold day_range, rolling_sum.
  set (n := Z.to_nat (hi - lo + 1)).
  rewrite !map_map, !length_map, length_seq.
  rewrite combine_map_seq, !map_map.
  apply map_ext_in. intros i Hi. apply in_seq in Hi. cbn [m_day m_alt_momentum fst snd].
  f_equal. destruct (Nat.ltb_spec (S i) 7); [reflexivity|]. f_equal.
  rewrite skipn_map, firstn_map, skipn_seq, firstn_seq_min.
  replace (Nat.min 7 (n - (S i - 7))) with 7%nat by lia.
  cbn [Nat.add snd]. f_equal. apply map_ext. intros j.
  unfold series_sum. subst kept. now rewrite sized_bucket.
Qed.

(** The 7-day rolling total of the momentum figure: undefined on the first
    six days of the series, and on every later day the total size of the
    dated events of that day and the six days before it. *)
Theorem rolling_total_is_the_weeks_sizes (dff : list LRow) :
  Forall (fun m =>
            match m_alt_momentum m with
            | None => m_day m < first_sized_day dff + 6
            | Some v =>
                first_sized_day dff + 6 <= m_day m
                /\ (v == window_total dff (m_day m - 6) (m_day m))%Q
            end)
         (dff_momentum dff).
Proof.
  assert (H : Forall (fun p : Z * option Q =>
                        match snd p with
                        | None => fst p < first_sized_day dff + 6
                        | Some v =>
                            first_sized_day dff + 6 <= fst p
                            /\ (v == window_total dff (fst p - 6) (fst p))%Q
                        end)
                     (map (fun m => (m_day m, m_alt_momentum m)) (dff_momentum dff))).
  { rewrite dff_momentum_by_index. cbv zeta.
    apply Forall_forall. intros p Hp. apply in_map_iff in Hp as (i & <- & Hi).
    cbn [fst snd]. destruct (Nat.ltb_spec (S i) 7); [lia|].
    split; [lia|]. unfold window_total.
    set (lo := first_sized_day dff).
    rewrite <- (map_map (fun j => lo + Z.of_nat j)
                  (fun d => Qsum (map snd (filter (fun p : Z * Q => fst p =? d)
                                                  (sized_events dff))))).
    rewrite Qsum_over_days.
    - rewrite (filter_ext _
                 (fun p : Z * Q =>
                    (lo + Z.of_nat i - 6 <=? fst p) && (fst p <=? lo + Z.of_nat i)));
        [reflexivity|].
      intros [k q]. cbn [fst]. apply eq_true_iff_eq.
      rewrite existsb_exists, andb_true_iff, !Z.leb_le. split.
      + intros (x & Hx & Ex). apply Z.eqb_eq in Ex. subst x.
        apply in_map_iff in Hx as (j & <- & Hj). apply in_seq in Hj. lia.
      + intros Hk. exists k. split; [|apply Z.eqb_refl].
        apply in_map_iff. exists (Z.to_nat (k - lo)). split; [lia|].
        apply in_seq. lia.
    - apply NoDup_map_NoDup_ForallPairs; [|apply seq_NoDup].
      intros a b _ _ Hab. lia. }
  rewrite Forall_map in H. exact H.
Qed.

(** Events of sizes 100, 50 and 30 on the first, third and eighth day: the
    total is defined from the seventh day on, and on the eighth the event of
    the first day has left the window. *)
Example rolling_total_of_eight_days :
  let dff := map Sample.label [Sample.rally; Sample.picket; Sample.sequel] in
  map (fun m => (m_day m - first_sized_day dff, m_sum m, m_alt_momentum m))
      (dff_momentum dff)
  = [(0, 100 # 1, None); (1, 0 # 1, None); (2, 50 # 1, None); (3, 0 # 1, None);
     (4, 0 # 1, None); (5, 0 # 1, None); (6, 0 # 1, Some (150 # 1));
     (7, 30 # 1, Some (80 # 1))].
Proof. vm_compute. reflexivity. Qed.
